(** * The chain monitor of [src/monitor/monitor.ts]

    A shallow embedding of the per-chain polling engine ([ChainMonitor]) and of
    its supervisor ([Monitor]), as a labelled transition system over the
    JavaScript event loop: pending timers, promises in flight, and the record
    of every interaction with the outside (event bus, emitter, RPC provider,
    source fetcher, services).

    Conventions.
    - A JavaScript number that holds a count (block number, retry budget) is
      an integer of [Z], [NaN] or an infinity: what [parseInt] and [++]
      produce is rounded to the nearest double.
    - A JavaScript number that holds a delay is a rational of [Q]; the
      rounding of a product or quotient to a double is the field [fround] of
      the [World], so that nothing proved depends on how it rounds.
    - Strings are byte strings: the UTF-8 encoding of the JavaScript string.
    - Time is left out: a registered timer may expire at any turn of the
      event loop, whatever its delay, and a promise may settle at any turn.
      What is proved of all orders holds of the orders the clock allows.
    - A method that awaits is cut at its awaits: the part up to the first
      one runs when the method is called, each later part when the awaited
      promise settles, with the variables it has captured. *)

From Stdlib Require Import ZArith QArith Qminmax Lia Bool Ascii String.
From stdpp Require Import base list strings pretty gmap.

Local Open Scope string_scope.
Local Open Scope list_scope.
Local Open Scope Z_scope.

(** ** JavaScript values *)

Module Js.

(** A number that holds an integer, [NaN], or an infinity. Of the two
    zeros only one is kept: [-0] prints, compares and tests as [0]. *)
Inductive number : Type :=
| NaN
| Int (z : Z)
| Infinity (negative : bool).

(** The integer nearest to a positive [n] that a double holds: [n] itself
    up to 53 bits, and beyond that its leading 53 bits, rounded to nearest
    with ties to the even mantissa. *)
Definition round_mantissa (n : Z) : Z :=
  let e := Z.log2 n - 52 in
  if e <=? 0 then n
  else
    let q := Z.shiftr n e in
    let r := Z.land n (Z.ones e) in
    let half := Z.shiftl 1 (e - 1) in
    let q1 := if (half <? r) || ((r =? half) && Z.odd q) then q + 1 else q in
    Z.shiftl q1 e.

(** The least power of two that no double reaches. *)
Definition beyond : Z := 2 ^ 1024.

(** The Number value of a mathematical integer: the nearest double, an
    infinity where that would be [2^1024] or more. *)
Definition round_double (z : Z) : number :=
  let n := round_mantissa (Z.abs z) in
  if beyond <=? n then Infinity (z <? 0) else Int (Z.sgn z * n).

(** [n++] (the value left in the variable): the sum is a double again. *)
Definition incr (n : number) : number :=
  match n with
  | Int z => round_double (z + 1)
  | _ => n
  end.

(** [a || d] on numbers: [NaN] and [0] are falsy. The result is kept as an
    integer; an infinity, which only a numeral of 309 digits or more is
    read as, is carried as [beyond] with its sign, above (below) every
    double. *)
Definition or_default (a : number) (d : Z) : Z :=
  match a with
  | NaN => d
  | Int z => if z =? 0 then d else z
  | Infinity negative => if negative then - beyond else beyond
  end.

(** [s || EMPTY] on an optional string, [EMPTY] the empty string
    ([undefined] and the empty string are falsy). *)
Definition or_empty (s : option string) : string :=
  match s with
  | Some x => x
  | None => EmptyString
  end.

(** Strings are the UTF-8 bytes of the JavaScript string. White space that
    [parseInt] skips (WhiteSpace and LineTerminator of ECMAScript): in one
    byte TAB, LF, VT, FF, CR and SP; *)
Definition is_white_space (c : ascii) : bool :=
  let n := N_of_ascii c in
  ((n =? 32) || (n =? 9) || (n =? 10) || (n =? 11) || (n =? 12) || (n =? 13))%N.

(** in two bytes U+00A0; *)
Definition is_white_space2 (c1 c2 : ascii) : bool :=
  ((N_of_ascii c1 =? 194) && (N_of_ascii c2 =? 160))%N.

(** in three bytes U+1680, U+2000 to U+200A, U+2028, U+2029, U+202F,
    U+205F, U+3000 and U+FEFF. *)
Definition is_white_space3 (c1 c2 c3 : ascii) : bool :=
  let n1 := N_of_ascii c1 in
  let n2 := N_of_ascii c2 in
  let n3 := N_of_ascii c3 in
  (((n1 =? 225) && (n2 =? 154) && (n3 =? 128))
   || ((n1 =? 226) && (n2 =? 128)
       && (((128 <=? n3) && (n3 <=? 138)) || (n3 =? 168) || (n3 =? 169)
           || (n3 =? 175)))
   || ((n1 =? 226) && (n2 =? 129) && (n3 =? 159))
   || ((n1 =? 227) && (n2 =? 128) && (n3 =? 128))
   || ((n1 =? 239) && (n2 =? 187) && (n3 =? 191)))%N.

Fixpoint trim_start (s : string) : string :=
  match s with
  | String c1 r1 =>
      if is_white_space c1 then trim_start r1
      else
        match r1 with
        | String c2 r2 =>
            if is_white_space2 c1 c2 then trim_start r2
            else
              match r2 with
              | String c3 r3 =>
                  if is_white_space3 c1 c2 c3 then trim_start r3 else s
              | EmptyString => s
              end
        | EmptyString => s
        end
  | EmptyString => s
  end.

(** The value of a character as a digit of the given radix. *)
Definition digit_value (radix : Z) (c : ascii) : option Z :=
  let n := Z.of_N (N_of_ascii c) in
  let v :=
    if (48 <=? n) && (n <=? 57) then Some (n - 48)
    else if (97 <=? n) && (n <=? 122) then Some (n - 97 + 10)
    else if (65 <=? n) && (n <=? 90) then Some (n - 65 + 10)
    else None in
  match v with
  | Some d => if d <? radix then Some d else None
  | None => None
  end.

(** The mathematical value of the longest prefix of digits; [acc] is [None]
    until a digit has been read. *)
Fixpoint parse_digits (radix : Z) (s : string) (acc : option Z) : option Z :=
  match s with
  | String c r =>
      match digit_value radix c with
      | Some d =>
          parse_digits radix r
            (Some (match acc with Some a => a * radix + d | None => d end))
      | None => acc
      end
  | EmptyString => acc
  end.

(** An optional sign, and whether it is a minus. *)
Definition split_sign (s : string) : bool * string :=
  match s with
  | String "-"%char r => (true, r)
  | String "+"%char r => (false, r)
  | _ => (false, s)
  end.

(** An optional [0x] or [0X], and the radix that follows from it. *)
Definition split_radix (s : string) : Z * string :=
  match s with
  | String "0"%char (String "x"%char r) => (16, r)
  | String "0"%char (String "X"%char r) => (16, r)
  | _ => (10, s)
  end.

(** [parseInt(s)] with no radix argument: white space, sign and prefix are
    taken off, the digits that follow are read, and their value is returned
    as a Number. *)
Definition parseInt (s : string) : number :=
  let '(neg, s2) := split_sign (trim_start s) in
  let '(radix, s3) := split_radix s2 in
  match parse_digits radix s3 None with
  | Some v => round_double (if neg : bool then - v else v)
  | None => NaN
  end.

Definition is_decimal_digit (c : ascii) : bool :=
  let n := N_of_ascii c in ((48 <=? n) && (n <=? 57))%N.

(** [String(n)] for an integer (one that prints in full: below [10^21]). *)
Definition toString (z : Z) : string :=
  match z with
  | Z0 => "0"
  | Zpos p => pretty (Npos p)
  | Zneg p => "-" +:+ pretty (Npos p)
  end.

(** [String(n)] for a number. *)
Definition number_toString (n : number) : string :=
  match n with
  | NaN => "NaN"
  | Int z => toString z
  | Infinity negative => if negative then "-Infinity" else "Infinity"
  end.

(** An [Error] object, as far as the monitor reads it. *)
Record Error : Type := mkError { message : string; stack : string }.

(** [new Error(msg)]; the stack trace is left empty. *)
Definition new_Error (msg : string) : Error := mkError msg EmptyString.

(** A settled promise. *)
Inductive Settled (A : Type) : Type :=
| Fulfilled (value : A)
| Rejected (err : Error).

End Js.

Arguments Js.Fulfilled {A} value.
Arguments Js.Rejected {A} err.
Arguments Js.parseInt : simpl never.
Arguments Js.toString : simpl never.
Arguments Js.round_double : simpl never.
Arguments Js.beyond : simpl never.

(** ** The outside world *)

(** [SourcifyChain], as far as the monitor reads it. *)
Record SourcifyChain : Type := mkChain {
  chainId : Z;
  name : string;
  rpc : list string }.

(** ethers' [TransactionResponse] and [Block], as far as the monitor reads
    them. *)
Record TransactionResponse : Type := mkTx {
  to : option string;
  hash : string;
  from : string;
  nonce : Z }.

Record Block : Type := mkBlock {
  prefetchedTransactions : list TransactionResponse }.

(** The two provider classes of ethers, with the network they are bound to. *)
Inductive Provider : Type :=
| JsonRpcProvider (url : string) (net_name : string) (net_chainId : Z)
| WebSocketProvider (url : string) (net_name : string) (net_chainId : Z).

Definition CheckedContract : Type := string.
Definition Match : Type := string.
Definition SourceAddress : Type := string.

(** [repositoryService.checkByChainAndAddress(address, chainId)], the array it
    returns. The repository changes over time, so every continuation that
    consults it receives the function that holds at that moment. *)
Definition Repository : Type := string -> string -> list Match.

(** What the monitor takes from its surroundings and never changes. *)
Record World : Type := mkWorld {
  (** [process.env] *)
  env : gmap string string;
  (** rounding of an exact product or quotient to a double *)
  fround : Q -> Q;
  (** ethers' [getCreateAddress] *)
  getCreateAddress : TransactionResponse -> string;
  (** [bytecodeDecode] followed by [SourceAddress.fromCborData]; [inl] is the
      error either of them throws *)
  decodeSourceAddress : string -> Js.Error + SourceAddress;
  (** [monitoredChainArray] of [sourcify-chains] *)
  monitoredChainArray : list SourcifyChain }.

(** ** Module constants *)

Section Constants.
Context (W : World).

(** [parseInt(process.env.NAME || EMPTY) || d], [EMPTY] the empty string *)
Definition env_int (NAME : string) (d : Z) : Z :=
  Js.or_default (Js.parseInt (Js.or_empty (env W !! NAME))) d.

(** The default 1.1 is not an integer, hence the case distinction; what
    [parseInt] returns is. *)
Definition BLOCK_PAUSE_FACTOR : Q :=
  match Js.parseInt (Js.or_empty (env W !! "BLOCK_PAUSE_FACTOR")) with
  | Js.Int z => if z =? 0 then (11 # 10)%Q else inject_Z z
  | Js.NaN => (11 # 10)%Q
  | Js.Infinity negative =>
      inject_Z (if negative then - Js.beyond else Js.beyond)
  end.

(** [assert(BLOCK_PAUSE_FACTOR > 1)], without which the module does not load. *)
Definition module_assert : Prop := (1 < BLOCK_PAUSE_FACTOR)%Q.

Definition BLOCK_PAUSE_UPPER_LIMIT : Q :=
  inject_Z (env_int "BLOCK_PAUSE_UPPER_LIMIT" (30 * 1000)).

(** The default is [0.5 * 1000]. *)
Definition BLOCK_PAUSE_LOWER_LIMIT : Q :=
  inject_Z (env_int "BLOCK_PAUSE_LOWER_LIMIT" 500).

Definition PROVIDER_TIMEOUT : Z := env_int "PROVIDER_TIMEOUT" 3000.

End Constants.

(** [!tx.to]: [null] and the empty string are falsy. *)
Definition createsContract (tx : TransactionResponse) : bool :=
  match to tx with
  | None => true
  | Some s => if decide (s = EmptyString) then true else false
  end.

(** ** The event bus *)

(** The events of [SourcifyEventManager.trigger], each with its payload. *)
Inductive Event : Type :=
| Monitor_Started (chainId providerURL : string) (lastBlockNumber : Z)
    (startBlock : Js.number)
| Monitor_Stopped (chainId : string)
| Monitor_Error_CantStart (chainId message : string)
| Monitor_ProcessingBlock (blockNumber : Js.number) (chainId : string)
    (getBlockPause : Q)
| Monitor_AlreadyVerified (address chainId : string)
| Monitor_NewContract (address chainId : string)
| Monitor_Error_ProcessingBlock (message stack chainId : string)
    (blockNumber : Js.number)
| Monitor_Error_ProcessingBytecode (message stack chainId address : string)
| Monitor_Error_GettingBytecode (message stack chainId address : string)
| Monitor_Error_VerifyError (message stack chainId address : string).

(** ** Calls that may throw *)

(** What the monitor calls from inside the [.then] of [processBlock] and the
    [try] of [verifyAndStore], where a throw changes what it does next:
    ethers' [getCreateAddress], the check of the repository, and the
    listeners that a trigger of the event bus or an [emit] of the monitor
    runs. *)
Inductive Call : Type :=
| getCreateAddress_call (tx : TransactionResponse)
| checkByChainAndAddress_call (address chainId : string)
| trigger_call (e : Event)
| emit_call (signal : string) (chainId : Z) (address : string).

(** What such calls do during one turn of the event loop: return ([None])
    or throw. Like the repository, it is handed to the continuation that
    makes the calls. The triggers made elsewhere ([start], [stop], and
    where an error is handled: the [catch] blocks and the [.catch]
    reactions) are taken to return. *)
Definition Throws : Type := Call -> option Js.Error.

Definition all_return : Throws := fun _ => None.

(** ** The event loop *)

(** A timer handler with the arguments [setTimeout] will pass to it. [task]
    is a ghost: it numbers the bytecode tasks in the order [processBlock]
    starts them, so that the calls of one retry chain can be counted. *)
Inductive Handler : Type :=
| processBlock_handler (blockNumber : Js.number)
| processBytecode_handler (task : nat) (creatorTxHash address : string)
    (retriesLeft : Z).

Record Timer : Type := mkTimer {
  handler : Handler;
  timeout : Q }.

(** A promise (or callback) the monitor waits for, with the variables its
    continuation has captured. *)
Inductive Pending : Type :=
| await_getBlockNumber (provider : Provider) (providerURL : string)
    (rest : list string) (rawStartBlock : option string) (found : bool)
| await_getBlock (blockNumber : Js.number)
| await_getCode (task : nat) (creatorTxHash address : string) (retriesLeft : Z)
| await_assemble (metadataAddress : SourceAddress)
    (address creatorTxHash : string)
| await_verifyDeployed (contract : CheckedContract)
    (address creatorTxHash : string)
| await_storeMatch (contract : CheckedContract) (address : string).

(** Everything that crosses the boundary of the monitor, in order: what it
    triggers, emits, logs and calls, the answers to [getBlock], and what a
    timer handler throws. [GetCode] carries the ghost number of the task it
    is called for. *)
Inductive Effect : Type :=
| Trigger (e : Event)
| Emit (signal : string) (chainId : Z) (address : string)
| LoggerInfo (providerURL : string) (err : Js.Error)
| GetBlockNumber (provider : Provider)
| GetBlock (blockNumber : Js.number)
| GetBlockSettled (blockNumber : Js.number) (r : Js.Settled (option Block))
| GetCode (task : nat) (address : string)
| Assemble (metadataAddress : SourceAddress)
| VerifyDeployed (contract : CheckedContract) (chainId address : string)
    (creatorTxHash : string)
| StoreMatch (contract : CheckedContract) (m : Match)
| Uncaught (err : Js.Error).

(** ** ChainMonitor *)

Module ChainMonitor.

(** The fields of the object, then its footprint in the event loop: the
    timers [setTimeout] has registered, the promises in flight, the effects
    so far, and the ghost counter of bytecode tasks. *)
Record t : Type := mk {
  sourcifyChain : SourcifyChain;
  provider : option Provider;
  running : bool;
  getBytecodeRetryPause : Q;
  getBlockPause : Q;
  initialGetBytecodeTries : Z;
  timers : list Timer;
  inflight : list Pending;
  trace : list Effect;
  nextTask : nat }.

Definition set_provider (p : option Provider) (m : t) : t :=
  mk (sourcifyChain m) p (running m) (getBytecodeRetryPause m)
     (getBlockPause m) (initialGetBytecodeTries m) (timers m) (inflight m)
     (trace m) (nextTask m).

Definition set_running (b : bool) (m : t) : t :=
  mk (sourcifyChain m) (provider m) b (getBytecodeRetryPause m)
     (getBlockPause m) (initialGetBytecodeTries m) (timers m) (inflight m)
     (trace m) (nextTask m).

Definition set_getBlockPause (q : Q) (m : t) : t :=
  mk (sourcifyChain m) (provider m) (running m) (getBytecodeRetryPause m)
     q (initialGetBytecodeTries m) (timers m) (inflight m)
     (trace m) (nextTask m).

Definition set_timers (ts : list Timer) (m : t) : t :=
  mk (sourcifyChain m) (provider m) (running m) (getBytecodeRetryPause m)
     (getBlockPause m) (initialGetBytecodeTries m) ts (inflight m)
     (trace m) (nextTask m).

Definition set_inflight (ps : list Pending) (m : t) : t :=
  mk (sourcifyChain m) (provider m) (running m) (getBytecodeRetryPause m)
     (getBlockPause m) (initialGetBytecodeTries m) (timers m) ps
     (trace m) (nextTask m).

Definition set_trace (tr : list Effect) (m : t) : t :=
  mk (sourcifyChain m) (provider m) (running m) (getBytecodeRetryPause m)
     (getBlockPause m) (initialGetBytecodeTries m) (timers m) (inflight m)
     tr (nextTask m).

Definition set_nextTask (n : nat) (m : t) : t :=
  mk (sourcifyChain m) (provider m) (running m) (getBytecodeRetryPause m)
     (getBlockPause m) (initialGetBytecodeTries m) (timers m) (inflight m)
     (trace m) n.

(** One more effect. *)
Definition effect (e : Effect) (m : t) : t := set_trace (trace m ++ [e]) m.

(** One more promise in flight. *)
Definition await (p : Pending) (m : t) : t :=
  set_inflight (inflight m ++ [p]) m.

(** [this.sourcifyChain.chainId.toString()] *)
Definition chainIdString (m : t) : string :=
  Js.toString (chainId (sourcifyChain m)).

(** A call either returns or throws; the state it leaves is kept. *)
Inductive Completion : Type :=
| Normal (m : t)
| Throw (m : t) (err : Js.Error).

(** What follows a call that returns; a throw is passed on. *)
Definition bind (c : Completion) (f : t -> Completion) : Completion :=
  match c with
  | Normal m => f m
  | Throw m err => Throw m err
  end.

Notation "'let*' m1 := c 'in' k" := (bind c (fun m1 => k))
  (at level 10, m1 name, c at level 100, k at level 200).

(** [SourcifyEventManager.trigger] and [this.emit], where a listener may
    throw: the event has gone out all the same. *)
Definition trigger (throws : Throws) (e : Event) (m : t) : Completion :=
  let m1 := effect (Trigger e) m in
  match throws (trigger_call e) with
  | Some err => Throw m1 err
  | None => Normal m1
  end.

Definition emit (throws : Throws) (signal : string) (id : Z)
    (address : string) (m : t) : Completion :=
  let m1 := effect (Emit signal id address) m in
  match throws (emit_call signal id address) with
  | Some err => Throw m1 err
  | None => Normal m1
  end.

Inductive Operation : Type := increase | decrease.

Section WithWorld.
Context (W : World).

(** The constructor. *)
Definition new (chain : SourcifyChain) : t :=
  {| sourcifyChain := chain;
     provider := None;
     running := false;
     getBytecodeRetryPause :=
       inject_Z (env_int W "GET_BYTECODE_RETRY_PAUSE" (5 * 1000));
     getBlockPause := inject_Z (env_int W "GET_BLOCK_PAUSE" (10 * 1000));
     initialGetBytecodeTries := env_int W "INITIAL_GET_BYTECODE_TRIES" 3;
     timers := [];
     inflight := [];
     trace := [];
     nextTask := O |}.

(** [setTimeout] is reached only while the monitor is running. *)
Definition mySetTimeout (h : Handler) (delay : Q) (m : t) : t :=
  if running m then set_timers (timers m ++ [mkTimer h delay]) m else m.

Definition adaptBlockPause (operation : Operation) (m : t) : t :=
  let factor :=
    match operation with
    | increase => BLOCK_PAUSE_FACTOR W
    | decrease => fround W (1 / BLOCK_PAUSE_FACTOR W)%Q
    end in
  let p1 := fround W (getBlockPause m * factor)%Q in
  let p2 := Qmin p1 (BLOCK_PAUSE_UPPER_LIMIT W) in
  let p3 := Qmax p2 (BLOCK_PAUSE_LOWER_LIMIT W) in
  set_getBlockPause p3 m.

(** [retriesLeft-- <= 0] compares the value before the decrement; what the
    continuations capture is the value after it. *)
Definition processBytecode (task : nat) (creatorTxHash address : string)
    (retriesLeft : Z) (m : t) : Completion :=
  if retriesLeft <=? 0 then Normal m
  else
    let retriesLeft := retriesLeft - 1 in
    match provider m with
    | None =>
        Throw m
          (Js.new_Error "Can't process bytecode. Provider not initialized")
    | Some _ =>
        Normal (await (await_getCode task creatorTxHash address retriesLeft)
                  (effect (GetCode task address) m))
    end.

(** The part of [processBlock] that runs at once: the request. *)
Definition processBlock (blockNumber : Js.number) (m : t) : Completion :=
  match provider m with
  | None =>
      Throw m (Js.new_Error ("Can't process block "
                             +:+ Js.number_toString blockNumber
                             +:+ ". Provider not initialized"))
  | Some _ =>
      Normal (await (await_getBlock blockNumber)
                (effect (GetBlock blockNumber) m))
  end.

(** [!!foundArr.length] *)
Definition isVerified (repo : Repository) (address : string) (m : t) : bool :=
  negb (Nat.eqb (length (repo address (chainIdString m))) 0).

(** The body of the loop over [block.prefetchedTransactions]. *)
Definition processTransaction (repo : Repository) (throws : Throws)
    (tx : TransactionResponse) (m : t) : Completion :=
  if createsContract tx then
    match throws (getCreateAddress_call tx) with
    | Some err => Throw m err
    | None =>
        let address := getCreateAddress W tx in
        match throws (checkByChainAndAddress_call address (chainIdString m))
        with
        | Some err => Throw m err
        | None =>
            if isVerified repo address m then
              let* m1 :=
                trigger throws
                  (Monitor_AlreadyVerified address (chainIdString m)) m in
              emit throws "contract-already-verified"
                (chainId (sourcifyChain m1)) address m1
            else
              let* m1 :=
                trigger throws
                  (Monitor_NewContract address (chainIdString m)) m in
              processBytecode (nextTask m1) (hash tx) address
                (initialGetBytecodeTries m1) (set_nextTask (S (nextTask m1)) m1)
        end
    end
  else Normal m.

(** The loop itself; a throw leaves it. *)
Fixpoint processTransactions (repo : Repository) (throws : Throws)
    (txs : list TransactionResponse) (m : t) : Completion :=
  match txs with
  | [] => Normal m
  | tx :: rest =>
      let* m1 := processTransaction repo throws tx m in
      processTransactions repo throws rest m1
  end.

(** [.then] of [processBlock]: the state it leaves, the value of the captured
    [blockNumber], and what it threw if it did. A throw skips the
    increment. *)
Definition processBlock_then (repo : Repository) (throws : Throws)
    (blockNumber : Js.number) (block : option Block) (m : t)
    : Completion * Js.number :=
  match block with
  | None => (Normal (adaptBlockPause increase m), blockNumber)
  | Some b =>
      let m1 := adaptBlockPause decrease m in
      let c :=
        let* m2 :=
          trigger throws
            (Monitor_ProcessingBlock blockNumber (chainIdString m1)
               (getBlockPause m1)) m1 in
        processTransactions repo throws (prefetchedTransactions b) m2 in
      match c with
      | Normal m3 => (Normal m3, Js.incr blockNumber)
      | Throw m3 err => (Throw m3 err, blockNumber)
      end
  end.

(** [.catch] of [processBlock]. *)
Definition processBlock_catch (blockNumber : Js.number) (err : Js.Error)
    (m : t) : t :=
  effect (Trigger (Monitor_Error_ProcessingBlock (Js.message err)
                     (Js.stack err) (chainIdString m) blockNumber)) m.

(** [.finally] of [processBlock]. *)
Definition processBlock_finally (blockNumber : Js.number) (m : t) : t :=
  mySetTimeout (processBlock_handler blockNumber) (getBlockPause m) m.

(** The whole chain [.then().catch().finally()], run when the promise of
    [getBlock] settles. The three handlers are reactions of their own and
    are run here as one turn. Reactions of other promises that settle in
    the same tick may run between them; of what those do, two things reach
    these handlers: the order in which timers are registered, and, when two
    requests for a block are out (after a second [start]), the pause that
    [.finally] reads, which is then the one the [.then] of the other
    request has left. *)
Definition processBlock_settled (repo : Repository) (throws : Throws)
    (blockNumber : Js.number) (r : Js.Settled (option Block)) (m : t) : t :=
  let m0 := effect (GetBlockSettled blockNumber r) m in
  match r with
  | Js.Fulfilled block =>
      match processBlock_then repo throws blockNumber block m0 with
      | (Normal m1, blockNumber1) => processBlock_finally blockNumber1 m1
      | (Throw m1 err, blockNumber1) =>
          processBlock_finally blockNumber1
            (processBlock_catch blockNumber1 err m1)
      end
  | Js.Rejected err =>
      processBlock_finally blockNumber (processBlock_catch blockNumber err m0)
  end.

(** [.then().catch()] of [processBytecode], run when the promise of [getCode]
    settles. Nothing in [.then] throws past its own [try]. *)
Definition processBytecode_settled (task : nat) (creatorTxHash address : string)
    (retriesLeft : Z) (r : Js.Settled string) (m : t) : t :=
  match r with
  | Js.Fulfilled bytecode =>
      if decide (bytecode = "0x") then
        mySetTimeout
          (processBytecode_handler task creatorTxHash address retriesLeft)
          (getBytecodeRetryPause m) m
      else
        match decodeSourceAddress W bytecode with
        | inr metadataAddress =>
            await (await_assemble metadataAddress address creatorTxHash)
              (effect (Assemble metadataAddress) m)
        | inl err =>
            effect (Trigger (Monitor_Error_ProcessingBytecode (Js.message err)
                               (Js.stack err) (chainIdString m) address)) m
        end
  | Js.Rejected err =>
      let m1 :=
        effect (Trigger (Monitor_Error_GettingBytecode (Js.message err)
                           (Js.stack err) (chainIdString m) address)) m in
      mySetTimeout
        (processBytecode_handler task creatorTxHash address retriesLeft)
        (getBytecodeRetryPause m1) m1
  end.

(** [verifyAndStore] up to its first [await]. A synchronous throw of
    [verifyDeployed] rejects the awaited promise all the same. *)
Definition verifyAndStore (contract : CheckedContract)
    (address creatorTxHash : string) (m : t) : t :=
  await (await_verifyDeployed contract address creatorTxHash)
    (effect (VerifyDeployed contract (chainIdString m) address creatorTxHash)
       m).

(** The [catch] of [verifyAndStore]. *)
Definition verifyAndStore_catch (address : string) (err : Js.Error) (m : t)
    : t :=
  effect (Trigger (Monitor_Error_VerifyError (Js.message err) (Js.stack err)
                     (chainIdString m) address)) m.

(** After [await verifyDeployed(...)]. *)
Definition verifyDeployed_settled (contract : CheckedContract)
    (address : string) (r : Js.Settled Match) (m : t) : t :=
  match r with
  | Js.Fulfilled match_ =>
      await (await_storeMatch contract address)
        (effect (StoreMatch contract match_) m)
  | Js.Rejected err => verifyAndStore_catch address err m
  end.

(** After [await storeMatch(...)]: the [emit] is inside the [try]. *)
Definition storeMatch_settled (throws : Throws) (address : string)
    (r : Js.Settled unit) (m : t) : t :=
  match r with
  | Js.Fulfilled _ =>
      match emit throws "contract-verified-successfully"
              (chainId (sourcifyChain m)) address m with
      | Normal m1 => m1
      | Throw m1 err => verifyAndStore_catch address err m1
      end
  | Js.Rejected err => verifyAndStore_catch address err m
  end.

(** The provider [start] constructs for an endpoint. *)
Definition newProvider (chain : SourcifyChain) (providerURL : string)
    : Provider :=
  if String.prefix "http" providerURL
  then JsonRpcProvider providerURL (name chain) (chainId chain)
  else WebSocketProvider providerURL (name chain) (chainId chain).

(** What follows the loop of [start]. *)
Definition start_end (found : bool) (m : t) : t :=
  if found then m
  else
    effect (Trigger (Monitor_Error_CantStart (chainIdString m)
                       "Couldn't find a working RPC node.")) m.

(** The loop of [start] over the endpoints still to try, up to the next
    [await]. *)
Definition start_loop (rawStartBlock : option string) (found : bool)
    (urls : list string) (m : t) : t :=
  match urls with
  | [] => start_end found m
  | providerURL :: rest =>
      let provider := newProvider (sourcifyChain m) providerURL in
      await (await_getBlockNumber provider providerURL rest rawStartBlock found)
        (effect (GetBlockNumber provider) m)
  end.

Definition start (m : t) : t :=
  let m1 := set_running true m in
  let rawStartBlock :=
    env W !! ("MONITOR_START_" +:+ Js.toString (chainId (sourcifyChain m1))) in
  start_loop rawStartBlock false (rpc (sourcifyChain m1)) m1.

(** After [await provider.getBlockNumber()], inside the [try]. *)
Definition getBlockNumber_settled (provider : Provider) (providerURL : string)
    (rest : list string) (rawStartBlock : option string) (found : bool)
    (r : Js.Settled Z) (m : t) : t :=
  match r with
  | Js.Fulfilled lastBlockNumber =>
      let m1 := set_provider (Some provider) m in
      let startBlock :=
        match rawStartBlock with
        | Some raw => Js.parseInt raw
        | None => Js.Int lastBlockNumber
        end in
      let m2 :=
        effect (Trigger (Monitor_Started (chainIdString m1) providerURL
                           lastBlockNumber startBlock)) m1 in
      match processBlock startBlock m2 with
      | Normal m3 => start_end true m3
      | Throw m3 err =>
          start_loop rawStartBlock true rest
            (effect (LoggerInfo providerURL err) m3)
      end
  | Js.Rejected err =>
      start_loop rawStartBlock found rest (effect (LoggerInfo providerURL err) m)
  end.

Definition stop (m : t) : t :=
  set_running false (effect (Trigger (Monitor_Stopped (chainIdString m))) m).

End WithWorld.

(** *** The transitions *)

(** What the outside hands to a continuation. *)
Inductive Response : Type :=
| blockNumber_response (r : Js.Settled Z)
| block_response (r : Js.Settled (option Block)) (repo : Repository)
    (throws : Throws)
| code_response (r : Js.Settled string)
| assemble_callback (contract : CheckedContract)
| verifyDeployed_response (r : Js.Settled Match)
| storeMatch_response (r : Js.Settled unit) (throws : Throws).

(** What can happen to a monitor: a call of its two public methods, the
    expiry of its [i]-th timer, the settling of its [i]-th promise. *)
Inductive Label : Type :=
| call_start
| call_stop
| fire (i : nat)
| settle (i : nat) (r : Response).

Section Transitions.
Context (W : World).

(** A timer handler runs on an empty stack: what it throws nobody catches. *)
Definition run_handler (h : Handler) (m : t) : t :=
  let c :=
    match h with
    | processBlock_handler blockNumber => processBlock blockNumber m
    | processBytecode_handler task creatorTxHash address retriesLeft =>
        processBytecode task creatorTxHash address retriesLeft m
    end in
  match c with
  | Normal m1 => m1
  | Throw m1 err => effect (Uncaught err) m1
  end.

(** The continuation of a promise, when the response is of its kind. *)
Definition resume (p : Pending) (r : Response) (m : t) : option t :=
  match p, r with
  | await_getBlockNumber provider providerURL rest rawStartBlock found,
    blockNumber_response r =>
      Some (getBlockNumber_settled provider providerURL rest rawStartBlock
              found r m)
  | await_getBlock blockNumber, block_response r repo throws =>
      Some (processBlock_settled W repo throws blockNumber r m)
  | await_getCode task creatorTxHash address retriesLeft, code_response r =>
      Some (processBytecode_settled W task creatorTxHash address retriesLeft r m)
  | await_assemble _ address creatorTxHash, assemble_callback contract =>
      Some (verifyAndStore contract address creatorTxHash m)
  | await_verifyDeployed contract address _, verifyDeployed_response r =>
      Some (verifyDeployed_settled contract address r m)
  | await_storeMatch _ address, storeMatch_response r throws =>
      Some (storeMatch_settled throws address r m)
  | _, _ => None
  end.

(** One turn of the event loop; a label that names nothing pending, or a
    response of the wrong kind, changes nothing. *)
Definition step (l : Label) (m : t) : t :=
  match l with
  | call_start => start W m
  | call_stop => stop m
  | fire i =>
      match timers m !! i with
      | Some tm => run_handler (handler tm) (set_timers (delete i (timers m)) m)
      | None => m
      end
  | settle i r =>
      match inflight m !! i with
      | Some p =>
          match resume p r (set_inflight (delete i (inflight m)) m) with
          | Some m1 => m1
          | None => m
          end
      | None => m
      end
  end.

(** A run: the labels in order. *)
Definition run (ls : list Label) (m : t) : t :=
  fold_left (fun m l => step l m) ls m.

End Transitions.

End ChainMonitor.

(** ** Monitor, the supervisor *)

Module Monitor.

(** The chain monitors, and how often [sourceFetcher.stop()] was called. The
    supervisor re-emits the two signals of its monitors unchanged, so what
    it emits is read off their traces. *)
Record t : Type := mk {
  chainMonitors : list ChainMonitor.t;
  sourceFetcher_stops : nat }.

Section WithWorld.
Context (W : World).

(** [chainsToMonitor?.length ? chainsToMonitor : monitoredChainArray] *)
Definition new (chainsToMonitor : option (list SourcifyChain)) : t :=
  let chains :=
    match chainsToMonitor with
    | Some (c :: cs) => c :: cs
    | _ => monitoredChainArray W
    end in
  mk (map (ChainMonitor.new W) chains) O.

(** Every [cm.start()] runs up to its first [await] before the next. *)
Definition start (M : t) : t :=
  mk (map (ChainMonitor.start W) (chainMonitors M)) (sourceFetcher_stops M).

Definition stop (M : t) : t :=
  mk (map ChainMonitor.stop (chainMonitors M)) (S (sourceFetcher_stops M)).

End WithWorld.

Definition is_Emit (e : Effect) : bool :=
  match e with
  | Emit _ _ _ => true
  | _ => false
  end.

(** The signals re-emitted upward. *)
Definition emitted (M : t) : list Effect :=
  flat_map (fun cm => List.filter is_Emit (ChainMonitor.trace cm))
    (chainMonitors M).

End Monitor.


(** * Vocabulary of the properties *)

Import ChainMonitor.

(** Several effects at once. *)
Definition effects (es : list Effect) (m : t) : t :=
  set_trace (trace m ++ es) m.

(** The interval the pause is meant to stay in. *)
Definition within_limits (W : World) (q : Q) : Prop :=
  (BLOCK_PAUSE_LOWER_LIMIT W <= q /\ q <= BLOCK_PAUSE_UPPER_LIMIT W)%Q.

(** The probe of [start] is the only promise in flight while it lasts: its
    rejection and its fulfilment. *)
Definition probe_rejected (err : Js.Error) : Label :=
  settle 0 (blockNumber_response (Js.Rejected err)).

Definition probe_fulfilled (lastBlockNumber : Z) : Label :=
  settle 0 (blockNumber_response (Js.Fulfilled lastBlockNumber)).

(** What [start] does for endpoints that fail: a probe and a log line each,
    in order. *)
Definition failed_probes (chain : SourcifyChain)
    (failed : list (string * Js.Error)) : list Effect :=
  flat_map
    (fun f => [GetBlockNumber (newProvider chain (fst f));
               LoggerInfo (fst f) (snd f)])
    failed.

(** [process.env[`MONITOR_START_${chainId}`]] *)
Definition MONITOR_START (W : World) (chain : SourcifyChain) : option string :=
  env W !! ("MONITOR_START_" +:+ Js.toString (chainId chain)).

Definition cant_start (chain : SourcifyChain) : Effect :=
  Trigger (Monitor_Error_CantStart (Js.toString (chainId chain))
             "Couldn't find a working RPC node.").

(** A string that does not begin, after white space and a sign, with a
    decimal digit: not a number for [parseInt]. *)
Definition non_numeric (s : string) : Prop :=
  match snd (Js.split_sign (Js.trim_start s)) with
  | String c _ => Js.is_decimal_digit c = false
  | EmptyString => True
  end.

(** A transaction with no destination: [to] is [null], or empty. *)
Definition no_destination (tx : TransactionResponse) : bool :=
  match to tx with
  | None | Some EmptyString => true
  | Some (String _ _) => false
  end.

(** What the specification asks of the loop over the transactions of a
    block, for a monitor whose provider is set and when every call
    returns: what it adds to the effects, to the promises in flight and to
    the task counter. A creation is announced as already verified when the
    repository returns a list that is not empty, and as new, with a first
    call of [getCode], when it returns the empty list. [next] is the number
    the next task will get. *)
Section Creations.
Context (W : World) (repo : Repository) (m : t).

Fixpoint creation_effects (next : nat) (txs : list TransactionResponse)
    : list Effect :=
  match txs with
  | [] => []
  | tx :: rest =>
      if no_destination tx then
        let address := getCreateAddress W tx in
        let id := Js.toString (chainId (sourcifyChain m)) in
        match repo address id with
        | _ :: _ =>
            Trigger (Monitor_AlreadyVerified address id)
            :: Emit "contract-already-verified" (chainId (sourcifyChain m))
                 address
            :: creation_effects next rest
        | [] =>
            Trigger (Monitor_NewContract address id)
            :: (if 0 <? initialGetBytecodeTries m
                then [GetCode next address] else [])
            ++ creation_effects (S next) rest
        end
      else creation_effects next rest
  end.

Fixpoint creation_promises (next : nat) (txs : list TransactionResponse)
    : list Pending :=
  match txs with
  | [] => []
  | tx :: rest =>
      if no_destination tx then
        let address := getCreateAddress W tx in
        match repo address (Js.toString (chainId (sourcifyChain m))) with
        | _ :: _ => creation_promises next rest
        | [] =>
            (if 0 <? initialGetBytecodeTries m
             then [await_getCode next (hash tx) address
                     (initialGetBytecodeTries m - 1)]
             else [])
            ++ creation_promises (S next) rest
        end
      else creation_promises next rest
  end.

Fixpoint creation_tasks (next : nat) (txs : list TransactionResponse) : nat :=
  match txs with
  | [] => next
  | tx :: rest =>
      if no_destination tx then
        match repo (getCreateAddress W tx)
                (Js.toString (chainId (sourcifyChain m))) with
        | _ :: _ => creation_tasks next rest
        | [] => creation_tasks (S next) rest
        end
      else creation_tasks next rest
  end.

End Creations.

(** *** Counting the calls of one bytecode task *)

(** Calls of [getCode] made for the task. *)
Definition getCode_call (task : nat) (e : Effect) : nat :=
  match e with
  | GetCode t _ => if decide (t = task) then 1%nat else 0%nat
  | _ => 0%nat
  end.

Definition getCode_calls (task : nat) (tr : list Effect) : nat :=
  sum_list_with (getCode_call task) tr.

(** Calls the task may still make: the retries a pending timer or promise of
    it carries. *)
Definition timer_budget (task : nat) (tm : Timer) : nat :=
  match handler tm with
  | processBytecode_handler t _ _ retriesLeft =>
      if decide (t = task) then Z.to_nat retriesLeft else 0%nat
  | processBlock_handler _ => 0%nat
  end.

Definition promise_budget (task : nat) (p : Pending) : nat :=
  match p with
  | await_getCode t _ _ retriesLeft =>
      if decide (t = task) then Z.to_nat retriesLeft else 0%nat
  | _ => 0%nat
  end.

(** Calls made plus calls still possible. *)
Definition spent (task : nat) (m : t) : nat :=
  (getCode_calls task (trace m)
   + sum_list_with (timer_budget task) (timers m)
   + sum_list_with (promise_budget task) (inflight m))%nat.

(** No task ever exceeds the initial number of tries, and a task not yet
    started has used nothing. *)
Definition within_budget (m : t) : Prop :=
  forall task : nat,
    (spent task m <= Z.to_nat (initialGetBytecodeTries m))%nat
    /\ ((nextTask m <= task)%nat -> spent task m = 0%nat).

(** The state a call leaves, however it completes. *)
Definition state_of (c : Completion) : t :=
  match c with
  | Normal m => m
  | Throw m _ => m
  end.

(** The kinds of effect the loop over the transactions has. *)
Definition creation_effect (e : Effect) : Prop :=
  match e with
  | Trigger (Monitor_AlreadyVerified _ _) | Trigger (Monitor_NewContract _ _)
  | Emit _ _ _ | GetCode _ _ => True
  | _ => False
  end.

(** A state and what was thrown on the way to it, if anything was. *)
Definition completion (thrown : option Js.Error) (m : t) : Completion :=
  match thrown with
  | None => Normal m
  | Some err => Throw m err
  end.

(** The event [.catch] of [processBlock] triggers for what was thrown. *)
Definition processing_error (thrown : option Js.Error) (id : string)
    (blockNumber : Js.number) : list Effect :=
  match thrown with
  | None => []
  | Some err =>
      [Trigger (Monitor_Error_ProcessingBlock (Js.message err) (Js.stack err)
                  id blockNumber)]
  end.

(** *** Retrying a bytecode task *)

(** What the specification asks when [getCode] has answered that there is no
    code yet, or has failed: going from [m] to [m'] the task has been
    scheduled again, after the retry pause and with the retries it has
    left. *)
Definition rescheduled (m m' : t) (task : nat)
    (creatorTxHash address : string) (retriesLeft : Z) : Prop :=
  timers m'
  = timers m
    ++ [mkTimer (processBytecode_handler task creatorTxHash address retriesLeft)
          (getBytecodeRetryPause m)].

(** *** Calls to the provider *)




(** *** The protocol of the block loop *)

#[global] Instance number_eq_dec : EqDecision Js.number.
Proof. solve_decision. Defined.

(** The block to ask for once the request for [blockNumber] has settled with
    [r]: the next one after a block, the same one after [null] or a
    rejection. *)
Definition next_block (blockNumber : Js.number)
    (r : Js.Settled (option Block)) : Js.number :=
  match r with
  | Js.Fulfilled (Some _) => Js.incr blockNumber
  | _ => blockNumber
  end.

(** Where the loop stands: nothing requested yet, a request out, or a
    request settled and the block to ask for next known. *)
Inductive LoopPhase : Type :=
| loop_idle
| loop_requested (blockNumber : Js.number)
| loop_resolved (next : Js.number).

(** The order of the block loop, as an automaton over the effects: a block
    is requested only when no request is out, and after a request has
    settled only the block that follows from its answer, or the same block
    again when [Monitor.Error.ProcessingBlock] has been triggered for it
    since. [None] is a violation. *)
Definition loop_step (ph : option LoopPhase) (e : Effect)
    : option LoopPhase :=
  match ph with
  | None => None
  | Some ph =>
      match e with
      | GetBlock n =>
          match ph with
          | loop_idle => Some (loop_requested n)
          | loop_requested _ => None
          | loop_resolved next =>
              if decide (n = next) then Some (loop_requested n) else None
          end
      | GetBlockSettled n r =>
          match ph with
          | loop_requested n' =>
              if decide (n = n') then Some (loop_resolved (next_block n r))
              else None
          | _ => None
          end
      | Trigger (Monitor_Error_ProcessingBlock _ _ _ n) =>
          match ph with
          | loop_resolved _ => Some (loop_resolved n)
          | _ => Some ph
          end
      | _ => Some ph
      end
  end.

(** The effects the automaton reads. *)
Definition loop_effect (e : Effect) : bool :=
  match e with
  | GetBlock _ | GetBlockSettled _ _
  | Trigger (Monitor_Error_ProcessingBlock _ _ _ _) => true
  | _ => false
  end.

Definition loop_phase (tr : list Effect) : option LoopPhase :=
  fold_left loop_step tr (Some loop_idle).


(** The requests for blocks in flight, the invocations of [processBlock]
    scheduled, the probes of [start] in flight. *)
Definition block_promise (p : Pending) : option Js.number :=
  match p with
  | await_getBlock n => Some n
  | _ => None
  end.

Definition block_timer (tm : Timer) : option Js.number :=
  match handler tm with
  | processBlock_handler n => Some n
  | processBytecode_handler _ _ _ _ => None
  end.

Definition probe_promise (p : Pending) : option unit :=
  match p with
  | await_getBlockNumber _ _ _ _ _ => Some tt
  | _ => None
  end.

Definition block_promises (m : t) : list Js.number :=
  omap block_promise (inflight m).

Definition block_timers (m : t) : list Js.number :=
  omap block_timer (timers m).

Definition probes (m : t) : list unit := omap probe_promise (inflight m).

(** What holds of a monitor started once, between the turns of the event
    loop. *)
Definition loop_invariant (m : t) : Prop :=
  match loop_phase (trace m) with
  | None => False
  | Some loop_idle =>
      block_promises m = [] /\ block_timers m = []
      /\ (length (probes m) <= 1)%nat
  | Some (loop_requested n) =>
      provider m <> None /\ block_promises m = [n] /\ block_timers m = []
      /\ probes m = []
  | Some (loop_resolved next) =>
      provider m <> None /\ block_promises m = [] /\ probes m = []
      /\ (block_timers m = [] \/ block_timers m = [next])
  end.

(** * Vocabulary of the further properties *)

(** *** The verification of one address *)

(** Calls of [verifyDeployed] for the address, the two ways they end, and
    those still under way. *)
Definition verify_call (address : string) (e : Effect) : nat :=
  match e with
  | VerifyDeployed _ _ a _ => if decide (a = address) then 1%nat else 0%nat
  | _ => 0%nat
  end.

Definition verified_signal (address : string) (e : Effect) : nat :=
  match e with
  | Emit signal _ a =>
      if decide (signal = "contract-verified-successfully")
      then if decide (a = address) then 1%nat else 0%nat
      else 0%nat
  | _ => 0%nat
  end.

Definition verify_error (address : string) (e : Effect) : nat :=
  match e with
  | Trigger (Monitor_Error_VerifyError _ _ _ a) =>
      if decide (a = address) then 1%nat else 0%nat
  | _ => 0%nat
  end.

Definition verifying (address : string) (p : Pending) : nat :=
  match p with
  | await_verifyDeployed _ a _ | await_storeMatch _ a =>
      if decide (a = address) then 1%nat else 0%nat
  | _ => 0%nat
  end.

(** Every call of [verifyDeployed] for the address that is no longer under
    way has ended in the signal of success or in
    [Monitor.Error.VerifyError], and no call in more than one signal or more
    than one error. *)
Definition verifications_accounted (address : string) (m : t) : Prop :=
  let calls := sum_list_with (verify_call address) (trace m) in
  let signals := sum_list_with (verified_signal address) (trace m) in
  let errors := sum_list_with (verify_error address) (trace m) in
  let pending := sum_list_with (verifying address) (inflight m) in
  (signals + pending <= calls)%nat
  /\ (errors + pending <= calls)%nat
  /\ (calls <= signals + errors + pending)%nat.



(** *** The stages a contract goes through *)

Definition is_GetCode (e : Effect) : nat :=
  match e with GetCode _ _ => 1%nat | _ => 0%nat end.
Definition is_Assemble (e : Effect) : nat :=
  match e with Assemble _ => 1%nat | _ => 0%nat end.
Definition is_VerifyDeployed (e : Effect) : nat :=
  match e with VerifyDeployed _ _ _ _ => 1%nat | _ => 0%nat end.
Definition is_StoreMatch (e : Effect) : nat :=
  match e with StoreMatch _ _ => 1%nat | _ => 0%nat end.
Definition is_verified_signal (e : Effect) : nat :=
  match e with
  | Emit signal _ _ =>
      if decide (signal = "contract-verified-successfully")
      then 1%nat else 0%nat
  | _ => 0%nat
  end.

Definition awaits_getCode (p : Pending) : nat :=
  match p with await_getCode _ _ _ _ => 1%nat | _ => 0%nat end.
Definition awaits_assemble (p : Pending) : nat :=
  match p with await_assemble _ _ _ => 1%nat | _ => 0%nat end.
Definition awaits_verifyDeployed (p : Pending) : nat :=
  match p with await_verifyDeployed _ _ _ => 1%nat | _ => 0%nat end.
Definition awaits_storeMatch (p : Pending) : nat :=
  match p with await_storeMatch _ _ => 1%nat | _ => 0%nat end.

(** Each stage has been entered, counting what is still in it, no more often
    than the stage before it has been: signals of success after calls of
    [storeMatch], those after calls of [verifyDeployed], those after calls of
    [assemble], those after calls of [getCode]. *)
Definition stages_in_order (m : t) : Prop :=
  (sum_list_with is_verified_signal (trace m)
   + sum_list_with awaits_storeMatch (inflight m)
   <= sum_list_with is_StoreMatch (trace m))%nat
  /\ (sum_list_with is_StoreMatch (trace m)
      + sum_list_with awaits_verifyDeployed (inflight m)
      <= sum_list_with is_VerifyDeployed (trace m))%nat
  /\ (sum_list_with is_VerifyDeployed (trace m)
      + sum_list_with awaits_assemble (inflight m)
      <= sum_list_with is_Assemble (trace m))%nat
  /\ (sum_list_with is_Assemble (trace m)
      + sum_list_with awaits_getCode (inflight m)
      <= sum_list_with is_GetCode (trace m))%nat.

(** Both accounts at once. *)
Definition accounts (m : t) : Prop :=
  (forall address, verifications_accounted address m) /\ stages_in_order m.

(** *** The provider *)

Definition thrown (e : Effect) : nat :=
  match e with Uncaught _ => 1%nat | _ => 0%nat end.

(** Nothing has been thrown out of a timer handler, and as long as no
    provider is set there is no timer, and nothing in flight but probes of
    [start]. *)
Definition guarded (m : t) : Prop :=
  sum_list_with thrown (trace m) = 0%nat
  /\ (provider m = None ->
      timers m = []
      /\ Forall (fun p => probe_promise p = Some tt) (inflight m)).

(** *** Delays *)

(** A turn in which the provider answers a request for a block, with a block
    or with [null]. *)
Definition answers_block (l : Label) (m : t) : bool :=
  match l with
  | settle i (block_response (Js.Fulfilled _) _ _) =>
      match inflight m !! i with
      | Some (await_getBlock _) => true
      | _ => false
      end
  | _ => false
  end.

(** A pause between blocks is the one the constructor read, or lies within
    the limits. *)
Definition paced (W : World) (chain : SourcifyChain) (q : Q) : Prop :=
  q = getBlockPause (new W chain) \/ within_limits W q.

(** The delay of a timer, by its handler. *)
Definition timer_paced (W : World) (chain : SourcifyChain) (tm : Timer)
    : Prop :=
  match handler tm with
  | processBlock_handler _ => paced W chain (timeout tm)
  | processBytecode_handler _ _ _ _ =>
      timeout tm = getBytecodeRetryPause (new W chain)
  end.

Definition delays_paced (W : World) (chain : SourcifyChain) (m : t) : Prop :=
  getBytecodeRetryPause m = getBytecodeRetryPause (new W chain)
  /\ paced W chain (getBlockPause m)
  /\ Forall (timer_paced W chain) (timers m).

(** *** A loop that goes on *)

(** Whether a probe of [start] in flight has seen an endpoint answer. *)
Definition probe_found (p : Pending) : option bool :=
  match p with
  | await_getBlockNumber _ _ _ _ found => Some found
  | _ => None
  end.

(** What keeps the block loop going, by the phase it is in: a probe of
    [start] (unless [start] has given up), a request, a timer. *)
Definition alive_phase (chain : SourcifyChain) (m : t) : Prop :=
  match loop_phase (trace m) with
  | Some loop_idle =>
      omap probe_found (inflight m) = [false]
      \/ In (cant_start chain) (trace m)
  | Some (loop_resolved next) => block_timers m = [next]
  | _ => True
  end.

Definition loop_alive (chain : SourcifyChain) (m : t) : Prop :=
  sourcifyChain m = chain /\ running m = true /\ loop_invariant m
  /\ alive_phase chain m.

(** The probes, requests for a block and timers of [processBlock] pending. *)
Definition live_loops (m : t) : nat :=
  (length (probes m) + length (block_promises m)
   + length (block_timers m))%nat.

(** *** Start-up *)

(** The environment with [MONITOR_START_<chainId>] set for one chain. *)
Definition override (chain : SourcifyChain) (raw : string) (W : World)
    : World :=
  mkWorld
    (<[("MONITOR_START_" +:+ Js.toString (chainId chain))%string := raw]>
       (env W))
    (fround W) (getCreateAddress W) (decodeSourceAddress W)
    (monitoredChainArray W).

(** A chain monitor where [start] has left it at its first [await]. *)
Definition probing (W : World) (cm : t) : Prop :=
  let chain := sourcifyChain cm in
  running cm = true /\ provider cm = None /\ timers cm = []
  /\ match rpc chain with
     | [] => trace cm = [cant_start chain] /\ inflight cm = []
     | u :: rest =>
         trace cm = [GetBlockNumber (newProvider chain u)]
         /\ inflight cm
            = [await_getBlockNumber (newProvider chain u) u rest
                 (MONITOR_START W chain) false]
     end.

(** ** Concrete worlds and runs, to execute the model on *)

Module Sample.

(** Exact arithmetic, an address derived from sender and nonce by
    concatenation, and bytecode that decodes when it starts with [0x60]. *)
Definition world (e : gmap string string) : World :=
  mkWorld e Qred
    (fun tx => "0x" +:+ from tx +:+ "#" +:+ Js.toString (nonce tx))
    (fun bytecode =>
       if String.prefix "0x60" bytecode then inr ("ipfs://" +:+ bytecode)
       else inl (Js.mkError "invalid CBOR" "at bytecodeDecode"))
    [].

(** No variable set; a ceiling below the default floor; a start block that
    is not a number; a first pause near the default ceiling. *)
Definition defaults : World := world ∅.

Definition low_ceiling : World :=
  world {[ "BLOCK_PAUSE_UPPER_LIMIT" := "100" ]}.

Definition start_at_latest : World :=
  world {[ "MONITOR_START_1" := "latest" ]}.

Definition start_below_zero : World := world {[ "MONITOR_START_1" := "-5" ]}.

Definition near_ceiling : World := world {[ "GET_BLOCK_PAUSE" := "29000" ]}.

Definition chain : SourcifyChain :=
  mkChain 1 "Ethereum Mainnet" ["https://rpc.one"; "wss://rpc.two"].

Definition refused : Js.Error := Js.mkError "connection refused" "at fetch".

(** Both endpoints of the chain refuse, and [start] while they do. *)
Definition both_refused : list (string * Js.Error) :=
  [("https://rpc.one", refused); ("wss://rpc.two", refused)].

Definition start_refused : list Label :=
  [call_start; probe_rejected refused; probe_rejected refused].

(** A repository that knows nothing, and one that knows every address. *)
Definition empty_repo : Repository := fun _ _ => [].
Definition full_repo : Repository := fun _ _ => ["perfect"].

Definition creation : TransactionResponse := mkTx None "0xhash1" "AA" 0.
Definition transfer : TransactionResponse :=
  mkTx (Some "0xBB") "0xhash2" "AA" 1.
Definition block : Block := mkBlock [creation; transfer].


(** A listener that fails; it listens to [Monitor.ProcessingBlock], or to
    [Monitor.NewContract], or to the signal of success. *)
Definition listener_failure : Js.Error :=
  Js.mkError "listener failed" "at listener".

Definition block_listener_throws : Throws :=
  fun c =>
    match c with
    | trigger_call (Monitor_ProcessingBlock _ _ _) => Some listener_failure
    | _ => None
    end.


Definition signal_listener_throws : Throws :=
  fun c =>
    match c with
    | emit_call _ _ _ => Some listener_failure
    | _ => None
    end.

Definition not_mined : Label :=
  settle 0 (block_response (Js.Fulfilled None) empty_repo all_return).
Definition mined : Label :=
  settle 0 (block_response (Js.Fulfilled (Some block)) empty_repo all_return).
Definition no_code : Label := settle 0 (code_response (Js.Fulfilled "0x")).

(** The monitor of [chain]: started on the first endpoint at block 100;
    then told that block 100 is not mined yet; then stopped. *)
Definition started : list Label := [call_start; probe_fulfilled 100].

Definition requested : ChainMonitor.t :=
  run defaults started (ChainMonitor.new defaults chain).

Definition waiting : ChainMonitor.t := step defaults not_mined requested.

Definition stopped : ChainMonitor.t := step defaults call_stop waiting.

(** Started, and block 100 has arrived with a creation nobody has verified. *)
Definition retrieving : ChainMonitor.t := step defaults mined requested.

(** The same, and the monitor is stopped while [getCode] is in flight. *)
Definition abandoned : ChainMonitor.t := step defaults call_stop retrieving.

(** Block 100 has arrived, and the node keeps answering that there is no code: the timer
    of the bytecode task is the second one, after that of the next block. *)
Definition retries : list Label :=
  started ++ [mined; no_code; fire 1; no_code; fire 1; no_code; fire 1].


(** The same while a listener of the signal of success throws. *)
Definition verified_unheard : list Label :=
  started
  ++ [mined;
      settle 0 (code_response (Js.Fulfilled "0x6080"));
      settle 0 (assemble_callback "contract");
      settle 0 (verifyDeployed_response (Js.Fulfilled "perfect"));
      settle 0 (storeMatch_response (Js.Fulfilled tt) signal_listener_throws)].


End Sample.

(** * Properties *)

(** ** Pacing *)

Section Pacing.
Context (W : World).

(** The floor is applied last, so it always holds. *)
Lemma adaptBlockPause_floor (operation : Operation) (m : t) :
  (BLOCK_PAUSE_LOWER_LIMIT W <= getBlockPause (adaptBlockPause W operation m))%Q.
Proof.
  unfold adaptBlockPause; cbn [getBlockPause set_getBlockPause].
  apply Q.le_max_r.
Qed.

(** With the limits the wrong way round the floor wins over the ceiling. *)
Lemma adaptBlockPause_misordered (operation : Operation) (m : t) :
  (BLOCK_PAUSE_UPPER_LIMIT W <= BLOCK_PAUSE_LOWER_LIMIT W)%Q ->
  (getBlockPause (adaptBlockPause W operation m) == BLOCK_PAUSE_LOWER_LIMIT W)%Q.
Proof.
  intros Hul.
  unfold adaptBlockPause; cbn [getBlockPause set_getBlockPause].
  apply Q.max_r.
  apply Qle_trans with (BLOCK_PAUSE_UPPER_LIMIT W);
    [apply Q.le_min_r | exact Hul].
Qed.

(** C7, as amended: whenever the configured floor is not above the configured
    ceiling, the pause that [adaptBlockPause] leaves lies between them, for
    either operation, any previous pause, and however the product rounds. *)
Theorem adaptBlockPause_within_limits (operation : Operation) (m : t) :
  (BLOCK_PAUSE_LOWER_LIMIT W <= BLOCK_PAUSE_UPPER_LIMIT W)%Q ->
  within_limits W (getBlockPause (adaptBlockPause W operation m)).
Proof.
  intros Hlu. split.
  - apply adaptBlockPause_floor.
  - unfold adaptBlockPause; cbn [getBlockPause set_getBlockPause].
    apply Q.max_lub; [apply Q.le_min_r | exact Hlu].
Qed.

End Pacing.

(** The default limits are ordered, and the first null block keeps the pause
    of a fresh monitor between them. *)
Lemma adaptBlockPause_within_limits_witness :
  (BLOCK_PAUSE_LOWER_LIMIT Sample.defaults
   <= BLOCK_PAUSE_UPPER_LIMIT Sample.defaults)%Q
  /\ within_limits Sample.defaults
       (getBlockPause
          (adaptBlockPause Sample.defaults increase
             (new Sample.defaults Sample.chain))).
Proof.
  assert (H : (BLOCK_PAUSE_LOWER_LIMIT Sample.defaults
               <= BLOCK_PAUSE_UPPER_LIMIT Sample.defaults)%Q)
    by (vm_compute; discriminate).
  split; [exact H |].
  exact (adaptBlockPause_within_limits Sample.defaults increase
           (new Sample.defaults Sample.chain) H).
Defined.

(** C7, as stated, fails: with [BLOCK_PAUSE_UPPER_LIMIT=100] in the
    environment and the floor left at its default of 500, the first null block
    leaves the pause at 500, above the ceiling. *)
Lemma adaptBlockPause_above_ceiling :
  BLOCK_PAUSE_UPPER_LIMIT Sample.low_ceiling = 100%Q
  /\ BLOCK_PAUSE_LOWER_LIMIT Sample.low_ceiling = 500%Q
  /\ getBlockPause
       (adaptBlockPause Sample.low_ceiling increase
          (new Sample.low_ceiling Sample.chain))
     = 500%Q
  /\ ~ within_limits Sample.low_ceiling
         (getBlockPause
            (adaptBlockPause Sample.low_ceiling increase
               (new Sample.low_ceiling Sample.chain))).
Proof.
  split; [vm_compute; reflexivity |].
  split; [vm_compute; reflexivity |].
  split; [vm_compute; reflexivity |].
  intros [_ H]. vm_compute in H. apply H. reflexivity.
Qed.

(** ** Stopping *)

Section Stopping.

(** C9, as amended: a second [stop] leaves every field of the monitor as the
    first left it (the flag cleared, timers and promises untouched) and adds
    exactly one more [Monitor.Stopped] to the effects; a second [stop] of the
    supervisor does this to every chain monitor and stops the source fetcher
    once more. *)
Theorem stop_twice (m : t) (M : Monitor.t) :
  stop (stop m) = effect (Trigger (Monitor_Stopped (chainIdString m))) (stop m)
  /\ running (stop (stop m)) = running (stop m)
  /\ timers (stop (stop m)) = timers (stop m)
  /\ inflight (stop (stop m)) = inflight (stop m)
  /\ Monitor.chainMonitors (Monitor.stop (Monitor.stop M))
     = map (fun cm => effect (Trigger (Monitor_Stopped (chainIdString cm))) cm)
         (Monitor.chainMonitors (Monitor.stop M))
  /\ Monitor.sourceFetcher_stops (Monitor.stop (Monitor.stop M))
     = S (Monitor.sourceFetcher_stops (Monitor.stop M)).
Proof.
  split; [reflexivity |]. split; [reflexivity |]. split; [reflexivity |].
  split; [reflexivity |]. split; [| reflexivity].
  cbn [Monitor.stop Monitor.chainMonitors].
  rewrite !map_map. apply map_ext. intros cm. reflexivity.
Qed.

End Stopping.

(** C9, as stated, fails: the second [stop] triggers [Monitor.Stopped] again,
    and the supervisor calls [sourceFetcher.stop()] again. *)
Lemma stop_twice_differs :
  trace (stop (new Sample.defaults Sample.chain))
  = [Trigger (Monitor_Stopped "1")]
  /\ trace (stop (stop (new Sample.defaults Sample.chain)))
     = [Trigger (Monitor_Stopped "1"); Trigger (Monitor_Stopped "1")]
  /\ stop (stop (new Sample.defaults Sample.chain))
     <> stop (new Sample.defaults Sample.chain)
  /\ Monitor.stop
       (Monitor.stop (Monitor.new Sample.defaults (Some [Sample.chain])))
     <> Monitor.stop (Monitor.new Sample.defaults (Some [Sample.chain])).
Proof.
  split; [vm_compute; reflexivity |].
  split; [vm_compute; reflexivity |].
  split; intros H.
  - apply (f_equal (fun x => length (trace x))) in H. vm_compute in H.
    discriminate H.
  - apply (f_equal Monitor.sourceFetcher_stops) in H. vm_compute in H.
    discriminate H.
Qed.

(** ** Starting *)

(** The record operations, unfolded down to the fields. *)
Ltac state_simpl :=
  cbn [effects effect await set_trace set_inflight set_timers set_running
       set_provider set_getBlockPause set_nextTask chainIdString
       sourcifyChain provider running getBytecodeRetryPause getBlockPause
       initialGetBytecodeTries timers inflight trace nextTask] in *.

(** Two states with the same fields are the same. *)
Lemma state_ext (m1 m2 : t) :
  sourcifyChain m1 = sourcifyChain m2 ->
  provider m1 = provider m2 ->
  running m1 = running m2 ->
  getBytecodeRetryPause m1 = getBytecodeRetryPause m2 ->
  getBlockPause m1 = getBlockPause m2 ->
  initialGetBytecodeTries m1 = initialGetBytecodeTries m2 ->
  timers m1 = timers m2 ->
  inflight m1 = inflight m2 ->
  trace m1 = trace m2 ->
  nextTask m1 = nextTask m2 ->
  m1 = m2.
Proof. destruct m1, m2; cbn; intros; subst; reflexivity. Qed.

(** The same, through the code of the monitor as well. *)
Ltac monitor_simpl :=
  cbn [effects effect await set_trace set_inflight set_timers set_running
       set_provider set_getBlockPause set_nextTask chainIdString
       sourcifyChain provider running getBytecodeRetryPause getBlockPause
       initialGetBytecodeTries timers inflight trace nextTask
       app lookup list_lookup delete list_delete
       step resume run_handler handler timeout bind trigger emit
       mySetTimeout processBlock processBytecode processBytecode_settled
       processBlock_settled processBlock_then processBlock_catch
       processBlock_finally processTransactions processTransaction
       getBlockNumber_settled start_loop start_end stop
       verifyAndStore verifyAndStore_catch verifyDeployed_settled
       storeMatch_settled] in *.

(** The paths through the body of the loop over the transactions. *)
Ltac transaction_cases throws :=
  unfold processTransaction, trigger, emit, bind, processBytecode;
  state_simpl;
  repeat match goal with
    | |- context [createsContract ?tx] => destruct (createsContract tx)
    | |- context [throws ?c] => destruct (throws c)
    | |- context [isVerified ?r ?a ?m] => destruct (isVerified r a m)
    | |- context [?z <=? 0] => destruct (z <=? 0)
    | |- context [provider ?m] => destruct (provider m)
    end;
  cbn [state_of]; state_simpl.

Ltac state_eq :=
  apply state_ext; state_simpl; rewrite <- ?app_assoc; try reflexivity.

(** ** Reading numbers *)

(** Below [2^53] every integer is a double. *)
Lemma round_double_exact (z : Z) :
  Z.abs z < 2 ^ 53 -> Js.round_double z = Js.Int z.
Proof.
  intros Hz. unfold Js.round_double, Js.round_mantissa.
  assert (He : (Z.log2 (Z.abs z) - 52 <=? 0) = true).
  { apply Z.leb_le.
    destruct (Z.eq_dec (Z.abs z) 0) as [-> | Hne]; [cbn; lia |].
    assert (Z.log2 (Z.abs z) < 53); [| lia].
    apply Z.log2_lt_pow2; lia. }
  rewrite He.
  assert (Hb : (Js.beyond <=? Z.abs z) = false).
  { apply Z.leb_gt. apply Z.lt_trans with (2 ^ 53); [exact Hz |].
    unfold Js.beyond. apply Z.pow_lt_mono_r; lia. }
  rewrite Hb. f_equal. rewrite Z.mul_comm. apply Z.abs_sgn.
Qed.

(** The values of a number below ten, and beyond. *)
Ltac digit_cases d :=
  let p := fresh "p" in
  destruct d as [|p]; [| do 4 (try destruct p as [p|p|])];
  try (exfalso; lia).

(** The digit a decimal numeral is printed with reads as itself. *)
Lemma digit_value_pretty (d : N) :
  (d < 10)%N -> Js.digit_value 10 (pretty_N_char d) = Some (Z.of_N d).
Proof.
  intros Hd. digit_cases d; reflexivity.
Qed.

(** Reading the digits of a printed number gives the number back. *)
Lemma parse_digits_pretty (x : N) (s : string) :
  (0 < x)%N ->
  Js.parse_digits 10 (pretty_N_go x s) None
  = Js.parse_digits 10 s (Some (Z.of_N x)).
Proof.
  revert s. induction (N.lt_wf_0 x) as [x _ IH]. intros s Hx.
  rewrite pretty_N_go_step by exact Hx.
  assert (Hd : (x `mod` 10 < 10)%N) by (apply N.mod_lt; discriminate).
  pose proof (N.div_mod' x 10) as Hdm.
  destruct (decide (x `div` 10 = 0)%N) as [H0 | H0].
  - rewrite H0, pretty_N_go_0. cbn [Js.parse_digits].
    rewrite digit_value_pretty by exact Hd.
    do 2 f_equal. lia.
  - rewrite IH; [| apply N.div_lt; lia | lia].
    cbn [Js.parse_digits]. rewrite digit_value_pretty by exact Hd.
    do 2 f_equal. lia.
Qed.

(** A printed positive number begins with a digit that is not [0]. *)
Lemma pretty_leading_digit (x : N) (s : string) :
  (0 < x)%N ->
  exists (d : N) (r : string),
    (0 < d < 10)%N /\ pretty_N_go x s = String (pretty_N_char d) r.
Proof.
  revert s. induction (N.lt_wf_0 x) as [x _ IH]. intros s Hx.
  rewrite pretty_N_go_step by exact Hx.
  assert (Hd : (x `mod` 10 < 10)%N) by (apply N.mod_lt; discriminate).
  pose proof (N.div_mod' x 10) as Hdm.
  destruct (decide (x `div` 10 = 0)%N) as [H0 | H0].
  - rewrite H0, pretty_N_go_0. exists (x `mod` 10)%N, s.
    split; [lia | reflexivity].
  - apply IH; [apply N.div_lt; lia | lia].
Qed.

(** [parseInt] of a string that begins with such a digit reads its digits
    in base ten. *)
Lemma parseInt_digits (d : N) (r : string) :
  (0 < d < 10)%N ->
  Js.parseInt (String (pretty_N_char d) r)
  = match Js.parse_digits 10 (String (pretty_N_char d) r) None with
    | Some v => Js.round_double v
    | None => Js.NaN
    end.
Proof.
  intros Hd. unfold Js.parseInt.
  digit_cases d; destruct r as [|c2 [|c3 r3]]; reflexivity.
Qed.

(** The same after a minus sign. *)
Lemma parseInt_minus_digits (d : N) (r : string) :
  (0 < d < 10)%N ->
  Js.parseInt (String "-" (String (pretty_N_char d) r))
  = match Js.parse_digits 10 (String (pretty_N_char d) r) None with
    | Some v => Js.round_double (- v)
    | None => Js.NaN
    end.
Proof.
  intros Hd. unfold Js.parseInt.
  digit_cases d; destruct r as [|c3 r3]; reflexivity.
Qed.

(** [parseInt(String(z))] is [z], for an integer the doubles hold exactly. *)
Lemma parseInt_toString (z : Z) :
  Z.abs z < 2 ^ 53 -> Js.parseInt (Js.toString z) = Js.Int z.
Proof.
  intros Hz. destruct z as [|p|p]; unfold Js.toString.
  - reflexivity.
  - unfold pretty, pretty_N. destruct (decide _) as [|_]; [discriminate |].
    destruct (pretty_leading_digit (Npos p) EmptyString) as (d & r & Hd & Hs);
      [reflexivity |].
    pose proof (parse_digits_pretty (Npos p) EmptyString eq_refl) as Hp.
    rewrite Hs in *. rewrite parseInt_digits, Hp by exact Hd.
    cbn [Js.parse_digits]. now apply round_double_exact.
  - unfold pretty, pretty_N. destruct (decide _) as [|_]; [discriminate |].
    destruct (pretty_leading_digit (Npos p) EmptyString) as (d & r & Hd & Hs);
      [reflexivity |].
    pose proof (parse_digits_pretty (Npos p) EmptyString eq_refl) as Hp.
    rewrite Hs in *.
    change ("-" +:+ String (pretty_N_char d) r)
      with (String "-" (String (pretty_N_char d) r)).
    rewrite parseInt_minus_digits, Hp by exact Hd.
    cbn [Js.parse_digits]. now apply round_double_exact.
Qed.

Section Starting.
Context (W : World).

Lemma run_app (ls1 ls2 : list Label) (m : t) :
  run W (ls1 ++ ls2) m = run W ls2 (run W ls1 m).
Proof. apply fold_left_app. Qed.

Lemma run_cons (l : Label) (ls : list Label) (m : t) :
  run W (l :: ls) m = run W ls (step W l m).
Proof. reflexivity. Qed.

Lemma effects_effects (es1 es2 : list Effect) (m : t) :
  effects es2 (effects es1 m) = effects (es1 ++ es2) m.
Proof. state_eq. Qed.

Lemma effects_nil (m : t) : effects [] m = m.
Proof. state_eq. apply app_nil_r. Qed.

(** One endpoint fails: the loop of [start] moves on to the next. *)
Lemma start_loop_rejected (raw : option string) (found : bool) (u : string)
    (err : Js.Error) (rest : list string) (m : t) :
  inflight m = [] ->
  step W (probe_rejected err) (start_loop raw found (u :: rest) m)
  = start_loop raw found rest
      (effects [GetBlockNumber (newProvider (sourcifyChain m) u);
                LoggerInfo u err] m).
Proof.
  intros Hin. unfold probe_rejected. monitor_simpl. rewrite Hin.
  monitor_simpl. f_equal. state_eq. symmetry; exact Hin.
Qed.

(** One endpoint answers: the provider is kept, [Monitor.Started] triggered
    and the start block requested. *)
Lemma start_loop_fulfilled (raw : option string) (found : bool) (u : string)
    (lastBlockNumber : Z) (rest : list string) (m : t) :
  inflight m = [] ->
  let provider := newProvider (sourcifyChain m) u in
  let startBlock :=
    match raw with
    | Some s => Js.parseInt s
    | None => Js.Int lastBlockNumber
    end in
  step W (probe_fulfilled lastBlockNumber) (start_loop raw found (u :: rest) m)
  = await (await_getBlock startBlock)
      (effects [GetBlockNumber provider;
                Trigger (Monitor_Started (chainIdString m) u lastBlockNumber
                           startBlock);
                GetBlock startBlock]
         (set_provider (Some provider) m)).
Proof.
  intros Hin provider startBlock.
  unfold probe_fulfilled. monitor_simpl. rewrite Hin. monitor_simpl.
  state_eq. now rewrite Hin.
Qed.

(** Endpoint after endpoint fails. *)
Lemma start_loop_failed (raw : option string) (found : bool)
    (failed : list (string * Js.Error)) (rest : list string)
    (ls : list Label) (m : t) :
  inflight m = [] ->
  run W (map (fun f => probe_rejected (snd f)) failed ++ ls)
    (start_loop raw found (map fst failed ++ rest) m)
  = run W ls
      (start_loop raw found rest
         (effects (failed_probes (sourcifyChain m) failed) m)).
Proof.
  revert m. induction failed as [|[u err] failed IH]; intros m Hin.
  - cbn [map app failed_probes flat_map]. now rewrite effects_nil.
  - cbn [map app fst snd]. rewrite run_cons, start_loop_rejected by assumption.
    rewrite IH by (destruct m; exact Hin).
    rewrite effects_effects. reflexivity.
Qed.

(** [start] on a fresh monitor whose every endpoint fails. *)
Lemma start_exhausted (chain : SourcifyChain)
    (failed : list (string * Js.Error)) :
  rpc chain = map fst failed ->
  run W (call_start :: map (fun f => probe_rejected (snd f)) failed)
    (new W chain)
  = effects (failed_probes chain failed ++ [cant_start chain])
      (set_running true (new W chain)).
Proof.
  intros Hrpc. rewrite run_cons. cbn [step]. unfold start.
  cbn [sourcifyChain set_running new]. rewrite Hrpc.
  rewrite <- (app_nil_r (map (fun f => probe_rejected (snd f)) failed)).
  rewrite <- (app_nil_r (map fst failed)).
  rewrite start_loop_failed by reflexivity.
  cbn [run fold_left start_loop start_end sourcifyChain].
  rewrite <- effects_effects. reflexivity.
Qed.

(** [start] on a fresh monitor whose first working endpoint is [u]. *)
Lemma start_found (chain : SourcifyChain) (failed : list (string * Js.Error))
    (u : string) (rest : list string) (lastBlockNumber : Z) :
  rpc chain = map fst failed ++ u :: rest ->
  let startBlock :=
    match MONITOR_START W chain with
    | Some raw => Js.parseInt raw
    | None => Js.Int lastBlockNumber
    end in
  run W (call_start :: map (fun f => probe_rejected (snd f)) failed
           ++ [probe_fulfilled lastBlockNumber])
    (new W chain)
  = await (await_getBlock startBlock)
      (effects (failed_probes chain failed
                ++ [GetBlockNumber (newProvider chain u);
                    Trigger (Monitor_Started (Js.toString (chainId chain)) u
                               lastBlockNumber startBlock);
                    GetBlock startBlock])
         (set_provider (Some (newProvider chain u))
            (set_running true (new W chain)))).
Proof.
  intros Hrpc startBlock. rewrite run_cons. cbn [step]. unfold start.
  cbn [sourcifyChain set_running new]. rewrite Hrpc.
  rewrite start_loop_failed by reflexivity.
  cbn [run fold_left]. rewrite start_loop_fulfilled by reflexivity.
  fold (MONITOR_START W chain). fold startBlock.
  reflexivity.
Qed.

(** The same on a monitor that has promises in flight already: the probe
    of [start] comes after them. *)
Lemma start_loop_rejected_at (raw : option string) (found : bool) (u : string)
    (err : Js.Error) (rest : list string) (m : t) :
  step W (settle (length (inflight m)) (blockNumber_response (Js.Rejected err)))
    (start_loop raw found (u :: rest) m)
  = start_loop raw found rest
      (effects [GetBlockNumber (newProvider (sourcifyChain m) u);
                LoggerInfo u err] m).
Proof.
  cbn [step start_loop]. unfold await at 1 2. state_simpl.
  rewrite list_lookup_middle by reflexivity.
  rewrite delete_middle, app_nil_r. cbn [resume getBlockNumber_settled].
  f_equal. state_eq.
Qed.

Lemma start_loop_failed_at (raw : option string) (found : bool)
    (failed : list (string * Js.Error)) (rest : list string) (n : nat)
    (m : t) :
  n = length (inflight m) ->
  run W (map (fun f => settle n (blockNumber_response (Js.Rejected (snd f))))
           failed)
    (start_loop raw found (map fst failed ++ rest) m)
  = start_loop raw found rest
      (effects (failed_probes (sourcifyChain m) failed) m).
Proof.
  revert m. induction failed as [|[u err] failed IH]; intros m ->.
  - cbn [map app failed_probes flat_map run fold_left].
    now rewrite effects_nil.
  - cbn [map app fst snd]. rewrite run_cons, start_loop_rejected_at.
    rewrite IH by reflexivity.
    rewrite effects_effects. reflexivity.
Qed.

(** [start] on any monitor whose every endpoint fails: the flag is set, the
    probes and [Monitor.Error.CantStart] are added to the effects, and
    nothing else of the monitor is touched. *)
Lemma start_exhausted_at (failed : list (string * Js.Error)) (m : t) :
  rpc (sourcifyChain m) = map fst failed ->
  run W (call_start
           :: map (fun f => settle (length (inflight m))
                              (blockNumber_response (Js.Rejected (snd f))))
                failed)
    m
  = effects (failed_probes (sourcifyChain m) failed
             ++ [cant_start (sourcifyChain m)])
      (set_running true m).
Proof.
  intros Hrpc. rewrite run_cons. cbn [step]. unfold start.
  cbn [sourcifyChain set_running]. rewrite Hrpc.
  rewrite <- (app_nil_r (map fst failed)).
  rewrite start_loop_failed_at by reflexivity.
  cbn [start_loop start_end sourcifyChain set_running].
  rewrite <- effects_effects. reflexivity.
Qed.



(** C8, as amended. When every endpoint has failed, [start] has triggered
    [Monitor.Error.CantStart] last and has left nothing of its own behind:
    - on a monitor just constructed there is no provider, no timer and no
      promise in flight, so it is idle; but the flag [running], set on
      entry, is still set;
    - on any monitor, whatever happened to it before, the flag is set and
      provider, timers and promises in flight are as they were before the
      call; so after an earlier start and a stop, a timer of the earlier
      loop that is still pending requests its block when it expires, and
      the loop goes on. *)
Theorem start_exhausted_idle_but_running (id : Z) (nm : string)
    (failed : list (string * Js.Error)) :
  (let chain := mkChain id nm (map fst failed) in
   let m :=
     run W (call_start :: map (fun f => probe_rejected (snd f)) failed)
       (new W chain) in
   trace m = failed_probes chain failed ++ [cant_start chain]
   /\ provider m = None
   /\ timers m = []
   /\ inflight m = []
   /\ running m = true)
  /\ (forall m0 : t,
        rpc (sourcifyChain m0) = map fst failed ->
        let probe_fails (f : string * Js.Error) :=
          settle (length (inflight m0))
            (blockNumber_response (Js.Rejected (snd f))) in
        let m := run W (call_start :: map probe_fails failed) m0 in
        trace m
        = trace m0 ++ failed_probes (sourcifyChain m0) failed
          ++ [cant_start (sourcifyChain m0)]
        /\ provider m = provider m0
        /\ timers m = timers m0
        /\ inflight m = inflight m0
        /\ running m = true
        /\ (forall (i : nat) (N : Js.number) (d : Q),
              provider m0 <> None ->
              timers m0 !! i = Some (mkTimer (processBlock_handler N) d) ->
              trace (step W (fire i) m) = trace m ++ [GetBlock N]
              /\ inflight (step W (fire i) m)
                 = inflight m0 ++ [await_getBlock N])).
Proof.
  split.
  - intros chain m.
    assert (Hm : m = _) by (apply (start_exhausted chain failed); reflexivity).
    rewrite Hm. repeat split.
  - intros m0 Hrpc probe_fails m.
    assert (Hm : m = _) by (apply (start_exhausted_at failed m0); exact Hrpc).
    rewrite Hm. clear Hm m.
    do 5 (split; [reflexivity |]).
    intros i N d Hp Ht. cbn [step]. state_simpl. rewrite Ht.
    cbn [handler]. unfold run_handler, processBlock. state_simpl.
    destruct (provider m0); [| contradiction]. state_simpl.
    split; reflexivity.
Qed.

(** A string [parseInt] cannot read gives [NaN]. *)
Lemma parseInt_non_numeric (s : string) :
  non_numeric s -> Js.parseInt s = Js.NaN.
Proof.
  unfold non_numeric, Js.parseInt.
  destruct (Js.split_sign (Js.trim_start s)) as [neg s2]. cbn [snd].
  destruct s2 as [|c r]; [reflexivity |].
  destruct c as [[] [] [] [] [] [] [] []]; intros H;
    solve [discriminate H | reflexivity].
Qed.

(** C10: when [MONITOR_START_<chainId>] is set, whatever the string, [start]
    takes [parseInt] of it as the start block and never the probed block
    number: [Monitor.Started] carries it and [getBlock] is called with it.
    For a string that is not a number this value is [NaN]; for the decimal
    numeral of an integer [z] that a double holds exactly (negative ones
    included) it is [z]. *)
Theorem start_override_not_validated (chain : SourcifyChain)
    (failed : list (string * Js.Error)) (u : string) (rest : list string)
    (lastBlockNumber : Z) (raw : string) :
  rpc chain = map fst failed ++ u :: rest ->
  MONITOR_START W chain = Some raw ->
  let m :=
    run W (call_start :: map (fun f => probe_rejected (snd f)) failed
             ++ [probe_fulfilled lastBlockNumber])
      (new W chain) in
  trace m
  = failed_probes chain failed
    ++ [GetBlockNumber (newProvider chain u);
        Trigger (Monitor_Started (Js.toString (chainId chain)) u
                   lastBlockNumber (Js.parseInt raw));
        GetBlock (Js.parseInt raw)]
  /\ inflight m = [await_getBlock (Js.parseInt raw)]
  /\ (non_numeric raw ->
      trace m
      = failed_probes chain failed
        ++ [GetBlockNumber (newProvider chain u);
            Trigger (Monitor_Started (Js.toString (chainId chain)) u
                       lastBlockNumber Js.NaN);
            GetBlock Js.NaN]
      /\ inflight m = [await_getBlock Js.NaN])
  /\ (forall z : Z,
      Z.abs z < 2 ^ 53 ->
      raw = Js.toString z ->
      trace m
      = failed_probes chain failed
        ++ [GetBlockNumber (newProvider chain u);
            Trigger (Monitor_Started (Js.toString (chainId chain)) u
                       lastBlockNumber (Js.Int z));
            GetBlock (Js.Int z)]
      /\ inflight m = [await_getBlock (Js.Int z)]).
Proof.
  intros Hrpc Hraw m.
  assert (Hm : m = _) by (apply (start_found chain failed u rest); exact Hrpc).
  cbv zeta in Hm. rewrite Hraw in Hm. rewrite Hm. clear Hm m.
  split; [reflexivity |]. split; [reflexivity |]. split.
  - intros Hnan. rewrite (parseInt_non_numeric raw Hnan). split; reflexivity.
  - intros z Hz ->. rewrite (parseInt_toString z Hz). split; reflexivity.
Qed.

End Starting.

(** The override [latest] on chain 1: the monitor starts at block [NaN];
    the override [-5]: it starts at block [-5], whatever the node said. *)
Lemma start_override_not_validated_witness :
  (rpc Sample.chain
   = map fst (@nil (string * Js.Error)) ++ "https://rpc.one" :: ["wss://rpc.two"]
   /\ MONITOR_START Sample.start_at_latest Sample.chain = Some "latest"
   /\ non_numeric "latest"
   /\ trace (run Sample.start_at_latest Sample.started
               (new Sample.start_at_latest Sample.chain))
      = [GetBlockNumber (newProvider Sample.chain "https://rpc.one");
         Trigger (Monitor_Started "1" "https://rpc.one" 100 Js.NaN);
         GetBlock Js.NaN]
   /\ inflight (run Sample.start_at_latest Sample.started
                  (new Sample.start_at_latest Sample.chain))
      = [await_getBlock Js.NaN])
  /\ (MONITOR_START Sample.start_below_zero Sample.chain = Some "-5"
      /\ Z.abs (-5) < 2 ^ 53
      /\ "-5" = Js.toString (-5)
      /\ trace (run Sample.start_below_zero Sample.started
                  (new Sample.start_below_zero Sample.chain))
         = [GetBlockNumber (newProvider Sample.chain "https://rpc.one");
            Trigger (Monitor_Started "1" "https://rpc.one" 100 (Js.Int (-5)));
            GetBlock (Js.Int (-5))]
      /\ inflight (run Sample.start_below_zero Sample.started
                     (new Sample.start_below_zero Sample.chain))
         = [await_getBlock (Js.Int (-5))]).
Proof.
  assert (H1 : rpc Sample.chain
               = map fst (@nil (string * Js.Error))
                 ++ "https://rpc.one" :: ["wss://rpc.two"])
    by reflexivity.
  assert (H2 : MONITOR_START Sample.start_at_latest Sample.chain
               = Some "latest")
    by (vm_compute; reflexivity).
  assert (H3 : non_numeric "latest") by (vm_compute; reflexivity).
  assert (H4 : MONITOR_START Sample.start_below_zero Sample.chain = Some "-5")
    by (vm_compute; reflexivity).
  assert (H5 : Z.abs (-5) < 2 ^ 53) by (vm_compute; reflexivity).
  assert (H6 : "-5" = Js.toString (-5)) by (vm_compute; reflexivity).
  split.
  - split; [exact H1 |]. split; [exact H2 |]. split; [exact H3 |].
    exact (proj1 (proj2 (proj2
             (start_override_not_validated Sample.start_at_latest
                Sample.chain [] "https://rpc.one" ["wss://rpc.two"]
                100 "latest" H1 H2))) H3).
  - split; [exact H4 |]. split; [exact H5 |]. split; [exact H6 |].
    exact (proj2 (proj2 (proj2
             (start_override_not_validated Sample.start_below_zero
                Sample.chain [] "https://rpc.one" ["wss://rpc.two"]
                100 "-5" H1 H4))) (-5) H5 H6).
Defined.

(** The monitor of the sample chain, started, waiting for block 100 and
    stopped, is started again while both endpoints refuse: the flag is set,
    the timer of the first loop is where it was, and when it expires block
    100 is requested. *)
Lemma start_exhausted_idle_but_running_witness :
  rpc (sourcifyChain Sample.stopped) = map fst Sample.both_refused
  /\ provider Sample.stopped <> None
  /\ timers Sample.stopped !! 0%nat
     = Some (mkTimer (processBlock_handler (Js.Int 100))
               (getBlockPause Sample.stopped))
  /\ running (run Sample.defaults Sample.start_refused Sample.stopped) = true
  /\ timers (run Sample.defaults Sample.start_refused Sample.stopped)
     = timers Sample.stopped
  /\ trace (step Sample.defaults (fire 0)
              (run Sample.defaults Sample.start_refused Sample.stopped))
     = trace (run Sample.defaults Sample.start_refused Sample.stopped)
       ++ [GetBlock (Js.Int 100)].
Proof.
  assert (H1 : rpc (sourcifyChain Sample.stopped)
               = map fst Sample.both_refused)
    by reflexivity.
  assert (H2 : provider Sample.stopped <> None)
    by (vm_compute; discriminate).
  assert (H3 : timers Sample.stopped !! 0%nat
               = Some (mkTimer (processBlock_handler (Js.Int 100))
                         (getBlockPause Sample.stopped)))
    by (vm_compute; reflexivity).
  pose proof (proj2 (start_exhausted_idle_but_running Sample.defaults 1
                       "Ethereum Mainnet" Sample.both_refused)
                Sample.stopped H1) as H.
  cbv zeta in H.
  destruct H as (_ & _ & Ht & _ & Hr & Hf).
  split; [exact H1 |]. split; [exact H2 |]. split; [exact H3 |].
  split; [exact Hr |]. split; [exact Ht |].
  exact (proj1 (Hf 0%nat (Js.Int 100) (getBlockPause Sample.stopped) H2 H3)).
Defined.

(** C8, as stated, fails: both endpoints of the chain refuse, [start] gives
    up, and the monitor is still marked running. Nor does it remain idle
    when it was started and stopped before: the timer of the earlier loop
    is still there, and block 100 is requested when it expires. *)
Lemma start_exhausted_still_running :
  last (trace (run Sample.defaults
                 [call_start; probe_rejected Sample.refused;
                  probe_rejected Sample.refused]
                 (new Sample.defaults Sample.chain)))
  = Some (cant_start Sample.chain)
  /\ running (run Sample.defaults
                [call_start; probe_rejected Sample.refused;
                 probe_rejected Sample.refused]
                (new Sample.defaults Sample.chain))
     = true
  /\ running (run Sample.defaults
                [call_start; probe_rejected Sample.refused;
                 probe_rejected Sample.refused]
                (new Sample.defaults Sample.chain))
     <> false
  /\ last (trace (run Sample.defaults Sample.start_refused Sample.stopped))
     = Some (cant_start Sample.chain)
  /\ block_timers (run Sample.defaults Sample.start_refused Sample.stopped)
     = [Js.Int 100]
  /\ last (trace (run Sample.defaults (Sample.start_refused ++ [fire 0])
                    Sample.stopped))
     = Some (GetBlock (Js.Int 100)).
Proof.
  split; [vm_compute; reflexivity |].
  split; [vm_compute; reflexivity |].
  split; [vm_compute; discriminate |].
  split; [vm_compute; reflexivity |].
  split; vm_compute; reflexivity.
Qed.
(** ** Contract creations *)

Section CreationHandling.
Context (W : World).

(** The two tests of the loop, on the data they read. *)
Lemma createsContract_no_destination (tx : TransactionResponse) :
  createsContract tx = no_destination tx.
Proof.
  unfold createsContract, no_destination.
  destruct (to tx) as [[|c s]|]; [reflexivity | | reflexivity].
  destruct (decide (String c s = EmptyString)) as [H | _];
    [discriminate H | reflexivity].
Qed.

Lemma isVerified_repo (repo : Repository) (address : string) (m : t) :
  isVerified repo address m
  = match repo address (Js.toString (chainId (sourcifyChain m))) with
    | [] => false
    | _ :: _ => true
    end.
Proof.
  unfold isVerified, chainIdString. destruct (repo _ _); reflexivity.
Qed.

Lemma creation_effects_frame (repo : Repository) (m1 m2 : t)
    (txs : list TransactionResponse) (next : nat) :
  sourcifyChain m1 = sourcifyChain m2 ->
  initialGetBytecodeTries m1 = initialGetBytecodeTries m2 ->
  creation_effects W repo m1 next txs = creation_effects W repo m2 next txs.
Proof.
  intros Hc Hi. revert next.
  induction txs as [|tx rest IH]; intros next; [reflexivity |].
  cbn [creation_effects]. rewrite Hc, Hi, !IH. reflexivity.
Qed.

Lemma creation_promises_frame (repo : Repository) (m1 m2 : t)
    (txs : list TransactionResponse) (next : nat) :
  sourcifyChain m1 = sourcifyChain m2 ->
  initialGetBytecodeTries m1 = initialGetBytecodeTries m2 ->
  creation_promises W repo m1 next txs = creation_promises W repo m2 next txs.
Proof.
  intros Hc Hi. revert next.
  induction txs as [|tx rest IH]; intros next; [reflexivity |].
  cbn [creation_promises]. rewrite Hc, Hi, !IH. reflexivity.
Qed.

Lemma creation_tasks_frame (repo : Repository) (m1 m2 : t)
    (txs : list TransactionResponse) (next : nat) :
  sourcifyChain m1 = sourcifyChain m2 ->
  creation_tasks W repo m1 next txs = creation_tasks W repo m2 next txs.
Proof.
  intros Hc. revert next.
  induction txs as [|tx rest IH]; intros next; [reflexivity |].
  cbn [creation_tasks]. rewrite Hc, !IH. reflexivity.
Qed.

(** The first transaction, then the others. *)
Lemma creation_cons (repo : Repository) (m : t) (next : nat)
    (tx : TransactionResponse) (rest : list TransactionResponse) :
  creation_effects W repo m next (tx :: rest)
  = creation_effects W repo m next [tx]
    ++ creation_effects W repo m (creation_tasks W repo m next [tx]) rest
  /\ creation_promises W repo m next (tx :: rest)
     = creation_promises W repo m next [tx]
       ++ creation_promises W repo m (creation_tasks W repo m next [tx]) rest
  /\ creation_tasks W repo m next (tx :: rest)
     = creation_tasks W repo m (creation_tasks W repo m next [tx]) rest.
Proof.
  cbn [creation_effects creation_promises creation_tasks].
  destruct (no_destination tx); [| now cbn].
  destruct (repo _ _); cbn [app]; rewrite ?app_nil_r; [| now cbn].
  destruct (0 <? initialGetBytecodeTries m); now cbn.
Qed.

(** One transaction, when the provider is set: the monitor is left as it
    was but for three lists that have grown by part of what the
    specification lists, and by all of it when nothing is thrown. *)
Lemma processTransaction_outcome (repo : Repository) (throws : Throws)
    (tx : TransactionResponse) (m : t) :
  provider m <> None ->
  exists es ps k thrown,
    processTransaction W repo throws tx m
    = completion thrown
        (set_nextTask k (set_inflight (inflight m ++ ps) (effects es m)))
    /\ es `prefix_of` creation_effects W repo m (nextTask m) [tx]
    /\ ps `prefix_of` creation_promises W repo m (nextTask m) [tx]
    /\ match thrown with
       | None =>
           es = creation_effects W repo m (nextTask m) [tx]
           /\ ps = creation_promises W repo m (nextTask m) [tx]
           /\ k = creation_tasks W repo m (nextTask m) [tx]
       | Some err => exists c, throws c = Some err
       end.
Proof.
  intros Hp.
  assert (Hsame : forall (es : list Effect) (ps : list Pending),
             es = [] -> ps = [] ->
             m = set_nextTask (nextTask m)
                   (set_inflight (inflight m ++ ps) (effects es m))).
  { intros es ps -> ->. state_eq; now rewrite app_nil_r. }
  unfold processTransaction. rewrite createsContract_no_destination.
  cbn [creation_effects creation_promises creation_tasks].
  destruct (no_destination tx).
  2: { exists [], [], (nextTask m), None. cbn [completion].
       rewrite <- (Hsame [] []) by reflexivity. repeat split; reflexivity. }
  destruct (throws (getCreateAddress_call tx)) as [err|] eqn:H1.
  { exists [], [], (nextTask m), (Some err). cbn [completion].
    rewrite <- (Hsame [] []) by reflexivity.
    repeat split; try apply prefix_nil. eauto. }
  destruct (throws (checkByChainAndAddress_call _ _)) as [err|] eqn:H2.
  { exists [], [], (nextTask m), (Some err). cbn [completion].
    rewrite <- (Hsame [] []) by reflexivity.
    repeat split; try apply prefix_nil. eauto. }
  rewrite isVerified_repo. unfold chainIdString.
  destruct (repo _ _) as [|found others].
  - unfold trigger, bind. state_simpl.
    destruct (throws (trigger_call _)) as [err|] eqn:H3.
    { eexists [_], [], (nextTask m), (Some err). cbn [completion].
      split; [f_equal; state_eq; now rewrite app_nil_r |].
      split; [eexists; reflexivity |]. split; [apply prefix_nil | eauto]. }
    unfold processBytecode. state_simpl.
    destruct (provider m) as [p|]; [| now destruct Hp].
    destruct (initialGetBytecodeTries m <=? 0) eqn:Hle.
    + assert (H0 : (0 <? initialGetBytecodeTries m) = false) by lia.
      rewrite H0. eexists [_], [], (S (nextTask m)), None. cbn [completion].
      split; [f_equal; state_eq; now rewrite app_nil_r |].
      split; [reflexivity |]. split; [reflexivity |]. auto.
    + assert (H0 : (0 <? initialGetBytecodeTries m) = true) by lia.
      rewrite H0. eexists [_; _], [_], (S (nextTask m)), None.
      cbn [completion].
      split; [f_equal; state_eq |].
      split; [reflexivity |]. split; [reflexivity |]. auto.
  - unfold trigger, emit, bind. state_simpl.
    destruct (throws (trigger_call _)) as [err|] eqn:H3.
    { eexists [_], [], (nextTask m), (Some err). cbn [completion].
      split; [f_equal; state_eq; now rewrite app_nil_r |].
      split; [eexists; reflexivity |]. split; [apply prefix_nil | eauto]. }
    destruct (throws (emit_call _ _ _)) as [err|] eqn:H4.
    { eexists [_; _], [], (nextTask m), (Some err). cbn [completion].
      split; [f_equal; state_eq; now rewrite app_nil_r |].
      split; [reflexivity |]. split; [apply prefix_nil | eauto]. }
    eexists [_; _], [], (nextTask m), None. cbn [completion].
    split; [f_equal; state_eq; now rewrite app_nil_r |].
    split; [reflexivity |]. split; [reflexivity |]. auto.
Qed.

(** The loop over the transactions, likewise. *)
Lemma processTransactions_outcome (repo : Repository) (throws : Throws)
    (txs : list TransactionResponse) (m : t) :
  provider m <> None ->
  exists es ps k thrown,
    processTransactions W repo throws txs m
    = completion thrown
        (set_nextTask k (set_inflight (inflight m ++ ps) (effects es m)))
    /\ es `prefix_of` creation_effects W repo m (nextTask m) txs
    /\ ps `prefix_of` creation_promises W repo m (nextTask m) txs
    /\ match thrown with
       | None =>
           es = creation_effects W repo m (nextTask m) txs
           /\ ps = creation_promises W repo m (nextTask m) txs
           /\ k = creation_tasks W repo m (nextTask m) txs
       | Some err => exists c, throws c = Some err
       end.
Proof.
  revert m. induction txs as [|tx rest IH]; intros m Hp.
  - exists [], [], (nextTask m), None. cbn [processTransactions completion].
    split; [f_equal; state_eq; now rewrite app_nil_r |].
    cbn. repeat split; reflexivity.
  - destruct (creation_cons repo m (nextTask m) tx rest) as (-> & -> & ->).
    cbn [processTransactions].
    destruct (processTransaction_outcome repo throws tx m Hp)
      as (es1 & ps1 & k1 & [err|] & -> & He1 & Hp1 & Hall).
    + exists es1, ps1, k1, (Some err). cbn [completion bind].
      split; [reflexivity |].
      split; [now apply prefix_app_r |].
      split; [now apply prefix_app_r | exact Hall].
    + destruct Hall as (-> & -> & ->). cbn [completion bind].
      set (m1 := set_nextTask _ _).
      assert (Hp' : provider m1 <> None) by exact Hp.
      destruct (IH m1 Hp') as (es2 & ps2 & k2 & thrown & -> & He2 & Hp2 & Hall).
      rewrite (creation_effects_frame repo m1 m),
        (creation_promises_frame repo m1 m),
        (creation_tasks_frame repo m1 m) in * by reflexivity.
      change (nextTask m1) with (creation_tasks W repo m (nextTask m) [tx])
        in *.
      exists (creation_effects W repo m (nextTask m) [tx] ++ es2),
        (creation_promises W repo m (nextTask m) [tx] ++ ps2), k2, thrown.
      split; [f_equal; subst m1; state_eq |].
      split; [now apply prefix_app |].
      split; [now apply prefix_app |].
      destruct thrown as [err|]; [exact Hall |].
      destruct Hall as (-> & -> & ->). auto.
Qed.

(** The three ways the promise of [getBlock] settles. *)
Lemma processBlock_settled_null (repo : Repository) (throws : Throws)
    (blockNumber : Js.number) (m : t) :
  let m1 :=
    adaptBlockPause W increase
      (effect (GetBlockSettled blockNumber (Js.Fulfilled None)) m) in
  processBlock_settled W repo throws blockNumber (Js.Fulfilled None) m
  = mySetTimeout (processBlock_handler blockNumber) (getBlockPause m1) m1.
Proof. reflexivity. Qed.

Lemma processBlock_settled_rejected (repo : Repository) (throws : Throws)
    (blockNumber : Js.number) (err : Js.Error) (m : t) :
  let m1 :=
    effects [GetBlockSettled blockNumber (Js.Rejected err);
             Trigger (Monitor_Error_ProcessingBlock (Js.message err)
                        (Js.stack err) (chainIdString m) blockNumber)] m in
  processBlock_settled W repo throws blockNumber (Js.Rejected err) m
  = mySetTimeout (processBlock_handler blockNumber) (getBlockPause m) m1.
Proof.
  cbv zeta. unfold processBlock_settled, processBlock_finally,
    processBlock_catch. state_simpl. f_equal. state_eq.
Qed.

(** A block: the pause is shortened, the block announced, its transactions
    gone through; when that completes the next block is scheduled, and when
    something is thrown on the way the error is triggered and the same
    block scheduled again. *)
Lemma processBlock_settled_block (repo : Repository) (throws : Throws)
    (blockNumber : Js.number) (b : Block) (m : t) :
  provider m <> None ->
  let txs := prefetchedTransactions b in
  let m1 := adaptBlockPause W decrease m in
  exists es ps k thrown,
    processBlock_settled W repo throws blockNumber (Js.Fulfilled (Some b)) m
    = mySetTimeout
        (processBlock_handler
           (match thrown with
            | None => Js.incr blockNumber
            | Some _ => blockNumber
            end))
        (getBlockPause m1)
        (set_nextTask k
           (set_inflight (inflight m ++ ps)
              (effects
                 (GetBlockSettled blockNumber (Js.Fulfilled (Some b))
                  :: Trigger (Monitor_ProcessingBlock blockNumber
                                (chainIdString m) (getBlockPause m1))
                  :: es
                  ++ processing_error thrown (chainIdString m) blockNumber)
                 m1)))
    /\ es `prefix_of` creation_effects W repo m (nextTask m) txs
    /\ ps `prefix_of` creation_promises W repo m (nextTask m) txs
    /\ match thrown with
       | None =>
           es = creation_effects W repo m (nextTask m) txs
           /\ ps = creation_promises W repo m (nextTask m) txs
           /\ k = creation_tasks W repo m (nextTask m) txs
       | Some err => exists c, throws c = Some err
       end.
Proof.
  intros Hp txs m1.
  unfold processBlock_settled, processBlock_then, trigger, bind.
  fold m1.
  destruct (throws (trigger_call _)) as [err|] eqn:H1.
  - exists [], [], (nextTask m), (Some err).
    split; [| split; [apply prefix_nil | split; [apply prefix_nil | eauto]]].
    unfold processBlock_finally, processBlock_catch, processing_error.
    subst m1. unfold adaptBlockPause, chainIdString. state_simpl.
    f_equal. apply state_ext; state_simpl; try reflexivity.
    + now rewrite app_nil_r.
    + rewrite <- !app_assoc. reflexivity.
  - match goal with
    | |- context [processTransactions W repo throws ?l ?s] =>
        assert (Hp' : provider s <> None)
          by (subst m1; unfold adaptBlockPause; state_simpl; exact Hp);
        destruct (processTransactions_outcome repo throws l s Hp')
          as (es & ps & k & thrown & -> & He & Hps & Hall);
        rewrite (creation_effects_frame repo s m),
          (creation_promises_frame repo s m),
          (creation_tasks_frame repo s m) in * by reflexivity;
        change (nextTask s) with (nextTask m) in *
    end.
    exists es, ps, k, thrown.
    split; [| split; [exact He | split; [exact Hps | exact Hall]]].
    unfold processBlock_finally, processBlock_catch, processing_error.
    subst m1. unfold adaptBlockPause, chainIdString.
    destruct thrown as [err|]; cbn [completion]; state_simpl;
      f_equal; apply state_ext; state_simpl; try reflexivity;
      rewrite <- ?app_assoc, ?app_nil_r; reflexivity.
Qed.

Lemma creation_effects_kind (repo : Repository) (m : t)
    (txs : list TransactionResponse) (next : nat) :
  Forall creation_effect (creation_effects W repo m next txs).
Proof.
  revert next. induction txs as [|tx rest IH]; intros next; [constructor |].
  cbn [creation_effects].
  destruct (no_destination tx); [| apply IH].
  destruct (repo _ _).
  - apply Forall_cons_2; [exact I |]. apply Forall_app_2; [| apply IH].
    destruct (0 <? initialGetBytecodeTries m); repeat constructor.
  - repeat (apply Forall_cons_2; [exact I |]). apply IH.
Qed.

Lemma creation_promises_kind (repo : Repository) (m : t)
    (txs : list TransactionResponse) (next : nat) :
  Forall (fun p => exists task h a, p = await_getCode task h a
                                       (initialGetBytecodeTries m - 1))
    (creation_promises W repo m next txs).
Proof.
  revert next. induction txs as [|tx rest IH]; intros next; [constructor |].
  cbn [creation_promises].
  destruct (no_destination tx); [| apply IH].
  destruct (repo _ _); [| apply IH].
  apply Forall_app_2; [| apply IH].
  destruct (0 <? initialGetBytecodeTries m); repeat constructor. eauto.
Qed.

Lemma prefix_Forall {A : Type} (P : A -> Prop) (l1 l2 : list A) :
  l1 `prefix_of` l2 -> Forall P l2 -> Forall P l1.
Proof. intros [k ->] H. now apply Forall_app in H. Qed.








End CreationHandling.

(** ** Bytecode retrieval *)

Section BytecodeRetrieval.
Context (W : World).

(** The gate of [mySetTimeout], read off the list of timers. *)
Lemma mySetTimeout_timers (h : Handler) (delay : Q) (m : t) :
  timers (mySetTimeout h delay m)
  = if running m then timers m ++ [mkTimer h delay] else timers m.
Proof. unfold mySetTimeout. now destruct (running m). Qed.

Lemma mySetTimeout_frame (h : Handler) (delay : Q) (m : t) :
  sourcifyChain (mySetTimeout h delay m) = sourcifyChain m
  /\ provider (mySetTimeout h delay m) = provider m
  /\ running (mySetTimeout h delay m) = running m
  /\ getBytecodeRetryPause (mySetTimeout h delay m) = getBytecodeRetryPause m
  /\ getBlockPause (mySetTimeout h delay m) = getBlockPause m
  /\ initialGetBytecodeTries (mySetTimeout h delay m)
     = initialGetBytecodeTries m
  /\ inflight (mySetTimeout h delay m) = inflight m
  /\ trace (mySetTimeout h delay m) = trace m
  /\ nextTask (mySetTimeout h delay m) = nextTask m.
Proof.
  unfold mySetTimeout. destruct (running m) eqn:Hr; state_simpl;
    rewrite ?Hr; repeat split.
Qed.

(** An attempt with tries left calls [getCode] and waits for it with one try
    less. *)
Lemma processBytecode_attempt (task : nat) (creatorTxHash address : string)
    (retriesLeft : Z) (m : t) :
  0 < retriesLeft -> provider m <> None ->
  processBytecode task creatorTxHash address retriesLeft m
  = Normal (await (await_getCode task creatorTxHash address (retriesLeft - 1))
              (effect (GetCode task address) m)).
Proof.
  intros Hpos Hp. unfold processBytecode.
  assert (H0 : (retriesLeft <=? 0) = false) by lia. rewrite H0.
  destruct (provider m); [reflexivity | now destruct Hp].
Qed.

(** An attempt with no tries left does nothing at all. *)
Lemma processBytecode_exhausted (task : nat) (creatorTxHash address : string)
    (retriesLeft : Z) (m : t) :
  retriesLeft <= 0 ->
  processBytecode task creatorTxHash address retriesLeft m = Normal m.
Proof.
  intros Hle. unfold processBytecode.
  assert (H0 : (retriesLeft <=? 0) = true) by lia. now rewrite H0.
Qed.

(** C6, as amended: an attempt of [processBytecode] that calls [getCode]
    waits for the answer with the retry counter already decremented; then
    - on the answer ["0x"] it hands the task, with that counter and the delay
      [getBytecodeRetryPause], to [mySetTimeout], so that the task is
      scheduled again if the monitor is still running and is gone if it has
      been stopped; nothing is triggered;
    - on other bytecode whose metadata do not decode it triggers
      [Monitor.Error.ProcessingBytecode] and the task is gone: no timer, no
      promise;
    - on a rejection it triggers [Monitor.Error.GettingBytecode] and hands
      the task to [mySetTimeout] as for ["0x"]. *)
Theorem getCode_outcomes (task : nat) (creatorTxHash address : string)
    (retriesLeft : Z) (m0 : t) (i : nat) (m : t) :
  0 < retriesLeft ->
  provider m0 <> None ->
  inflight m !! i
  = Some (await_getCode task creatorTxHash address (retriesLeft - 1)) ->
  let retry :=
    mkTimer
      (processBytecode_handler task creatorTxHash address (retriesLeft - 1))
      (getBytecodeRetryPause m) in
  let scheduled := if running m then timers m ++ [retry] else timers m in
  (exists m1,
      processBytecode task creatorTxHash address retriesLeft m0 = Normal m1
      /\ trace m1 = trace m0 ++ [GetCode task address]
      /\ inflight m1
         = inflight m0
           ++ [await_getCode task creatorTxHash address (retriesLeft - 1)])
  /\ (let m' := step W (settle i (code_response (Js.Fulfilled "0x"))) m in
      timers m' = scheduled
      /\ inflight m' = delete i (inflight m)
      /\ trace m' = trace m)
  /\ (forall bytecode err,
        bytecode <> "0x" ->
        decodeSourceAddress W bytecode = inl err ->
        let m' := step W (settle i (code_response (Js.Fulfilled bytecode))) m in
        trace m'
        = trace m
          ++ [Trigger (Monitor_Error_ProcessingBytecode (Js.message err)
                         (Js.stack err) (chainIdString m) address)]
        /\ timers m' = timers m
        /\ inflight m' = delete i (inflight m))
  /\ (forall err,
        let m' := step W (settle i (code_response (Js.Rejected err))) m in
        trace m'
        = trace m
          ++ [Trigger (Monitor_Error_GettingBytecode (Js.message err)
                         (Js.stack err) (chainIdString m) address)]
        /\ timers m' = scheduled
        /\ inflight m' = delete i (inflight m)).
Proof.
  intros Hpos Hp Hi retry scheduled. split; [| split; [| split]].
  - eexists. split; [apply processBytecode_attempt; assumption |].
    split; reflexivity.
  - cbn [step]. rewrite Hi. cbn [resume processBytecode_settled].
    destruct (decide ("0x" = "0x")) as [_ | Hne]; [| now destruct Hne].
    rewrite mySetTimeout_timers.
    destruct (mySetTimeout_frame
                (processBytecode_handler task creatorTxHash address
                   (retriesLeft - 1))
                (getBytecodeRetryPause (set_inflight (delete i (inflight m)) m))
                (set_inflight (delete i (inflight m)) m))
      as (_ & _ & _ & _ & _ & _ & Hin & Htr & _).
    rewrite Hin, Htr. repeat split.
  - intros bytecode err Hne Hdec. cbn [step]. rewrite Hi.
    cbn [resume processBytecode_settled].
    destruct (decide (bytecode = "0x")) as [He | _]; [now destruct Hne |].
    rewrite Hdec. repeat split.
  - intros err. cbn [step]. rewrite Hi. cbn [resume processBytecode_settled].
    rewrite mySetTimeout_timers.
    match goal with
    | |- context [mySetTimeout ?h ?d ?s] =>
        destruct (mySetTimeout_frame h d s)
          as (_ & _ & _ & _ & _ & _ & Hin & Htr & _)
    end.
    rewrite Hin, Htr. repeat split.
Qed.

End BytecodeRetrieval.

(** ** The retry budget *)

Section RetryBudget.
Context (W : World).

Lemma sum_list_with_delete {A : Type} (f : A -> nat) (l : list A) (i : nat)
    (x : A) :
  l !! i = Some x ->
  sum_list_with f l = (f x + sum_list_with f (delete i l))%nat.
Proof.
  revert i. induction l as [|y l IH]; intros i Hi; [discriminate Hi |].
  destruct i as [|i]; simpl in Hi |- *.
  - now injection Hi as ->.
  - rewrite (IH i Hi). lia.
Qed.

(** The sums of [spent], spelled out for the goal at hand. *)
Ltac spent_simpl :=
  unfold spent, getCode_calls in *; state_simpl;
  rewrite ?sum_list_with_app in *;
  cbn [sum_list_with getCode_call timer_budget promise_budget handler] in *.

(** The loop body keeps every task within its budget: a task it starts is
    new, and gets exactly the initial number of tries. *)
Lemma processTransaction_budget (repo : Repository) (throws : Throws)
    (tx : TransactionResponse) (m : t) :
  within_budget m ->
  within_budget (state_of (processTransaction W repo throws tx m))
  /\ timers (state_of (processTransaction W repo throws tx m)) = timers m
  /\ running (state_of (processTransaction W repo throws tx m)) = running m.
Proof.
  intros Hinv. unfold processTransaction, trigger, emit, bind.
  destruct (createsContract tx); [| now cbn].
  destruct (throws (getCreateAddress_call tx)); [now cbn |].
  destruct (throws (checkByChainAndAddress_call _ _)); [now cbn |].
  destruct (isVerified repo (getCreateAddress W tx) m); state_simpl.
  - destruct (throws (trigger_call _)); [| destruct (throws (emit_call _ _ _))];
      cbn [state_of]; (split; [| now split]);
      intros task; destruct (Hinv task) as [H1 H2];
      spent_simpl; (split; [lia | intros Hn; specialize (H2 Hn); lia]).
  - destruct (throws (trigger_call _)).
    + cbn [state_of]. split; [| now split].
      intros task. destruct (Hinv task) as [H1 H2].
      spent_simpl. split; [lia | intros Hn; specialize (H2 Hn); lia].
    + unfold processBytecode. state_simpl.
      destruct (initialGetBytecodeTries m <=? 0) eqn:Hle;
        [| destruct (provider m)]; cbn [state_of]; (split; [| now split]);
        intros task; destruct (Hinv task) as [H1 H2];
        destruct (Hinv (nextTask m)) as [_ H3]; specialize (H3 (le_n _));
        spent_simpl; repeat case_decide; subst;
        (split; [lia | intros Hn; try (specialize (H2 ltac:(lia))); lia]).
Qed.

Lemma processTransactions_budget (repo : Repository) (throws : Throws)
    (txs : list TransactionResponse) (m : t) :
  within_budget m ->
  within_budget (state_of (processTransactions W repo throws txs m))
  /\ timers (state_of (processTransactions W repo throws txs m)) = timers m
  /\ running (state_of (processTransactions W repo throws txs m)) = running m.
Proof.
  revert m. induction txs as [|tx rest IH]; intros m Hinv; [now cbn |].
  cbn [processTransactions]. unfold bind.
  destruct (processTransaction_budget repo throws tx m Hinv) as (H1 & H2 & H3).
  destruct (processTransaction W repo throws tx m) as [m1 | m1 err];
    cbn [state_of] in *.
  - destruct (IH m1 H1) as (H4 & H5 & H6). rewrite H5, H6. auto.
  - auto.
Qed.

(** A state that has spent no more, task by task, is within budget too. *)
Lemma within_budget_mono (m m' : t) :
  initialGetBytecodeTries m' = initialGetBytecodeTries m ->
  nextTask m' = nextTask m ->
  (forall task, (spent task m' <= spent task m)%nat) ->
  within_budget m -> within_budget m'.
Proof.
  intros Hi Hn Hle Hinv task. destruct (Hinv task) as [H1 H2].
  specialize (Hle task). rewrite Hi, Hn. split; [lia |].
  intros Hnt. specialize (H2 Hnt). lia.
Qed.

(** Closes a goal [within_budget m'] where [m'] is [m] with effects, timers
    and promises added or removed that the context accounts for. *)
Ltac budget_mono Hinv :=
  refine (within_budget_mono _ _ _ _ _ Hinv);
  [reflexivity | reflexivity |
   let task := fresh "task" in
   intros task;
   repeat match goal with
     | H : timers ?m !! ?i = Some ?tm |- _ =>
         pose proof (sum_list_with_delete (timer_budget task) _ _ _ H);
         clear H
     | H : inflight ?m !! ?i = Some ?p |- _ =>
         pose proof (sum_list_with_delete (promise_budget task) _ _ _ H);
         clear H
     end;
   spent_simpl; repeat case_decide; subst; lia].

Lemma mySetTimeout_budget (blockNumber : Js.number) (delay : Q) (m : t) :
  within_budget m ->
  within_budget (mySetTimeout (processBlock_handler blockNumber) delay m).
Proof.
  intros Hinv. unfold mySetTimeout. destruct (running m); [| exact Hinv].
  budget_mono Hinv.
Qed.

(** Every turn of the event loop keeps every task within its budget. *)
Lemma step_budget (l : Label) (m : t) :
  within_budget m -> within_budget (step W l m).
Proof.
  intros Hinv. destruct l as [| | i | i r]; cbn [step].
  - unfold start, start_loop, start_end. state_simpl.
    destruct (rpc (sourcifyChain m)); budget_mono Hinv.
  - unfold stop. budget_mono Hinv.
  - destruct (timers m !! i) as [[h d]|] eqn:Hi; [| exact Hinv].
    cbn [handler].
    destruct h as [blockNumber | task0 creatorTxHash address retriesLeft];
      unfold run_handler, processBlock, processBytecode; state_simpl.
    + destruct (provider m); budget_mono Hinv.
    + destruct (retriesLeft <=? 0) eqn:Hle; [| destruct (provider m)];
        budget_mono Hinv.
  - destruct (inflight m !! i) as [p|] eqn:Hi; [| exact Hinv].
    destruct p, r; cbn [resume]; try exact Hinv.
    + (* the probe of start *)
      unfold getBlockNumber_settled, processBlock, start_loop, start_end.
      state_simpl. destruct r as [lastBlockNumber | err].
      * budget_mono Hinv.
      * destruct rest, found; budget_mono Hinv.
    + (* getBlock *)
      unfold processBlock_settled, processBlock_finally, processBlock_catch.
      destruct r as [[b|] | err].
      * unfold processBlock_then, trigger, bind.
        destruct (throws (trigger_call _)).
        { apply mySetTimeout_budget. unfold adaptBlockPause.
          budget_mono Hinv. }
        match goal with
        | |- context [processTransactions W repo throws ?txs ?s] =>
            assert (H2 : within_budget s)
              by (unfold adaptBlockPause; budget_mono Hinv);
            destruct (processTransactions_budget repo throws txs s H2)
              as (H3 & _ & _);
            destruct (processTransactions W repo throws txs s)
              as [m3 | m3 err]
        end; cbn [state_of] in H3.
        -- now apply mySetTimeout_budget.
        -- apply mySetTimeout_budget. budget_mono H3.
      * unfold processBlock_then. apply mySetTimeout_budget.
        unfold adaptBlockPause. budget_mono Hinv.
      * apply mySetTimeout_budget. budget_mono Hinv.
    + (* getCode *)
      unfold processBytecode_settled, mySetTimeout. state_simpl.
      destruct r as [bytecode | err].
      * destruct (decide (bytecode = "0x")).
        -- destruct (running m); budget_mono Hinv.
        -- destruct (decodeSourceAddress W bytecode); budget_mono Hinv.
      * destruct (running m); budget_mono Hinv.
    + (* the callback of the source fetcher *)
      unfold verifyAndStore. budget_mono Hinv.
    + unfold verifyDeployed_settled, verifyAndStore_catch.
      destruct r; budget_mono Hinv.
    + unfold storeMatch_settled, verifyAndStore_catch, emit.
      destruct r; [destruct (throws (emit_call _ _ _)) |];
        budget_mono Hinv.
Qed.

Lemma run_budget (ls : list Label) (m : t) :
  within_budget m -> within_budget (run W ls m).
Proof.
  revert m. induction ls as [|l ls IH]; intros m Hinv; [exact Hinv |].
  cbn [run fold_left]. apply IH, step_budget, Hinv.
Qed.

Lemma new_budget (chain : SourcifyChain) : within_budget (new W chain).
Proof. intros task. cbn. split; [lia | reflexivity]. Qed.

(** The configuration of a monitor never changes. *)
Lemma processTransactions_tries (repo : Repository) (throws : Throws)
    (txs : list TransactionResponse) (m : t) :
  initialGetBytecodeTries (state_of (processTransactions W repo throws txs m))
  = initialGetBytecodeTries m.
Proof.
  revert m. induction txs as [|tx rest IH]; intros m; [reflexivity |].
  cbn [processTransactions]. unfold bind.
  assert (H : initialGetBytecodeTries
                (state_of (processTransaction W repo throws tx m))
              = initialGetBytecodeTries m).
  { transaction_cases throws; reflexivity. }
  destruct (processTransaction W repo throws tx m) as [m1 | m1 err];
    cbn [state_of] in *; [rewrite IH |]; exact H.
Qed.

Lemma step_tries (l : Label) (m : t) :
  initialGetBytecodeTries (step W l m) = initialGetBytecodeTries m.
Proof.
  destruct l as [| | i | i r]; cbn [step].
  - unfold start, start_loop, start_end. state_simpl.
    destruct (rpc (sourcifyChain m)); reflexivity.
  - reflexivity.
  - destruct (timers m !! i) as [[h d]|]; [| reflexivity].
    destruct h as [n | task h a retriesLeft]; cbn [handler];
      unfold run_handler, processBlock, processBytecode;
      state_simpl; [| destruct (retriesLeft <=? 0); [reflexivity |]];
      destruct (provider m); reflexivity.
  - destruct (inflight m !! i) as [p|]; [| reflexivity].
    destruct p, r; cbn [resume]; try reflexivity.
    + unfold getBlockNumber_settled, processBlock, start_loop, start_end.
      state_simpl. destruct r; [reflexivity |]. destruct rest, found;
        reflexivity.
    + unfold processBlock_settled, processBlock_finally, processBlock_catch,
        processBlock_then, mySetTimeout, adaptBlockPause.
      destruct r as [[b|] | err].
      * unfold trigger, bind. destruct (throws (trigger_call _)).
        { state_simpl. destruct (running m); reflexivity. }
        match goal with
        | |- context [processTransactions W repo throws ?txs ?s] =>
            pose proof (processTransactions_tries repo throws txs s) as H;
            destruct (processTransactions W repo throws txs s)
              as [m3 | m3 e]
        end; cbn [state_of] in H; state_simpl;
          destruct (running m3); exact H.
      * state_simpl. destruct (running m); reflexivity.
      * state_simpl. destruct (running m); reflexivity.
    + unfold processBytecode_settled, mySetTimeout. state_simpl.
      destruct r as [bytecode | err].
      * destruct (decide (bytecode = "0x")).
        -- destruct (running m); reflexivity.
        -- destruct (decodeSourceAddress W bytecode); reflexivity.
      * destruct (running m); reflexivity.
    + destruct r; reflexivity.
    + unfold storeMatch_settled, emit.
      destruct r; [destruct (throws (emit_call _ _ _)) |]; reflexivity.
Qed.

Lemma run_tries (ls : list Label) (m : t) :
  initialGetBytecodeTries (run W ls m) = initialGetBytecodeTries m.
Proof.
  revert m. induction ls as [|l ls IH]; intros m; [reflexivity |].
  cbn [run fold_left]. change (fold_left _ ls ?s) with (run W ls s).
  now rewrite IH, step_tries.
Qed.

(** C3: in any run of a monitor, however its methods are called, its timers
    expire and its promises settle, the calls of [getCode] made for one
    bytecode task, counted over all its retries, never exceed the initial
    number of tries [k >= 1]; and a [processBytecode] entered with no tries
    left, called directly or from its timer, changes nothing: no call, no
    event, no timer. *)
Theorem getCode_calls_bounded (chain : SourcifyChain) (ls : list Label)
    (task : nat) :
  1 <= initialGetBytecodeTries (new W chain) ->
  Z.of_nat (getCode_calls task (trace (run W ls (new W chain))))
  <= initialGetBytecodeTries (new W chain)
  /\ (forall creatorTxHash address retriesLeft m,
        retriesLeft <= 0 ->
        processBytecode task creatorTxHash address retriesLeft m = Normal m
        /\ run_handler
             (processBytecode_handler task creatorTxHash address retriesLeft) m
           = m).
Proof.
  intros Hk. split.
  - destruct (run_budget ls _ (new_budget chain) task) as [H _].
    rewrite run_tries in H. unfold spent in H. lia.
  - intros creatorTxHash address retriesLeft m Hle.
    unfold run_handler.
    now rewrite (processBytecode_exhausted task creatorTxHash address
                   retriesLeft m Hle).
Qed.

End RetryBudget.

(** ** After [stop] *)

Section AfterStop.
Context (W : World).

(** The loop over the transactions registers no timer and leaves the flag
    alone. *)
Lemma processTransactions_timers (repo : Repository) (throws : Throws)
    (txs : list TransactionResponse) (m : t) :
  timers (state_of (processTransactions W repo throws txs m)) = timers m
  /\ running (state_of (processTransactions W repo throws txs m)) = running m.
Proof.
  revert m. induction txs as [|tx rest IH]; intros m; [now cbn |].
  cbn [processTransactions]. unfold bind.
  assert (H : timers (state_of (processTransaction W repo throws tx m))
              = timers m
              /\ running (state_of (processTransaction W repo throws tx m))
                 = running m).
  { transaction_cases throws; now split. }
  destruct (processTransaction W repo throws tx m) as [m1 | m1 err];
    cbn [state_of] in *; [| exact H].
  destruct (IH m1) as [H1 H2]. destruct H as [H3 H4].
  rewrite H1, H2. auto.
Qed.

(** While the flag is down no turn of the event loop registers a timer. *)
Lemma step_stopped (l : Label) (m : t) :
  running m = false -> l <> call_start ->
  running (step W l m) = false /\ timers (step W l m) `sublist_of` timers m.
Proof.
  intros Hr Hl. destruct l as [| | i | i r]; cbn [step]; [now destruct Hl | | |].
  - split; reflexivity.
  - destruct (timers m !! i) as [[h d]|]; [| now split].
    destruct h as [n | task h a retriesLeft]; cbn [handler];
      unfold run_handler, processBlock, processBytecode; state_simpl;
      [| destruct (retriesLeft <=? 0)]; try destruct (provider m);
      state_simpl; (split; [exact Hr | apply sublist_delete]).
  - destruct (inflight m !! i) as [p|]; [| now split].
    destruct p, r; cbn [resume]; try (now split).
    + unfold getBlockNumber_settled, processBlock, start_loop, start_end.
      state_simpl. destruct r; [now split |].
      destruct rest, found; now split.
    + unfold processBlock_settled, processBlock_finally, processBlock_catch,
        processBlock_then, mySetTimeout, adaptBlockPause.
      destruct r as [[b|] | err].
      * unfold trigger, bind. destruct (throws (trigger_call _)).
        { state_simpl. rewrite Hr. now split. }
        match goal with
        | |- context [processTransactions W repo throws ?txs ?s] =>
            destruct (processTransactions_timers repo throws txs s)
              as [H1 H2];
            destruct (processTransactions W repo throws txs s)
              as [m3 | m3 e]
        end; cbn [state_of] in H1, H2; state_simpl;
          rewrite H2, Hr; state_simpl; rewrite H1, H2;
          (split; [exact Hr | reflexivity]).
      * state_simpl. rewrite Hr. now split.
      * state_simpl. rewrite Hr. now split.
    + unfold processBytecode_settled, mySetTimeout. state_simpl.
      rewrite Hr. destruct r as [bytecode | err]; [| now split].
      destruct (decide (bytecode = "0x")); [now split |].
      destruct (decodeSourceAddress W bytecode); now split.
    + destruct r; now split.
    + unfold storeMatch_settled, emit.
      destruct r; [destruct (throws (emit_call _ _ _)) |]; now split.
Qed.



End AfterStop.

(** ** The order of the blocks *)

Section BlockOrder.
Context (W : World).

Lemma omap_delete_none {A B : Type} (f : A -> option B) (l : list A) (i : nat)
    (x : A) :
  l !! i = Some x -> f x = None -> omap f (delete i l) = omap f l.
Proof.
  revert i. induction l as [|y l IH]; intros i Hi Hx; [discriminate Hi |].
  destruct i as [|i]; simpl in Hi |- *;
    change (list_omap A B f) with (@omap list _ A B f) in *.
  - injection Hi as ->. now rewrite Hx.
  - now rewrite (IH i Hi Hx).
Qed.

Lemma omap_delete_some {A B : Type} (f : A -> option B) (l : list A) (i : nat)
    (x : A) (y : B) :
  l !! i = Some x -> f x = Some y ->
  length (omap f l) = S (length (omap f (delete i l))) /\ In y (omap f l).
Proof.
  revert i. induction l as [|z l IH]; intros i Hi Hx; [discriminate Hi |].
  destruct i as [|i]; simpl in Hi |- *;
    change (list_omap A B f) with (@omap list _ A B f) in *.
  - injection Hi as ->. rewrite Hx. split; [reflexivity | now left].
  - destruct (IH i Hi Hx) as [H1 H2].
    destruct (f z); simpl; [split; [now rewrite H1 | now right] | now split].
Qed.

(** In a list with at most one element of a kind, removing that element
    leaves none. *)
Lemma omap_delete_last {A B : Type} (f : A -> option B) (l : list A) (i : nat)
    (x : A) (y : B) :
  l !! i = Some x -> f x = Some y -> (length (omap f l) <= 1)%nat ->
  omap f l = [y] /\ omap f (delete i l) = [].
Proof.
  intros Hi Hx Hlen. destruct (omap_delete_some f l i x y Hi Hx) as [H1 H2].
  destruct (omap f l) as [|y1 [|y2 rest]] eqn:Ho; simpl in *; try lia.
  destruct H2 as [-> | []]. split; [reflexivity |].
  destruct (omap f (delete i l)); [reflexivity | simpl in H1; lia].
Qed.

(** The effects of the loop over the transactions are none of the block
    loop's, and neither are its promises. *)
Lemma creation_effects_neutral (es : list Effect) (ph : option LoopPhase) :
  Forall creation_effect es -> fold_left loop_step es ph = ph.
Proof.
  intros H. revert ph. induction H as [|e es He _ IH]; intros ph;
    [reflexivity |].
  cbn [fold_left]. rewrite IH.
  destruct ph as [[| |]|]; [| | | reflexivity];
    destruct e as [[]| | | | | | | | | |]; try destruct He; reflexivity.
Qed.

Lemma creation_promises_neutral (tries : Z) (ps : list Pending) :
  Forall (fun p => exists task h a, p = await_getCode task h a tries) ps ->
  omap block_promise ps = [] /\ omap probe_promise ps = [].
Proof.
  induction 1 as [|p ps (task & h & a & ->) _ [IH1 IH2]]; [now split |].
  simpl. change (list_omap Pending Js.number block_promise)
    with (@omap list _ Pending Js.number block_promise).
  change (list_omap Pending unit probe_promise)
    with (@omap list _ Pending unit probe_promise).
  now split.
Qed.

(** A turn that touches nothing of the block loop keeps the invariant. *)
Lemma loop_invariant_neutral (m m' : t) :
  (provider m <> None -> provider m' <> None) ->
  loop_phase (trace m') = loop_phase (trace m) ->
  block_promises m' = block_promises m ->
  block_timers m' = block_timers m ->
  probes m' = probes m ->
  loop_invariant m -> loop_invariant m'.
Proof.
  unfold loop_invariant. intros Hp -> -> -> ->.
  destruct (loop_phase (trace m)) as [[| |]|]; intuition.
Qed.

Lemma loop_step_neutral (ph : option LoopPhase) (e : Effect) :
  loop_effect e = false -> loop_step ph e = ph.
Proof.
  destruct ph as [[| |]|], e as [[]| | | | | | | | | |]; cbn; intros H;
    congruence.
Qed.

(** Closes [loop_invariant m'] for an [m'] that differs from [m] by effects,
    timers and promises that are none of the block loop's. *)
Ltac neutral Hinv :=
  refine (loop_invariant_neutral _ _ _ _ _ _ _ Hinv);
  [ state_simpl; try (intros _; discriminate); auto
  | unfold loop_phase; state_simpl; rewrite ?fold_left_app;
    cbn [fold_left]; rewrite ?loop_step_neutral by reflexivity; reflexivity
  | unfold block_promises; state_simpl; rewrite ?omap_app;
    repeat match goal with
      | H : inflight ?m !! ?i = Some ?p |- _ =>
          rewrite ?(omap_delete_none block_promise _ _ _ H) by reflexivity
      end;
    cbn [omap list_omap block_promise];
    rewrite ?app_nil_r; reflexivity
  | unfold block_timers; state_simpl; rewrite ?omap_app;
    repeat match goal with
      | H : timers ?m !! ?i = Some ?p |- _ =>
          rewrite ?(omap_delete_none block_timer _ _ _ H) by reflexivity
      end;
    cbn [omap list_omap block_timer handler];
    rewrite ?app_nil_r; reflexivity
  | unfold probes; state_simpl; rewrite ?omap_app;
    repeat match goal with
      | H : inflight ?m !! ?i = Some ?p |- _ =>
          rewrite ?(omap_delete_none probe_promise _ _ _ H) by reflexivity
      end;
    cbn [omap list_omap probe_promise];
    rewrite ?app_nil_r; reflexivity ].

Lemma creation_effects_no_getBlock (es : list Effect) (n : Js.number) :
  Forall creation_effect es -> ~ In (GetBlock n) es.
Proof.
  intros H Hin. rewrite Forall_forall in H.
  apply list_elem_of_In in Hin. exact (H _ Hin).
Qed.

(** The request for a block settles, in any state of a monitor whose
    provider is set: the turn hands to [mySetTimeout] one invocation of
    [processBlock], after the pause as the turn has left it, and requests
    no block itself. When the request was rejected, or something was thrown
    while the block was gone through, [Monitor.Error.ProcessingBlock] is
    triggered and the invocation is for the same block; otherwise it is for
    the same block after [null] and for the next one after a block. *)
Lemma getBlock_settled_schedules (i : nat) (blockNumber : Js.number)
    (r : Js.Settled (option Block)) (repo : Repository) (throws : Throws)
    (m : t) :
  provider m <> None ->
  inflight m !! i = Some (await_getBlock blockNumber) ->
  let m' := step W (settle i (block_response r repo throws)) m in
  exists (failure : option Js.Error) (es : list Effect),
    timers m'
    = timers m
      ++ (if running m
          then [mkTimer
                  (processBlock_handler
                     (match failure with
                      | None => next_block blockNumber r
                      | Some _ => blockNumber
                      end))
                  (getBlockPause m')]
          else [])
    /\ trace m'
       = trace m
         ++ GetBlockSettled blockNumber r
            :: es ++ processing_error failure (chainIdString m) blockNumber
    /\ Forall (fun e => loop_effect e = false) es
    /\ match r with
       | Js.Rejected err => failure = Some err
       | Js.Fulfilled None => failure = None
       | Js.Fulfilled (Some _) =>
           match failure with
           | None => True
           | Some err => exists c, throws c = Some err
           end
       end.
Proof.
  intros Hp Hi. cbn [step]. rewrite Hi. cbn [resume].
  assert (Hp' : provider (set_inflight (delete i (inflight m)) m) <> None)
    by exact Hp.
  destruct r as [[b|] | err].
  - destruct (processBlock_settled_block W repo throws blockNumber b _ Hp')
      as (es & ps & k & thrown & -> & He & _ & Hall).
    pose proof (prefix_Forall _ _ _ He (creation_effects_kind W _ _ _ _))
      as Hkind.
    exists thrown, (Trigger (Monitor_ProcessingBlock blockNumber
                               (chainIdString m)
                               (getBlockPause (adaptBlockPause W decrease m)))
                    :: es).
    unfold mySetTimeout, adaptBlockPause. state_simpl.
    split; [destruct thrown, (running m); state_simpl; rewrite ?app_nil_r;
            reflexivity |].
    split; [destruct (running m); state_simpl; reflexivity |].
    split.
    + apply Forall_cons_2; [reflexivity |].
      eapply Forall_impl; [exact Hkind |].
      intros [[]| | | | | | | | | |] []; reflexivity.
    + destruct thrown as [err|]; [exact Hall | exact I].
  - rewrite processBlock_settled_null.
    exists None, []. unfold mySetTimeout, adaptBlockPause. state_simpl.
    split; [destruct (running m); state_simpl; rewrite ?app_nil_r;
            reflexivity |].
    split; [destruct (running m); state_simpl; reflexivity |].
    split; [constructor | reflexivity].
  - rewrite processBlock_settled_rejected.
    exists (Some err), []. unfold mySetTimeout. state_simpl.
    split; [destruct (running m); state_simpl; rewrite ?app_nil_r;
            reflexivity |].
    split; [destruct (running m); state_simpl; reflexivity |].
    split; [constructor | reflexivity].
Qed.

(** A timer of [processBlock] expires: the block is the one the loop was to
    ask for next, and it is requested. *)
Lemma fire_block_timer_loop (i : nat) (blockNumber : Js.number) (d : Q)
    (m : t) :
  loop_invariant m ->
  timers m !! i = Some (mkTimer (processBlock_handler blockNumber) d) ->
  let m' := step W (fire i) m in
  loop_phase (trace m) = Some (loop_resolved blockNumber)
  /\ provider m' <> None
  /\ trace m' = trace m ++ [GetBlock blockNumber]
  /\ block_promises m' = [blockNumber]
  /\ block_timers m' = []
  /\ probes m' = []
  /\ loop_phase (trace m') = Some (loop_requested blockNumber).
Proof.
  intros Hinv Hi. cbn [step]. rewrite Hi. cbn [handler].
  unfold run_handler, processBlock. state_simpl.
  assert (Hbt : block_timer (mkTimer (processBlock_handler blockNumber) d)
                = Some blockNumber) by reflexivity.
  destruct (omap_delete_some block_timer _ _ _ _ Hi Hbt) as [Hlen Hin].
  fold (block_timers m) in Hlen, Hin.
  unfold loop_invariant in Hinv.
  destruct (loop_phase (trace m)) as [[| n' | next]|] eqn:Hph;
    [| | | contradiction].
  - destruct Hinv as (_ & Hbt0 & _). rewrite Hbt0 in Hin. destruct Hin.
  - destruct Hinv as (_ & _ & Hbt0 & _). rewrite Hbt0 in Hin. destruct Hin.
  - destruct Hinv as (Hp & Hbp & Hpr & [Hbt0 | Hbt0]);
      rewrite Hbt0 in Hin, Hlen; [destruct Hin |].
    destruct Hin as [<- | []].
    destruct (provider m) eqn:Hpm; [| now destruct Hp].
    unfold loop_phase in *. state_simpl.
    rewrite fold_left_app, Hph. cbn [fold_left loop_step].
    destruct (decide (next = next)) as [_ | Hne]; [| now destruct Hne].
    unfold block_promises, block_timers, probes in *. state_simpl.
    rewrite !omap_app, Hbp, Hpr. cbn [length] in Hlen.
    split; [reflexivity |]. split; [congruence |]. split; [reflexivity |].
    split; [reflexivity |]. split; [| split; reflexivity].
    destruct (omap block_timer (delete i (timers m)));
      [reflexivity | discriminate Hlen].
Qed.

Lemma fold_loop_neutral (es : list Effect) (ph : option LoopPhase) :
  Forall (fun e => loop_effect e = false) es ->
  fold_left loop_step es ph = ph.
Proof.
  intros H. revert ph. induction H as [|e es He _ IH]; intros ph;
    [reflexivity |].
  cbn [fold_left]. now rewrite loop_step_neutral, IH.
Qed.

(** The request for a block settles: it was the one request out, and what
    is scheduled, if the monitor is running, is the block the protocol
    asks for next. *)
Lemma getBlock_settled_loop (i : nat) (blockNumber : Js.number)
    (r : Js.Settled (option Block)) (repo : Repository) (throws : Throws)
    (m : t) :
  loop_invariant m ->
  inflight m !! i = Some (await_getBlock blockNumber) ->
  let m' := step W (settle i (block_response r repo throws)) m in
  exists next,
    loop_phase (trace m) = Some (loop_requested blockNumber)
    /\ provider m' <> None
    /\ loop_phase (trace m') = Some (loop_resolved next)
    /\ block_promises m' = []
    /\ probes m' = []
    /\ block_timers m' = (if running m then [next] else []).
Proof.
  intros Hinv Hi.
  assert (Hbp' : block_promise (await_getBlock blockNumber)
                 = Some blockNumber) by reflexivity.
  assert (Hpn : probe_promise (await_getBlock blockNumber) = None)
    by reflexivity.
  pose proof (omap_delete_none probe_promise _ _ _ Hi Hpn) as Hdel.
  destruct (omap_delete_some block_promise _ _ _ _ Hi Hbp') as [_ Hin].
  fold (block_promises m) in Hin.
  unfold loop_invariant in Hinv.
  destruct (loop_phase (trace m)) as [[| n' | next]|] eqn:Hph;
    [| | | contradiction].
  - destruct Hinv as (Hbp & _). rewrite Hbp in Hin. destruct Hin.
  - destruct Hinv as (Hp & Hbp & Hbt & Hpr).
    assert (Hlen : (length (omap block_promise (inflight m)) <= 1)%nat)
      by (fold (block_promises m); rewrite Hbp; cbn; lia).
    destruct (omap_delete_last block_promise _ _ _ _ Hi Hbp' Hlen)
      as [Hone Hnone].
    fold (block_promises m) in Hone. rewrite Hbp in Hone.
    injection Hone as ->.
    destruct (getBlock_settled_schedules i blockNumber r repo throws m Hp Hi)
      as (failure & es & Htm & Htr & Hes & _).
    cbv zeta in *.
    set (m' := step W (settle i (block_response r repo throws)) m) in *.
    exists (match failure with
            | None => next_block blockNumber r
            | Some _ => blockNumber
            end).
    split; [reflexivity |].
    assert (Hpm : provider m' = provider m
                  /\ block_promises m' = [] /\ probes m' = []).
    { subst m'. cbn [step]. rewrite Hi. cbn [resume].
      assert (Hp' : provider (set_inflight (delete i (inflight m)) m)
                    <> None) by exact Hp.
      unfold block_promises, probes in *.
      destruct r as [[b|] | err].
      - destruct (processBlock_settled_block W repo throws blockNumber b _
                    Hp') as (es' & ps & k & thrown & -> & _ & Hps & _).
        pose proof (prefix_Forall _ _ _ Hps
                      (creation_promises_kind W _ _ _ _)) as Hkind.
        destruct (creation_promises_neutral _ _ Hkind) as [Hc1 Hc2].
        unfold mySetTimeout, adaptBlockPause. state_simpl.
        destruct (running m); state_simpl;
          rewrite !omap_app, Hdel, Hnone, Hpr, Hc1, Hc2; auto.
      - rewrite processBlock_settled_null.
        unfold mySetTimeout, adaptBlockPause. state_simpl.
        destruct (running m); state_simpl; rewrite Hdel, Hnone, Hpr; auto.
      - rewrite processBlock_settled_rejected.
        unfold mySetTimeout. state_simpl.
        destruct (running m); state_simpl; rewrite Hdel, Hnone, Hpr; auto. }
    destruct Hpm as (Hpm & Hbp1 & Hpr1).
    split; [congruence |].
    split; [| split; [exact Hbp1 | split; [exact Hpr1 |]]].
    + rewrite Htr. unfold loop_phase in *.
      rewrite fold_left_app, Hph. cbn [fold_left loop_step].
      destruct (decide (blockNumber = blockNumber)) as [_ | Hne];
        [| now destruct Hne].
      rewrite fold_left_app. rewrite (fold_loop_neutral es) by exact Hes.
      destruct failure; reflexivity.
    + unfold block_timers in *. rewrite Htm, omap_app, Hbt.
      destruct (running m); reflexivity.
  - destruct Hinv as (_ & Hbp & _). rewrite Hbp in Hin. destruct Hin.
Qed.

(** Every turn of the event loop other than a call of [start] keeps the
    invariant of the block loop. *)
Lemma step_loop_invariant (l : Label) (m : t) :
  l <> call_start -> loop_invariant m -> loop_invariant (step W l m).
Proof.
  intros Hl Hinv. destruct l as [| | i | i r]; cbn [step];
    [now destruct Hl | | |].
  - unfold stop. neutral Hinv.
  - destruct (timers m !! i) as [[h d]|] eqn:Hi; [| exact Hinv].
    cbn [handler].
    destruct h as [n | task h a retriesLeft].
    + destruct (fire_block_timer_loop i n d m Hinv Hi)
        as (_ & Hp & Htr & Hbp & Hbt & Hpr & Hph).
      cbn [step] in Hp, Htr, Hbp, Hbt, Hpr, Hph.
      rewrite Hi in Hp, Htr, Hbp, Hbt, Hpr, Hph.
      cbn [handler] in Hp, Htr, Hbp, Hbt, Hpr, Hph.
      unfold loop_invariant. rewrite Hph. auto.
    + unfold run_handler, processBytecode. state_simpl.
      destruct (retriesLeft <=? 0); [| destruct (provider m) eqn:Hp];
        neutral Hinv.
  - destruct (inflight m !! i) as [p|] eqn:Hi; [| exact Hinv].
    destruct p, r; cbn [resume]; try exact Hinv.
    + (* the probe of start *)
      match type of Hi with
      | _ = Some ?p =>
          assert (Hpp : probe_promise p = Some tt) by reflexivity;
          assert (Hbn : block_promise p = None) by reflexivity
      end.
      pose proof (omap_delete_none block_promise _ _ _ Hi Hbn) as Hdel.
      unfold loop_invariant in Hinv |- *.
      destruct (loop_phase (trace m)) as [[| n' | next]|] eqn:Hph;
        [| | | contradiction].
      * destruct Hinv as (Hbp & Hbt & Hlen).
        destruct (omap_delete_last probe_promise _ _ _ _ Hi Hpp Hlen)
          as [_ Hnone].
        unfold getBlockNumber_settled, processBlock, start_loop, start_end.
        state_simpl. unfold loop_phase, block_promises, block_timers, probes
          in *.
        destruct r as [lastBlockNumber | err].
        -- state_simpl. rewrite !fold_left_app, Hph, !omap_app, Hdel, Hbp,
             Hnone. cbn. auto.
        -- destruct rest as [|u rest], found; state_simpl;
             rewrite ?fold_left_app, Hph, ?omap_app, Hdel, Hbp, Hnone; cbn;
             auto.
      * destruct Hinv as (_ & _ & _ & Hpr).
        destruct (omap_delete_some probe_promise _ _ _ _ Hi Hpp) as [_ Hin].
        fold (probes m) in Hin. rewrite Hpr in Hin. destruct Hin.
      * destruct Hinv as (_ & _ & Hpr & _).
        destruct (omap_delete_some probe_promise _ _ _ _ Hi Hpp) as [_ Hin].
        fold (probes m) in Hin. rewrite Hpr in Hin. destruct Hin.
    + (* getBlock *)
      destruct (getBlock_settled_loop i blockNumber r repo throws m Hinv Hi)
        as (next & _ & Hp & Hph & Hbp & Hpr & Hbt).
      cbn [step] in Hp, Hph, Hbp, Hpr, Hbt.
      rewrite Hi in Hp, Hph, Hbp, Hpr, Hbt.
      cbn [resume] in Hp, Hph, Hbp, Hpr, Hbt.
      unfold loop_invariant. rewrite Hph.
      split; [exact Hp |]. split; [exact Hbp |]. split; [exact Hpr |].
      rewrite Hbt. destruct (running m); auto.
    + unfold processBytecode_settled, mySetTimeout. state_simpl.
      destruct r as [bytecode | err].
      * destruct (decide (bytecode = "0x")).
        -- destruct (running m); neutral Hinv.
        -- destruct (decodeSourceAddress W bytecode); neutral Hinv.
      * destruct (running m); neutral Hinv.
    + unfold verifyAndStore. neutral Hinv.
    + unfold verifyDeployed_settled, verifyAndStore_catch.
      destruct r; neutral Hinv.
    + unfold storeMatch_settled, verifyAndStore_catch, emit.
      destruct r; [destruct (throws (emit_call _ _ _)) |]; neutral Hinv.
Qed.


(** [start] on a fresh monitor establishes it. *)
Lemma start_loop_invariant (chain : SourcifyChain) :
  loop_invariant (start W (new W chain)).
Proof.
  unfold start. cbn [new sourcifyChain set_running rpc].
  unfold start_loop, start_end, loop_invariant.
  destruct (rpc chain); cbn; auto.
Qed.


End BlockOrder.

(** ** The properties at work on the sample monitor *)

(** Runs the model. *)
Ltac evaluate :=
  repeat match goal with |- _ /\ _ => split end; vm_compute; reflexivity.



(** What the turn leaves when the listener throws. *)
Example block_listener_fails :
  trace (step Sample.defaults
           (settle 0 (block_response (Js.Fulfilled (Some Sample.block))
                        Sample.empty_repo Sample.block_listener_throws))
           Sample.requested)
  = trace Sample.requested
    ++ [GetBlockSettled (Js.Int 100) (Js.Fulfilled (Some Sample.block));
        Trigger (Monitor_ProcessingBlock (Js.Int 100) "1" (100000 # 11));
        Trigger (Monitor_Error_ProcessingBlock "listener failed" "at listener"
                   "1" (Js.Int 100))]
  /\ inflight (step Sample.defaults
                 (settle 0 (block_response (Js.Fulfilled (Some Sample.block))
                              Sample.empty_repo Sample.block_listener_throws))
                 Sample.requested)
     = [].
Proof. evaluate. Qed.



(** With the default of three tries, the task of the sample creation stays
    within them while the node keeps answering that there is no code. *)
Lemma getCode_calls_bounded_witness :
  1 <= initialGetBytecodeTries (new Sample.defaults Sample.chain)
  /\ Z.of_nat
       (getCode_calls 0
          (trace (run Sample.defaults Sample.retries
                    (new Sample.defaults Sample.chain))))
     <= initialGetBytecodeTries (new Sample.defaults Sample.chain).
Proof.
  assert (H : 1 <= initialGetBytecodeTries (new Sample.defaults Sample.chain))
    by (vm_compute; discriminate).
  split; [exact H |].
  exact (proj1 (getCode_calls_bounded Sample.defaults Sample.chain
                  Sample.retries 0 H)).
Defined.

(** The bound is reached: three calls, and the fourth expiry of the timer
    does nothing. *)
Example three_tries :
  getCode_calls 0
    (trace (run Sample.defaults Sample.retries
              (new Sample.defaults Sample.chain)))
  = 3%nat
  /\ inflight (run Sample.defaults Sample.retries
                 (new Sample.defaults Sample.chain))
     = []
  /\ block_timers (run Sample.defaults Sample.retries
                     (new Sample.defaults Sample.chain))
     = [Js.Int 101]
  /\ length (timers (run Sample.defaults Sample.retries
                       (new Sample.defaults Sample.chain)))
     = 1%nat.
Proof. evaluate. Qed.



(** What the block brings about when nobody has verified the creation, and
    when somebody has. *)
Example creation_not_verified :
  trace Sample.retrieving
  = trace Sample.requested
    ++ [GetBlockSettled (Js.Int 100) (Js.Fulfilled (Some Sample.block));
        Trigger (Monitor_ProcessingBlock (Js.Int 100) "1" (100000 # 11));
        Trigger (Monitor_NewContract "0xAA#0" "1");
        GetCode 0 "0xAA#0"]
  /\ inflight Sample.retrieving = [await_getCode 0 "0xhash1" "0xAA#0" 2]
  /\ block_timers Sample.retrieving = [Js.Int 101].
Proof. evaluate. Qed.

Example creation_already_verified :
  trace (step Sample.defaults
           (settle 0 (block_response (Js.Fulfilled (Some Sample.block))
                        Sample.full_repo all_return))
           Sample.requested)
  = trace Sample.requested
    ++ [GetBlockSettled (Js.Int 100) (Js.Fulfilled (Some Sample.block));
        Trigger (Monitor_ProcessingBlock (Js.Int 100) "1" (100000 # 11));
        Trigger (Monitor_AlreadyVerified "0xAA#0" "1");
        Emit "contract-already-verified" 1 "0xAA#0"]
  /\ inflight (step Sample.defaults
                 (settle 0 (block_response (Js.Fulfilled (Some Sample.block))
                              Sample.full_repo all_return))
                 Sample.requested)
     = [].
Proof. evaluate. Qed.

(** The first attempt for the sample creation was made with three tries
    left; its promise is the one in flight. *)
Lemma getCode_outcomes_witness :
  0 < 3
  /\ provider Sample.requested <> None
  /\ inflight Sample.retrieving !! 0%nat
     = Some (await_getCode 0 "0xhash1" "0xAA#0" (3 - 1))
  /\ timers (step Sample.defaults Sample.no_code Sample.retrieving)
     = (if running Sample.retrieving
        then timers Sample.retrieving
             ++ [mkTimer (processBytecode_handler 0 "0xhash1" "0xAA#0" (3 - 1))
                   (getBytecodeRetryPause Sample.retrieving)]
        else timers Sample.retrieving).
Proof.
  assert (H1 : 0 < 3) by reflexivity.
  assert (H2 : provider Sample.requested <> None)
    by (vm_compute; discriminate).
  assert (H3 : inflight Sample.retrieving !! 0%nat
               = Some (await_getCode 0 "0xhash1" "0xAA#0" (3 - 1)))
    by (vm_compute; reflexivity).
  split; [exact H1 |]. split; [exact H2 |]. split; [exact H3 |].
  exact (proj1 (proj1 (proj2 (getCode_outcomes Sample.defaults 0 "0xhash1"
                                "0xAA#0" 3 Sample.requested 0
                                Sample.retrieving H1 H2 H3)))).
Defined.

(** C6, as stated, fails: the sample monitor is stopped while [getCode] is in
    flight for the sample creation; the answer ["0x"] arrives, and so does a
    rejection, and the task is not scheduled again. *)
Lemma stopped_task_not_rescheduled :
  inflight Sample.abandoned !! 0%nat
  = Some (await_getCode 0 "0xhash1" "0xAA#0" 2)
  /\ running Sample.abandoned = false
  /\ timers (step Sample.defaults Sample.no_code Sample.abandoned)
     = timers Sample.abandoned
  /\ ~ rescheduled Sample.abandoned
        (step Sample.defaults Sample.no_code Sample.abandoned)
        0 "0xhash1" "0xAA#0" 2
  /\ ~ rescheduled Sample.abandoned
        (step Sample.defaults
           (settle 0 (code_response (Js.Rejected Sample.refused)))
           Sample.abandoned)
        0 "0xhash1" "0xAA#0" 2.
Proof.
  split; [vm_compute; reflexivity |].
  split; [vm_compute; reflexivity |].
  split; [vm_compute; reflexivity |].
  split; intros H; unfold rescheduled in H; vm_compute in H; discriminate H.
Qed.

(** The three answers to [getCode], on the sample task. *)
Example code_not_there_yet :
  timers (step Sample.defaults Sample.no_code Sample.retrieving)
  = timers Sample.retrieving
    ++ [mkTimer (processBytecode_handler 0 "0xhash1" "0xAA#0" 2) 5000%Q]
  /\ trace (step Sample.defaults Sample.no_code Sample.retrieving)
     = trace Sample.retrieving.
Proof. evaluate. Qed.

Example code_malformed :
  trace (step Sample.defaults (settle 0 (code_response (Js.Fulfilled "0xfe")))
           Sample.retrieving)
  = trace Sample.retrieving
    ++ [Trigger (Monitor_Error_ProcessingBytecode "invalid CBOR"
                   "at bytecodeDecode" "1" "0xAA#0")]
  /\ timers (step Sample.defaults
               (settle 0 (code_response (Js.Fulfilled "0xfe")))
               Sample.retrieving)
     = timers Sample.retrieving
  /\ inflight (step Sample.defaults
                 (settle 0 (code_response (Js.Fulfilled "0xfe")))
                 Sample.retrieving)
     = [].
Proof. evaluate. Qed.

Example code_unreachable :
  trace (step Sample.defaults
           (settle 0 (code_response (Js.Rejected Sample.refused)))
           Sample.retrieving)
  = trace Sample.retrieving
    ++ [Trigger (Monitor_Error_GettingBytecode "connection refused"
                   "at fetch" "1" "0xAA#0")]
  /\ timers (step Sample.defaults
               (settle 0 (code_response (Js.Rejected Sample.refused)))
               Sample.retrieving)
     = timers Sample.retrieving
       ++ [mkTimer (processBytecode_handler 0 "0xhash1" "0xAA#0" 2) 5000%Q].
Proof. evaluate. Qed.

(** A null block at the default pause and factor: block 100 again, after
    11000 ms. *)
Example null_block_backs_off :
  timers Sample.waiting
  = [mkTimer (processBlock_handler (Js.Int 100)) 11000%Q]
  /\ inflight Sample.waiting = [].
Proof. evaluate. Qed.

(** From 29000 ms, two null blocks in a row: 30000 ms both times. *)
Example pause_meets_ceiling :
  getBlockPause
    (adaptBlockPause Sample.near_ceiling increase
       (new Sample.near_ceiling Sample.chain))
  = 30000%Q
  /\ getBlockPause
       (adaptBlockPause Sample.near_ceiling increase
          (adaptBlockPause Sample.near_ceiling increase
             (new Sample.near_ceiling Sample.chain)))
     = 30000%Q.
Proof. evaluate. Qed.

(** The first endpoint refuses, the second answers. *)
Example second_endpoint_answers :
  trace (run Sample.defaults
           [call_start; probe_rejected Sample.refused; probe_fulfilled 100]
           (new Sample.defaults Sample.chain))
  = [GetBlockNumber (JsonRpcProvider "https://rpc.one" "Ethereum Mainnet" 1);
     LoggerInfo "https://rpc.one" Sample.refused;
     GetBlockNumber (WebSocketProvider "wss://rpc.two" "Ethereum Mainnet" 1);
     Trigger (Monitor_Started "1" "wss://rpc.two" 100 (Js.Int 100));
     GetBlock (Js.Int 100)].
Proof. vm_compute; reflexivity. Qed.

(** What [parseInt] makes of some strings; the fourth begins with a
    no-break space (U+00A0), the last is [2^53 + 1]. *)
Example parseInt_samples :
  Js.parseInt "  42abc" = Js.Int 42
  /\ Js.parseInt "latest" = Js.NaN
  /\ Js.parseInt "-0x1F" = Js.Int (-31)
  /\ Js.parseInt (String (ascii_of_N 194) (String (ascii_of_N 160) "700"))
     = Js.Int 700
  /\ Js.parseInt EmptyString = Js.NaN
  /\ Js.parseInt "1.5" = Js.Int 1
  /\ Js.parseInt "0x" = Js.NaN
  /\ Js.parseInt "9007199254740993" = Js.Int 9007199254740992.
Proof. evaluate. Qed.

(** * Further properties of the code

    What the constants, the constructors, [verifyAndStore] and the methods of
    the supervisor do beyond the claims, and what holds of the monitor over
    whole runs. *)

(** ** The tunables *)

Section Tunables.
Context (W : World).

Lemma beyond_pos : 0 < Js.beyond.
Proof. unfold Js.beyond. apply Z.pow_pos_nonneg; lia. Qed.

(** What [parseInt(...) || d] can be: [d], or what [parseInt] read if that
    is not zero. *)
Lemma env_int_nonzero (NAME : string) (d : Z) :
  d <> 0 -> env_int W NAME d <> 0.
Proof.
  intros Hd. unfold env_int.
  destruct (Js.parseInt _) as [|z|[]]; cbn [Js.or_default];
    [assumption | | pose proof beyond_pos; lia | pose proof beyond_pos; lia].
  destruct (z =? 0) eqn:Hz; [assumption | now apply Z.eqb_neq].
Qed.

Lemma inject_Z_nonzero (z : Z) : z <> 0 -> ~ (inject_Z z == 0)%Q.
Proof. unfold Qeq, inject_Z. cbn. lia. Qed.

(** X1: no tunable can be set to zero, or to something that is not a number:
    a variable that is unset, or whose value [parseInt] reads as [NaN] or as
    0, leaves the default in force. So the pauses and both limits are never
    0, and neither is the initial number of tries of a monitor. *)
Theorem tunables_never_zero (chain : SourcifyChain) :
  ~ (BLOCK_PAUSE_FACTOR W == 0)%Q
  /\ ~ (BLOCK_PAUSE_UPPER_LIMIT W == 0)%Q
  /\ ~ (BLOCK_PAUSE_LOWER_LIMIT W == 0)%Q
  /\ PROVIDER_TIMEOUT W <> 0
  /\ ~ (getBytecodeRetryPause (new W chain) == 0)%Q
  /\ ~ (getBlockPause (new W chain) == 0)%Q
  /\ initialGetBytecodeTries (new W chain) <> 0
  /\ (forall NAME d,
        match env W !! NAME with
        | None => True
        | Some s => Js.parseInt s = Js.NaN \/ Js.parseInt s = Js.Int 0
        end ->
        env_int W NAME d = d).
Proof.
  split.
  { unfold BLOCK_PAUSE_FACTOR.
    destruct (Js.parseInt _) as [|z|[]]; [discriminate | | |];
      [| apply inject_Z_nonzero; pose proof beyond_pos; lia ..].
    destruct (z =? 0) eqn:Hz; [discriminate |].
    apply inject_Z_nonzero. now apply Z.eqb_neq. }
  repeat split;
    try (apply inject_Z_nonzero, env_int_nonzero; discriminate);
    try (apply env_int_nonzero; discriminate).
  intros NAME d H. unfold env_int.
  destruct (env W !! NAME) as [s|]; [| reflexivity].
  cbn [Js.or_empty]. destruct H as [-> | ->]; reflexivity.
Qed.

(** X2: the factor is read with [parseInt], so when the module loads (its
    assertion holds) the factor is the default 1.1 or a whole number from 2
    up: a setting such as 1.5 is read as 1 and fails the assertion. *)
Theorem factor_default_or_integer :
  module_assert W ->
  BLOCK_PAUSE_FACTOR W = (11 # 10)%Q
  \/ exists z : Z, 2 <= z /\ BLOCK_PAUSE_FACTOR W = inject_Z z.
Proof.
  unfold module_assert, BLOCK_PAUSE_FACTOR.
  destruct (Js.parseInt _) as [|z|negative]; [now left | |].
  - destruct (z =? 0); [now left |].
    intros Hlt. right. exists z. split; [| reflexivity].
    unfold Qlt, inject_Z in Hlt. cbn in Hlt. lia.
  - intros Hlt. right. eexists. split; [| reflexivity].
    unfold Qlt, inject_Z in Hlt. cbn in Hlt. lia.
Qed.

(** X3: with the ceiling configured at or below the floor, the first update
    of the pause pins it to the floor and every later update leaves it
    there, whatever the operations and the pause before. *)
Theorem pause_pinned_to_floor (operation : Operation)
    (operations : list Operation) (m : t) :
  (BLOCK_PAUSE_UPPER_LIMIT W <= BLOCK_PAUSE_LOWER_LIMIT W)%Q ->
  (getBlockPause
     (fold_left (fun m op => adaptBlockPause W op m) operations
        (adaptBlockPause W operation m))
   == BLOCK_PAUSE_LOWER_LIMIT W)%Q.
Proof.
  intros Hul. revert operation m.
  induction operations as [|op ops IH]; intros operation m; cbn [fold_left].
  - unfold adaptBlockPause; cbn [getBlockPause set_getBlockPause].
    apply Q.max_r.
    apply Qle_trans with (BLOCK_PAUSE_UPPER_LIMIT W);
      [apply Q.le_min_r | exact Hul].
  - apply IH.
Qed.

End Tunables.

Lemma factor_default_or_integer_witness :
  module_assert Sample.defaults
  /\ (BLOCK_PAUSE_FACTOR Sample.defaults = (11 # 10)%Q
      \/ exists z : Z, 2 <= z /\ BLOCK_PAUSE_FACTOR Sample.defaults = inject_Z z).
Proof.
  assert (H : module_assert Sample.defaults) by (vm_compute; reflexivity).
  split; [exact H |].
  exact (factor_default_or_integer Sample.defaults H).
Defined.

Lemma pause_pinned_to_floor_witness :
  (BLOCK_PAUSE_UPPER_LIMIT Sample.low_ceiling
   <= BLOCK_PAUSE_LOWER_LIMIT Sample.low_ceiling)%Q
  /\ (getBlockPause
        (fold_left (fun m op => adaptBlockPause Sample.low_ceiling op m)
           [decrease; increase]
           (adaptBlockPause Sample.low_ceiling increase
              (new Sample.low_ceiling Sample.chain)))
      == BLOCK_PAUSE_LOWER_LIMIT Sample.low_ceiling)%Q.
Proof.
  assert (H : (BLOCK_PAUSE_UPPER_LIMIT Sample.low_ceiling
               <= BLOCK_PAUSE_LOWER_LIMIT Sample.low_ceiling)%Q)
    by (vm_compute; discriminate).
  split; [exact H |].
  exact (pause_pinned_to_floor Sample.low_ceiling increase
           [decrease; increase] (new Sample.low_ceiling Sample.chain) H).
Defined.

(** ** From bytecode to the signal of success *)

Section Verification.
Context (W : World).

(** Brings the sums of [accounts] in the goal and in the hypothesis [Hacc]
    to the sums over the state before. *)
Ltac account Hacc :=
  let address := fresh "address" in
  let H := fresh "H" in
  destruct Hacc as [Hacc H];
  split; [intros address; specialize (Hacc address) | clear Hacc];
  unfold verifications_accounted, stages_in_order in *;
  repeat match goal with
    | Hi : inflight ?m !! ?i = Some ?p |- _ =>
        try rewrite (sum_list_with_delete (verifying address) _ _ _ Hi)
          in Hacc;
        try rewrite (sum_list_with_delete awaits_getCode _ _ _ Hi) in H;
        try rewrite (sum_list_with_delete awaits_assemble _ _ _ Hi) in H;
        try rewrite (sum_list_with_delete awaits_verifyDeployed _ _ _ Hi)
          in H;
        try rewrite (sum_list_with_delete awaits_storeMatch _ _ _ Hi) in H;
        clear Hi
    end;
  state_simpl; rewrite ?sum_list_with_app;
  cbn [sum_list_with verify_call verified_signal verify_error verifying
       is_GetCode is_Assemble is_VerifyDeployed is_StoreMatch
       is_verified_signal awaits_getCode awaits_assemble
       awaits_verifyDeployed awaits_storeMatch] in *;
  repeat case_decide; subst; try discriminate; try congruence; lia.


Lemma processTransaction_accounts (repo : Repository) (throws : Throws)
    (tx : TransactionResponse) (m : t) :
  accounts m -> accounts (state_of (processTransaction W repo throws tx m)).
Proof.
  intros Hacc. transaction_cases throws; account Hacc.
Qed.

Lemma processTransactions_accounts (repo : Repository) (throws : Throws)
    (txs : list TransactionResponse) (m : t) :
  accounts m ->
  accounts (state_of (processTransactions W repo throws txs m)).
Proof.
  revert m. induction txs as [|tx rest IH]; intros m Hacc; [exact Hacc |].
  cbn [processTransactions]. unfold bind.
  pose proof (processTransaction_accounts repo throws tx m Hacc) as H1.
  destruct (processTransaction W repo throws tx m) as [m1 | m1 err];
    cbn [state_of] in *; [now apply IH | exact H1].
Qed.

(** Every turn of the event loop keeps both accounts. *)
Lemma step_accounts (l : Label) (m : t) :
  accounts m -> accounts (step W l m).
Proof.
  intros Hacc. destruct l as [| | i | i r]; cbn [step].
  - unfold start, start_loop, start_end. state_simpl.
    destruct (rpc (sourcifyChain m)); account Hacc.
  - unfold stop. account Hacc.
  - destruct (timers m !! i) as [[h d]|] eqn:Hi; [| exact Hacc].
    cbn [handler]. clear Hi.
    destruct h as [blockNumber | task0 creatorTxHash address0 retriesLeft];
      unfold run_handler, processBlock, processBytecode; state_simpl.
    + destruct (provider m); account Hacc.
    + destruct (retriesLeft <=? 0); [| destruct (provider m)];
        account Hacc.
  - destruct (inflight m !! i) as [p|] eqn:Hi; [| exact Hacc].
    destruct p, r; cbn [resume]; try exact Hacc.
    + unfold getBlockNumber_settled, processBlock, start_loop, start_end.
      state_simpl. destruct r as [lastBlockNumber | err].
      * account Hacc.
      * destruct rest, found; account Hacc.
    + unfold processBlock_settled, processBlock_finally, processBlock_catch.
      destruct r as [[b|] | err].
      * unfold processBlock_then, trigger, bind.
        destruct (throws (trigger_call _)).
        { unfold mySetTimeout, adaptBlockPause. state_simpl.
          destruct (running m); account Hacc. }
        match goal with
        | |- context [processTransactions W repo throws ?txs ?s] =>
            assert (H2 : accounts s)
              by (unfold adaptBlockPause; account Hacc);
            pose proof (processTransactions_accounts repo throws txs s H2)
              as H3;
            destruct (processTransactions W repo throws txs s)
              as [m3 | m3 err]
        end; cbn [state_of] in H3; clear Hi Hacc;
          unfold mySetTimeout; state_simpl;
          destruct (running m3); account H3.
      * unfold processBlock_then, mySetTimeout, adaptBlockPause. state_simpl.
        destruct (running m); account Hacc.
      * unfold mySetTimeout. state_simpl. destruct (running m); account Hacc.
    + unfold processBytecode_settled, mySetTimeout. state_simpl.
      destruct r as [bytecode | err].
      * destruct (decide (bytecode = "0x")).
        -- destruct (running m); account Hacc.
        -- destruct (decodeSourceAddress W bytecode); account Hacc.
      * destruct (running m); account Hacc.
    + unfold verifyAndStore. account Hacc.
    + unfold verifyDeployed_settled, verifyAndStore_catch.
      destruct r; account Hacc.
    + unfold storeMatch_settled, verifyAndStore_catch, emit.
      destruct r; [destruct (throws (emit_call _ _ _)) |]; account Hacc.
Qed.

Lemma run_accounts (ls : list Label) (m : t) :
  accounts m -> accounts (run W ls m).
Proof.
  revert m. induction ls as [|l ls IH]; intros m Hacc; [exact Hacc |].
  cbn [run fold_left]. apply IH, step_accounts, Hacc.
Qed.

Lemma new_accounts (chain : SourcifyChain) : accounts (new W chain).
Proof.
  split; [intros address; repeat split; cbn; lia |].
  repeat split; cbn; lia.
Qed.





(** X5: in any run of a monitor the stages come in order: it has signalled
    success no more often than it has called [storeMatch], called
    [storeMatch] no more often than [verifyDeployed], [verifyDeployed] no
    more often than [assemble], and [assemble] no more often than
    [getCode], what is still in flight at each stage counted in. *)
Theorem stages_never_skipped (chain : SourcifyChain) (ls : list Label) :
  stages_in_order (run W ls (new W chain)).
Proof. exact (proj2 (run_accounts ls _ (new_accounts chain))). Qed.

End Verification.


(** The same while a listener of the signal throws: the one call ends in
    the signal and in [Monitor.Error.VerifyError]. *)
Example signal_then_error :
  sum_list_with (verify_call "0xAA#0")
    (trace (run Sample.defaults Sample.verified_unheard
              (new Sample.defaults Sample.chain)))
  = 1%nat
  /\ sum_list_with (verified_signal "0xAA#0")
       (trace (run Sample.defaults Sample.verified_unheard
                 (new Sample.defaults Sample.chain)))
     = 1%nat
  /\ sum_list_with (verify_error "0xAA#0")
       (trace (run Sample.defaults Sample.verified_unheard
                 (new Sample.defaults Sample.chain)))
     = 1%nat
  /\ last (trace (run Sample.defaults Sample.verified_unheard
                    (new Sample.defaults Sample.chain)))
     = Some (Trigger (Monitor_Error_VerifyError "listener failed"
                        "at listener" "1" "0xAA#0")).
Proof.
  repeat match goal with |- _ /\ _ => split end; vm_compute; reflexivity.
Qed.

(** ** The provider *)

Section ProviderGuard.
Context (W : World).

Lemma creation_effects_thrown (es : list Effect) :
  Forall creation_effect es -> sum_list_with thrown es = 0%nat.
Proof.
  induction 1 as [|e es He _ IH]; [reflexivity |].
  cbn [sum_list_with]. rewrite IH.
  destruct e as [[]| | | | | | | | | |]; try destruct He; reflexivity.
Qed.

Lemma sum_thrown_In (tr : list Effect) (err : Js.Error) :
  sum_list_with thrown tr = 0%nat -> ~ In (Uncaught err) tr.
Proof.
  induction tr as [|e tr IH]; intros Hs; [intros [] |].
  cbn [sum_list_with] in Hs. intros [-> | Hin].
  - cbn in Hs. lia.
  - apply IH; [lia | exact Hin].
Qed.

(** Closes a goal about the provider and the count of what was thrown, [Hpm]
    saying which provider is set. *)
Ltac provided Hpm :=
  state_simpl; rewrite ?Hpm, ?sum_list_with_app;
  cbn [sum_list_with thrown]; split; (discriminate || lia).

(** A turn of the event loop of a monitor whose provider is set keeps the
    provider set and throws nothing. *)
Lemma step_provided (l : Label) (m : t) :
  provider m <> None ->
  provider (step W l m) <> None
  /\ sum_list_with thrown (trace (step W l m))
     = sum_list_with thrown (trace m).
Proof.
  intros Hp.
  destruct (provider m) as [p0|] eqn:Hpm; [clear Hp | now destruct Hp].
  destruct l as [| | i | i r]; cbn [step].
  - unfold start, start_loop, start_end. state_simpl.
    destruct (rpc (sourcifyChain m)); provided Hpm.
  - unfold stop. provided Hpm.
  - destruct (timers m !! i) as [[h d]|]; [| provided Hpm].
    cbn [handler].
    destruct h as [n | task h a retriesLeft];
      unfold run_handler, processBlock, processBytecode; state_simpl;
      rewrite ?Hpm; [| destruct (retriesLeft <=? 0)]; provided Hpm.
  - destruct (inflight m !! i) as [p|]; [| provided Hpm].
    destruct p, r; cbn [resume]; try provided Hpm.
    + unfold getBlockNumber_settled, processBlock, start_loop, start_end.
      state_simpl. destruct r as [lastBlockNumber | err].
      * provided Hpm.
      * destruct rest, found; provided Hpm.
    + assert (Hp' : provider (set_inflight (delete i (inflight m)) m) <> None)
        by (state_simpl; rewrite Hpm; discriminate).
      destruct r as [[b|] | err].
      * destruct (processBlock_settled_block W repo throws blockNumber b _
                    Hp') as (es & ps & k & failed & -> & He & _ & _).
        pose proof (creation_effects_thrown es
                      (prefix_Forall _ _ _ He
                         (creation_effects_kind W _ _ _ _))) as Hes.
        unfold mySetTimeout, adaptBlockPause, processing_error. state_simpl.
        destruct (running m), failed; state_simpl;
          rewrite ?Hpm, ?sum_list_with_app; cbn [sum_list_with thrown];
          rewrite ?sum_list_with_app, Hes; cbn [sum_list_with thrown];
          split; (discriminate || lia).
      * rewrite processBlock_settled_null.
        unfold mySetTimeout, adaptBlockPause. state_simpl.
        destruct (running m); provided Hpm.
      * rewrite processBlock_settled_rejected.
        unfold mySetTimeout. state_simpl.
        destruct (running m); provided Hpm.
    + unfold processBytecode_settled, mySetTimeout. state_simpl.
      destruct r as [bytecode | err].
      * destruct (decide (bytecode = "0x")).
        -- destruct (running m); provided Hpm.
        -- destruct (decodeSourceAddress W bytecode); provided Hpm.
      * destruct (running m); provided Hpm.
    + unfold verifyAndStore. provided Hpm.
    + unfold verifyDeployed_settled, verifyAndStore_catch.
      destruct r; provided Hpm.
    + unfold storeMatch_settled, verifyAndStore_catch, emit.
      destruct r; [destruct (throws (emit_call _ _ _)) |]; provided Hpm.
Qed.

(** Every turn of the event loop keeps the monitor guarded. *)
Lemma step_guarded (l : Label) (m : t) : guarded m -> guarded (step W l m).
Proof.
  intros [Hth Hnone]. unfold guarded.
  destruct (provider m) as [p0|] eqn:Hpm.
  - assert (Hp : provider m <> None) by (rewrite Hpm; discriminate).
    destruct (step_provided l m Hp) as [H1 H2].
    split; [now rewrite H2 | intros H; now destruct H1].
  - destruct (Hnone eq_refl) as [Htm Hprobes]. clear Hnone.
    assert (Hone : forall p : Pending,
               probe_promise p = Some tt ->
               Forall (fun p => probe_promise p = Some tt) [p])
      by (intros p Hp; constructor; [exact Hp | constructor]).
    destruct l as [| | i | i r]; cbn [step].
    + unfold start, start_loop, start_end. state_simpl.
      destruct (rpc (sourcifyChain m)); state_simpl;
        rewrite ?sum_list_with_app, Hth; cbn [sum_list_with thrown];
        (split; [lia |]); intros _; (split; [exact Htm |]);
        [exact Hprobes |].
      apply Forall_app. split; [exact Hprobes | now apply Hone].
    + unfold stop. state_simpl.
      rewrite ?sum_list_with_app, Hth; cbn [sum_list_with thrown].
      split; [lia |]. intros _. now split.
    + rewrite Htm, lookup_nil.
      split; [exact Hth |]. intros _. now split.
    + destruct (inflight m !! i) as [p|] eqn:Hi;
        [| split; [exact Hth | intros _; now split]].
      pose proof (Forall_lookup_1 _ _ _ _ Hprobes Hi) as Hprobe.
      pose proof (Forall_delete _ _ i Hprobes) as Hrest.
      destruct p; try discriminate Hprobe.
      destruct r; cbn [resume];
        try (split; [exact Hth | intros _; now split]).
      unfold getBlockNumber_settled, processBlock, start_loop, start_end.
      state_simpl. destruct r as [lastBlockNumber | err].
      * state_simpl. rewrite ?sum_list_with_app, Hth.
        cbn [sum_list_with thrown]. split; [lia | discriminate].
      * destruct rest, found; state_simpl;
          rewrite ?sum_list_with_app, Hth; cbn [sum_list_with thrown];
          (split; [lia |]); intros _; (split; [exact Htm |]);
          try exact Hrest;
          apply Forall_app; (split; [exact Hrest | now apply Hone]).
Qed.

Lemma run_guarded (ls : list Label) (m : t) :
  guarded m -> guarded (run W ls m).
Proof.
  revert m. induction ls as [|l ls IH]; intros m H; [exact H |].
  cbn [run fold_left]. apply IH, step_guarded, H.
Qed.

(** X6: in no run of a monitor, however its methods are called and whatever
    the provider, the fetcher and the services answer, is anything thrown
    out of a timer handler: the two errors "Provider not initialized" of
    [processBlock] and [processBytecode] cannot occur in one, since a timer
    is only ever registered once a provider is set. *)
Theorem provider_errors_unreachable (chain : SourcifyChain)
    (ls : list Label) (err : Js.Error) :
  ~ In (Uncaught err) (trace (run W ls (new W chain)))
  /\ (provider (run W ls (new W chain)) = None ->
      timers (run W ls (new W chain)) = []).
Proof.
  assert (H : guarded (run W ls (new W chain))).
  { apply run_guarded. split; [reflexivity |]. intros _. split; constructor. }
  destruct H as [H1 H2]. split.
  - now apply sum_thrown_In.
  - intros Hn. now destruct (H2 Hn).
Qed.

(** X7: a provider once set stays set through every turn of the event loop:
    [stop] does not release it, a later [start] whose endpoints all fail
    does not clear it. *)
Theorem provider_kept (ls : list Label) (m : t) :
  provider m <> None -> provider (run W ls m) <> None.
Proof.
  revert m. induction ls as [|l ls IH]; intros m Hp; [exact Hp |].
  cbn [run fold_left]. apply IH. now apply step_provided.
Qed.

End ProviderGuard.

(** The sample monitor is stopped, started again with both endpoints
    refusing, and still has the provider of its first start. *)
Lemma provider_kept_witness :
  provider Sample.requested <> None
  /\ provider
       (run Sample.defaults
          [call_stop; call_start; probe_rejected Sample.refused;
           probe_rejected Sample.refused]
          Sample.requested)
     <> None.
Proof.
  assert (H : provider Sample.requested <> None)
    by (vm_compute; discriminate).
  split; [exact H |].
  exact (provider_kept Sample.defaults
           [call_stop; call_start; probe_rejected Sample.refused;
            probe_rejected Sample.refused]
           Sample.requested H).
Defined.

(** ** Delays *)

Section Delays.
Context (W : World).

(** The loop over the transactions touches neither the chain nor a pause. *)
Lemma processTransactions_config (repo : Repository) (throws : Throws)
    (txs : list TransactionResponse) (m : t) :
  sourcifyChain (state_of (processTransactions W repo throws txs m))
  = sourcifyChain m
  /\ getBytecodeRetryPause (state_of (processTransactions W repo throws txs m))
     = getBytecodeRetryPause m
  /\ getBlockPause (state_of (processTransactions W repo throws txs m))
     = getBlockPause m.
Proof.
  revert m. induction txs as [|tx rest IH]; intros m; [now cbn |].
  cbn [processTransactions]. unfold bind.
  assert (H : sourcifyChain (state_of (processTransaction W repo throws tx m))
              = sourcifyChain m
              /\ getBytecodeRetryPause
                   (state_of (processTransaction W repo throws tx m))
                 = getBytecodeRetryPause m
              /\ getBlockPause
                   (state_of (processTransaction W repo throws tx m))
                 = getBlockPause m).
  { transaction_cases throws; now cbn. }
  destruct (processTransaction W repo throws tx m) as [m1 | m1 err];
    cbn [state_of] in *; [| exact H].
  destruct (IH m1) as (H1 & H2 & H3). destruct H as (H4 & H5 & H6).
  rewrite H1, H2, H3. auto.
Qed.

Ltac config_cases W Hconfig :=
  match goal with
  | |- context [step W ?l ?m] =>
      destruct l as [| | ?i | ?i ?r]; cbn [step answers_block]
  end;
  [ unfold start, start_loop, start_end; state_simpl;
    match goal with
    | |- context [rpc ?c] => destruct (rpc c); reflexivity
    end
  | reflexivity
  | match goal with
    | |- context [timers ?m !! ?i] =>
        destruct (timers m !! i) as [[[?n | ?task ?h ?a ?retriesLeft] ?d]|];
        [ | | reflexivity];
        cbn [handler]; unfold run_handler, processBlock, processBytecode;
        state_simpl;
        [| match goal with
           | |- context [?k <=? 0] => destruct (k <=? 0); [reflexivity |]
           end];
        destruct (provider m); reflexivity
    end
  | match goal with
    | |- context [inflight ?m !! ?i] =>
        destruct (inflight m !! i) as [?p|]
    end;
    [| match goal with
       | r : Response |- _ => destruct r as [| [[|]|] | | | |]; reflexivity
       end];
    match goal with
    | p : Pending, r : Response |- _ =>
        destruct p, r; cbn [resume]; try reflexivity;
        try (match goal with
             | r : Js.Settled _ |- _ => destruct r as [[|]|]; reflexivity
             end);
        try (match goal with
             | r : Js.Settled _ |- _ => destruct r; reflexivity
             end)
    end;
    [ unfold getBlockNumber_settled, processBlock, start_loop, start_end;
      state_simpl;
      match goal with
      | r : Js.Settled _ |- _ => destruct r; [reflexivity |]
      end;
      match goal with
      | rest : list _, found : bool |- _ => destruct rest, found; reflexivity
      | rest : list _, found : option _ |- _ =>
          destruct rest, found; reflexivity
      end
    | unfold processBlock_settled, processBlock_finally, processBlock_catch,
        processBlock_then, mySetTimeout, adaptBlockPause, trigger, bind;
      match goal with
      | r : Js.Settled _ |- _ => destruct r as [[?b|] | ?err]
      end;
      [ match goal with
        | |- context [?throws (trigger_call ?e)] =>
            destruct (throws (trigger_call e))
        end;
        [ state_simpl;
          match goal with
          | |- context [running ?m] => destruct (running m); reflexivity
          end |];
        match goal with
        | |- context [processTransactions W ?repo ?throws ?txs ?s] =>
            pose proof (processTransactions_config repo throws txs s)
              as Hconfig;
            destruct (processTransactions W repo throws txs s)
              as [?m3 | ?m3 ?e]
        end; cbn [state_of] in Hconfig; state_simpl;
        match goal with
        | |- context [running ?m3] => destruct (running m3)
        end; apply Hconfig
      | state_simpl;
        match goal with
        | |- context [running ?m] => destruct (running m); reflexivity
        end
      | state_simpl;
        match goal with
        | |- context [running ?m] => destruct (running m); reflexivity
        end ]
    | unfold processBytecode_settled, mySetTimeout; state_simpl;
      match goal with
      | r : Js.Settled _ |- _ => destruct r as [?bytecode | ?err]
      end;
      [ match goal with
        | |- context [decide (?b = ?c)] => destruct (decide (b = c))
        end;
        [ match goal with
          | |- context [running ?m] => destruct (running m); reflexivity
          end
        | match goal with
          | |- context [decodeSourceAddress W ?b] =>
              destruct (decodeSourceAddress W b); reflexivity
          end ]
      | match goal with
        | |- context [running ?m] => destruct (running m); reflexivity
        end ]
    | unfold storeMatch_settled, verifyAndStore_catch, emit;
      match goal with
      | r : Js.Settled _ |- _ => destruct r
      end;
      [ match goal with
        | |- context [?throws (emit_call ?s ?c ?a)] =>
            destruct (throws (emit_call s c a))
        end |]; reflexivity ] ].

Lemma step_chain (l : Label) (m : t) :
  sourcifyChain (step W l m) = sourcifyChain m.
Proof. config_cases W Hconfig. Qed.

(** X8: no turn of the event loop changes the chain of a monitor, its retry
    pause or its initial number of tries; and the pause between blocks
    changes only in a turn in which the provider answers a request for a
    block, where it becomes what [adaptBlockPause] makes of it: a rejected
    request, a bytecode task, [start] and [stop] leave the pace alone. *)
Theorem pace_changes_only_on_answers (l : Label) (m : t) :
  sourcifyChain (step W l m) = sourcifyChain m
  /\ getBytecodeRetryPause (step W l m) = getBytecodeRetryPause m
  /\ initialGetBytecodeTries (step W l m) = initialGetBytecodeTries m
  /\ getBlockPause (step W l m)
     = (if answers_block l m
        then match l with
             | settle _ (block_response (Js.Fulfilled None) _ _) =>
                 getBlockPause (adaptBlockPause W increase m)
             | _ => getBlockPause (adaptBlockPause W decrease m)
             end
        else getBlockPause m).
Proof.
  split; [| split; [| split; [apply step_tries |]]].
  - config_cases W Hconfig.
  - config_cases W Hconfig.
  - config_cases W Hconfig.
Qed.

(** With the limits in order the ceiling holds as well as the floor. *)
Lemma adaptBlockPause_ordered (operation : Operation) (m : t) :
  (BLOCK_PAUSE_LOWER_LIMIT W <= BLOCK_PAUSE_UPPER_LIMIT W)%Q ->
  within_limits W (getBlockPause (adaptBlockPause W operation m)).
Proof.
  intros Hlu. split; [apply adaptBlockPause_floor |].
  unfold adaptBlockPause; cbn [getBlockPause set_getBlockPause].
  apply Q.max_lub; [apply Q.le_min_r | exact Hlu].
Qed.

Lemma step_paced (chain : SourcifyChain) (l : Label) (m : t) :
  (BLOCK_PAUSE_LOWER_LIMIT W <= BLOCK_PAUSE_UPPER_LIMIT W)%Q ->
  delays_paced W chain m -> delays_paced W chain (step W l m).
Proof.
  intros Hlu (Hrp & Hp & Htm). unfold delays_paced.
  destruct l as [| | i | i r]; cbn [step].
  - unfold start, start_loop, start_end. state_simpl.
    destruct (rpc (sourcifyChain m)); state_simpl; auto.
  - cbn. auto.
  - destruct (timers m !! i) as [[h d]|]; [| auto].
    destruct h as [n | task h a retriesLeft]; cbn [handler];
      unfold run_handler, processBlock, processBytecode; state_simpl;
      [| destruct (retriesLeft <=? 0)]; try destruct (provider m);
      state_simpl; (split; [exact Hrp | split; [exact Hp |]]);
      apply Forall_delete; exact Htm.
  - destruct (inflight m !! i) as [p|]; [| auto].
    destruct p, r; cbn [resume]; auto.
    + unfold getBlockNumber_settled, processBlock, start_loop, start_end.
      state_simpl. destruct r; [auto |].
      destruct rest, found; state_simpl; auto.
    + unfold processBlock_settled, processBlock_finally, processBlock_catch,
        processBlock_then, mySetTimeout.
      destruct r as [[b|] | err].
      * pose proof (adaptBlockPause_ordered decrease m Hlu) as Hin.
        unfold trigger, bind. destruct (throws (trigger_call _)).
        { unfold adaptBlockPause in *. state_simpl.
          destruct (running m); state_simpl;
            (split; [exact Hrp | split; [right; exact Hin |]]);
            try exact Htm;
            (apply Forall_app_2; [exact Htm |]);
            (apply Forall_cons_2; [| apply Forall_nil_2]); right; exact Hin. }
        match goal with
        | |- context [processTransactions W repo throws ?txs ?s] =>
            destruct (processTransactions_config repo throws txs s)
              as (_ & H2 & H3);
            destruct (processTransactions_timers W repo throws txs s)
              as [H1 _];
            destruct (processTransactions W repo throws txs s)
              as [m3 | m3 e]
        end; cbn [state_of] in H1, H2, H3;
          change (getBlockPause m3
                  = getBlockPause (adaptBlockPause W decrease m)) in H3;
          rewrite <- H3 in Hin;
          unfold adaptBlockPause in H1, H2; state_simpl;
          destruct (running m3); state_simpl; rewrite ?H1, H2;
          (split; [exact Hrp | split; [right; exact Hin |]]);
          try exact Htm;
          (apply Forall_app_2; [exact Htm |]);
          (apply Forall_cons_2; [| apply Forall_nil_2]); right; exact Hin.
      * match goal with
        | |- context [adaptBlockPause W ?op ?s0] =>
            pose proof (adaptBlockPause_ordered op s0 Hlu) as Hin;
            assert (H1 : timers (adaptBlockPause W op s0) = timers m)
              by reflexivity;
            assert (H2 : getBytecodeRetryPause (adaptBlockPause W op s0)
                         = getBytecodeRetryPause m) by reflexivity;
            assert (H4 : running (adaptBlockPause W op s0) = running m)
              by reflexivity;
            destruct (adaptBlockPause W op s0) as [c pr ru rp bp tries tms
                                                     infl tr nt]
        end; state_simpl; subst;
          destruct (running m); state_simpl;
          (split; [exact Hrp | split; [right; exact Hin |]]);
          try exact Htm;
          (apply Forall_app_2; [exact Htm |]);
          (apply Forall_cons_2; [| apply Forall_nil_2]); right; exact Hin.
      * state_simpl. destruct (running m); state_simpl;
          (split; [exact Hrp | split; [exact Hp |]]);
          try exact Htm;
          (apply Forall_app_2; [exact Htm |]);
          (apply Forall_cons_2; [| apply Forall_nil_2]); exact Hp.
    + unfold processBytecode_settled, mySetTimeout. state_simpl.
      destruct r as [bytecode | err].
      * destruct (decide (bytecode = "0x")).
        -- destruct (running m); state_simpl;
             (split; [exact Hrp | split; [exact Hp |]]);
             try exact Htm;
             (apply Forall_app_2; [exact Htm |]);
             (apply Forall_cons_2; [| apply Forall_nil_2]); exact Hrp.
        -- destruct (decodeSourceAddress W bytecode); state_simpl; auto.
      * destruct (running m); state_simpl;
          (split; [exact Hrp | split; [exact Hp |]]);
          try exact Htm;
          (apply Forall_app_2; [exact Htm |]);
          (apply Forall_cons_2; [| apply Forall_nil_2]); exact Hrp.
    + destruct r; state_simpl; auto.
    + unfold storeMatch_settled, verifyAndStore_catch, emit.
      destruct r; [destruct (throws (emit_call _ _ _)) |]; state_simpl; auto.
Qed.

(** X9: with the limits in order, whatever the event loop does to a
    monitor, its pause between blocks is the [GET_BLOCK_PAUSE] the
    constructor read (which nothing compares with the limits) or lies
    between the limits, every timer of the block loop waits for such a
    pause, and every timer of a bytecode task waits for exactly
    [GET_BYTECODE_RETRY_PAUSE]. *)
Theorem delays_within_limits (chain : SourcifyChain) (ls : list Label) :
  (BLOCK_PAUSE_LOWER_LIMIT W <= BLOCK_PAUSE_UPPER_LIMIT W)%Q ->
  delays_paced W chain (run W ls (new W chain)).
Proof.
  intros Hlu.
  assert (H : forall m, delays_paced W chain m ->
                        delays_paced W chain (run W ls m)).
  { induction ls as [|l ls' IH]; intros m Hm; [exact Hm |].
    cbn [run fold_left]. change (fold_left _ ls' ?s) with (run W ls' s).
    apply IH, step_paced; assumption. }
  apply H. split; [reflexivity |]. split; [left; reflexivity | constructor].
Qed.

End Delays.

(** With the default limits, after a null block: the timer of the block loop
    waits for the adapted pause, within the limits. *)
Lemma delays_within_limits_witness :
  (BLOCK_PAUSE_LOWER_LIMIT Sample.defaults
   <= BLOCK_PAUSE_UPPER_LIMIT Sample.defaults)%Q
  /\ delays_paced Sample.defaults Sample.chain
       (run Sample.defaults
          [call_start; probe_fulfilled 100;
           settle 0 (block_response (Js.Fulfilled None) Sample.empty_repo
                       all_return)]
          (new Sample.defaults Sample.chain)).
Proof.
  assert (H : (BLOCK_PAUSE_LOWER_LIMIT Sample.defaults
               <= BLOCK_PAUSE_UPPER_LIMIT Sample.defaults)%Q)
    by (vm_compute; discriminate).
  split; [exact H |].
  exact (delays_within_limits Sample.defaults Sample.chain _ H).
Defined.

(** ** A loop that goes on *)

Section LoopAlive.
Context (W : World).

(** No turn but a call of [stop] clears the flag. *)
Lemma step_running (l : Label) (m : t) :
  l <> call_stop -> running m = true -> running (step W l m) = true.
Proof.
  intros Hl Hr. destruct l as [| | i | i r]; cbn [step];
    [| now destruct Hl | |].
  - unfold start, start_loop, start_end. state_simpl.
    destruct (rpc (sourcifyChain m)); reflexivity.
  - destruct (timers m !! i) as [[h d]|]; [| exact Hr].
    destruct h as [n | task h a retriesLeft]; cbn [handler];
      unfold run_handler, processBlock, processBytecode; state_simpl;
      [| destruct (retriesLeft <=? 0)]; try destruct (provider m);
      exact Hr.
  - destruct (inflight m !! i) as [p|]; [| exact Hr].
    destruct p, r; cbn [resume]; try exact Hr.
    + unfold getBlockNumber_settled, processBlock, start_loop, start_end.
      state_simpl. destruct r; [exact Hr |].
      destruct rest, found; exact Hr.
    + unfold processBlock_settled, processBlock_finally, processBlock_catch,
        processBlock_then, mySetTimeout, adaptBlockPause.
      destruct r as [[b|] | err].
      * unfold trigger, bind. destruct (throws (trigger_call _)).
        { state_simpl. rewrite Hr. exact Hr. }
        match goal with
        | |- context [processTransactions W repo throws ?txs ?s] =>
            destruct (processTransactions_timers W repo throws txs s)
              as [_ H2];
            destruct (processTransactions W repo throws txs s)
              as [m3 | m3 e]
        end; cbn [state_of] in H2; state_simpl;
          rewrite H2, Hr; state_simpl; rewrite H2; exact Hr.
      * state_simpl. rewrite Hr. exact Hr.
      * state_simpl. rewrite Hr. exact Hr.
    + unfold processBytecode_settled, mySetTimeout. state_simpl.
      rewrite Hr. destruct r as [bytecode | err]; [| exact Hr].
      destruct (decide (bytecode = "0x")); [exact Hr |].
      destruct (decodeSourceAddress W bytecode); exact Hr.
    + destruct r; exact Hr.
    + unfold storeMatch_settled, verifyAndStore_catch, emit.
      destruct r; [destruct (throws (emit_call _ _ _)) |]; exact Hr.
Qed.

Lemma probes_found (l : list Pending) :
  length (omap probe_promise l) = length (omap probe_found l).
Proof.
  induction l as [|p l IH]; [reflexivity |].
  destruct p; simpl;
    change (list_omap Pending unit probe_promise)
      with (@omap list _ Pending unit probe_promise) in *;
    change (list_omap Pending bool probe_found)
      with (@omap list _ Pending bool probe_found) in *;
    simpl; congruence.
Qed.

(** A turn that touches nothing of the block loop leaves it as alive as it
    was. *)
Lemma alive_phase_neutral (chain : SourcifyChain) (m m' : t) :
  (exists es, trace m' = trace m ++ es) ->
  loop_phase (trace m') = loop_phase (trace m) ->
  block_timers m' = block_timers m ->
  omap probe_found (inflight m') = omap probe_found (inflight m) ->
  alive_phase chain m -> alive_phase chain m'.
Proof.
  unfold alive_phase. intros [es Hes] -> -> ->.
  destruct (loop_phase (trace m)) as [[| |]|]; auto.
  intros [H | H]; [now left |].
  right. rewrite Hes. apply in_or_app. now left.
Qed.

Ltac alive_neutral Hph :=
  refine (alive_phase_neutral _ _ _ _ _ _ _ Hph);
  [ state_simpl; rewrite <- ?app_assoc;
    first [ eexists; reflexivity | exists []; symmetry; apply app_nil_r ]
  | unfold loop_phase; state_simpl; rewrite ?fold_left_app;
    cbn [fold_left]; rewrite ?loop_step_neutral by reflexivity; reflexivity
  | unfold block_timers; state_simpl; rewrite ?omap_app;
    repeat match goal with
      | H : timers ?m !! ?i = Some ?p |- _ =>
          rewrite ?(omap_delete_none block_timer _ _ _ H) by reflexivity
      end;
    cbn [omap list_omap block_timer handler];
    rewrite ?app_nil_r; reflexivity
  | state_simpl; rewrite ?omap_app;
    repeat match goal with
      | H : inflight ?m !! ?i = Some ?p |- _ =>
          rewrite ?(omap_delete_none probe_found _ _ _ H) by reflexivity
      end;
    cbn [omap list_omap probe_found];
    rewrite ?app_nil_r; reflexivity ].

Lemma step_alive (chain : SourcifyChain) (l : Label) (m : t) :
  l <> call_start -> l <> call_stop ->
  loop_alive chain m -> loop_alive chain (step W l m).
Proof.
  intros Hs Hst (Hc & Hr & Hli & Hph).
  split; [rewrite step_chain; exact Hc |].
  split; [apply step_running; assumption |].
  split; [apply step_loop_invariant; assumption |].
  destruct l as [| | i | i r]; cbn [step];
    [now destruct Hs | now destruct Hst | |].
  - destruct (timers m !! i) as [[h d]|] eqn:Hi; [| exact Hph].
    cbn [handler]. destruct h as [n | task h a retriesLeft].
    + destruct (fire_block_timer_loop W i n d m Hli Hi)
        as (_ & _ & _ & _ & _ & _ & Hph').
      cbn [step] in Hph'. rewrite Hi in Hph'. cbn [handler] in Hph'.
      unfold alive_phase. rewrite Hph'. exact I.
    + unfold run_handler, processBytecode. state_simpl.
      destruct (retriesLeft <=? 0); [| destruct (provider m) eqn:Hp];
        alive_neutral Hph.
  - destruct (inflight m !! i) as [p|] eqn:Hi; [| exact Hph].
    destruct p, r; cbn [resume]; try exact Hph.
    + (* the probe of start *)
      match type of Hi with
      | _ = Some ?p =>
          assert (Hpp : probe_promise p = Some tt) by reflexivity;
          assert (Hpf : probe_found p = Some found) by reflexivity
      end.
      destruct (omap_delete_some probe_promise _ _ _ _ Hi Hpp) as [_ Hin].
      fold (probes m) in Hin.
      destruct (omap_delete_some probe_found _ _ _ _ Hi Hpf) as [_ Hfound].
      unfold alive_phase in Hph |- *. unfold loop_invariant in Hli.
      destruct (loop_phase (trace m)) as [[| n' | next]|] eqn:Hphase;
        [| | | contradiction].
      * unfold getBlockNumber_settled, processBlock, start_loop, start_end.
        state_simpl. unfold loop_phase in *.
        destruct r as [lastBlockNumber | err].
        -- state_simpl. rewrite !fold_left_app, Hphase. cbn. exact I.
        -- destruct Hph as [Hone | Hcs].
           ++ rewrite Hone in Hfound. destruct Hfound as [<- | []].
              assert (Hlen : (length (omap probe_found (inflight m)) <= 1)%nat)
                by (rewrite Hone; cbn; lia).
              destruct (omap_delete_last probe_found _ _ _ _ Hi Hpf Hlen)
                as [_ Hnone].
              destruct rest as [|u rest]; state_simpl;
                rewrite ?fold_left_app, Hphase; cbn [fold_left loop_step].
              ** right. rewrite <- ?app_assoc. apply in_or_app. right.
                 cbn [app]. right. left.
                 unfold cant_start, chainIdString. state_simpl.
                 rewrite Hc. reflexivity.
              ** left. rewrite omap_app, Hnone. reflexivity.
           ++ destruct rest as [|u rest], found; state_simpl;
                rewrite ?fold_left_app, Hphase; cbn [fold_left loop_step];
                right; rewrite <- ?app_assoc; apply in_or_app; now left.
      * destruct Hli as (_ & _ & _ & Hpr). rewrite Hpr in Hin. destruct Hin.
      * destruct Hli as (_ & _ & Hpr & _). rewrite Hpr in Hin. destruct Hin.
    + (* getBlock *)
      destruct (getBlock_settled_loop W i blockNumber r repo throws m Hli Hi)
        as (next & _ & _ & Hph' & _ & _ & Hbt).
      cbn [step] in Hph', Hbt. rewrite Hi in Hph', Hbt.
      cbn [resume] in Hph', Hbt.
      unfold alive_phase. rewrite Hph', Hbt, Hr. reflexivity.
    + unfold processBytecode_settled, mySetTimeout. state_simpl.
      destruct r as [bytecode | err].
      * destruct (decide (bytecode = "0x")).
        -- destruct (running m); alive_neutral Hph.
        -- destruct (decodeSourceAddress W bytecode); alive_neutral Hph.
      * destruct (running m); alive_neutral Hph.
    + unfold verifyAndStore. alive_neutral Hph.
    + unfold verifyDeployed_settled, verifyAndStore_catch.
      destruct r; alive_neutral Hph.
    + unfold storeMatch_settled, verifyAndStore_catch, emit.
      destruct r; [destruct (throws (emit_call _ _ _)) |];
        alive_neutral Hph.
Qed.

Lemma run_alive (chain : SourcifyChain) (ls : list Label) (m : t) :
  Forall (fun l => l <> call_start /\ l <> call_stop) ls ->
  loop_alive chain m -> loop_alive chain (run W ls m).
Proof.
  intros Hls. revert m.
  induction Hls as [|l ls [Hl1 Hl2] Hls IH]; intros m Hinv; [exact Hinv |].
  cbn [run fold_left]. change (fold_left _ ls ?s) with (run W ls s).
  apply IH, step_alive; assumption.
Qed.

Lemma start_alive (chain : SourcifyChain) :
  loop_alive chain (start W (new W chain)).
Proof.
  split; [| split; [| split; [apply start_loop_invariant |]]].
  - unfold start. cbn [new sourcifyChain set_running].
    unfold start_loop, start_end. destruct (rpc chain); reflexivity.
  - unfold start. cbn [new sourcifyChain set_running].
    unfold start_loop, start_end. destruct (rpc chain); reflexivity.
  - unfold start. cbn [new sourcifyChain set_running].
    unfold start_loop, start_end, alive_phase, cant_start.
    destruct (rpc chain); simpl; [right; now left | left; reflexivity].
Qed.

(** X10: the block loop of a monitor that is started once and not stopped
    never dies out. After any sequence of turns of the event loop (timers
    expiring, promises settling with any answer) the flag is still up, and
    unless [start] has found no endpoint and triggered
    [Monitor.Error.CantStart], exactly one thing that carries the loop on is
    pending: a probe of [start], a request for a block, or a timer of
    [processBlock]. *)
Theorem block_loop_never_dies (chain : SourcifyChain) (ls : list Label) :
  Forall (fun l => l <> call_start /\ l <> call_stop) ls ->
  let m := run W ls (start W (new W chain)) in
  running m = true
  /\ (live_loops m = 1%nat \/ In (cant_start chain) (trace m)).
Proof.
  intros Hls m.
  destruct (run_alive chain ls _ Hls (start_alive chain))
    as (_ & Hr & Hli & Hph).
  fold m in Hr, Hli, Hph. split; [exact Hr |].
  unfold loop_invariant in Hli. unfold alive_phase in Hph.
  unfold live_loops.
  destruct (loop_phase (trace m)) as [[| n | next]|]; [| | | contradiction].
  - destruct Hli as (Hbp & Hbt & _). destruct Hph as [Hone | Hcs];
      [left | now right].
    unfold probes. rewrite probes_found, Hone, Hbp, Hbt. reflexivity.
  - left. destruct Hli as (_ & -> & -> & ->). reflexivity.
  - left. destruct Hli as (_ & -> & -> & _). rewrite Hph. reflexivity.
Qed.

End LoopAlive.

(** The sample monitor after its endpoint has answered, a null block and the
    expiry of the timer that followed: one request is out. *)
Lemma block_loop_never_dies_witness :
  Forall (fun l => l <> call_start /\ l <> call_stop)
    [probe_fulfilled 100;
     settle 0 (block_response (Js.Fulfilled None) Sample.empty_repo
                 all_return);
     fire 0]
  /\ running
       (run Sample.defaults
          [probe_fulfilled 100;
           settle 0 (block_response (Js.Fulfilled None) Sample.empty_repo
                 all_return);
           fire 0]
          (start Sample.defaults (new Sample.defaults Sample.chain)))
     = true.
Proof.
  assert (H : Forall (fun l => l <> call_start /\ l <> call_stop)
                [probe_fulfilled 100;
                 settle 0 (block_response (Js.Fulfilled None)
                             Sample.empty_repo all_return);
                 fire 0])
    by (repeat constructor; discriminate).
  split; [exact H |].
  exact (proj1 (block_loop_never_dies Sample.defaults Sample.chain _ H)).
Defined.

(** ** Start-up *)

Section StartUp.
Context (W : World).

(** X11: [stop] during start-up does not stop it. When [stop] is called
    while a probe of [start] is in flight and the endpoint then answers,
    [start] goes on as if nothing had happened: it keeps the provider,
    triggers [Monitor.Started] (after [Monitor.Stopped]) and requests the
    start block. Only when that request has settled does the flag take
    effect: whatever the answer, no timer is registered. *)
Theorem stop_during_startup (chain : SourcifyChain)
    (failed : list (string * Js.Error)) (u : string) (rest : list string)
    (lastBlockNumber : Z) (r : Js.Settled (option Block))
    (repo : Repository) (throws : Throws) :
  rpc chain = map fst failed ++ u :: rest ->
  let startBlock :=
    match MONITOR_START W chain with
    | Some raw => Js.parseInt raw
    | None => Js.Int lastBlockNumber
    end in
  let m :=
    run W (call_start :: map (fun f => probe_rejected (snd f)) failed
             ++ [call_stop; probe_fulfilled lastBlockNumber])
      (new W chain) in
  running m = false
  /\ provider m = Some (newProvider chain u)
  /\ trace m
     = failed_probes chain failed
       ++ [GetBlockNumber (newProvider chain u);
           Trigger (Monitor_Stopped (Js.toString (chainId chain)));
           Trigger (Monitor_Started (Js.toString (chainId chain)) u
                      lastBlockNumber startBlock);
           GetBlock startBlock]
  /\ inflight m = [await_getBlock startBlock]
  /\ timers m = []
  /\ timers (step W (settle 0 (block_response r repo throws)) m) = [].
Proof.
  intros Hrpc startBlock m.
  assert (Hm : m
               = await (await_getBlock startBlock)
                   (effects
                      (failed_probes chain failed
                       ++ [GetBlockNumber (newProvider chain u);
                           Trigger (Monitor_Stopped
                                      (Js.toString (chainId chain)));
                           Trigger (Monitor_Started
                                      (Js.toString (chainId chain)) u
                                      lastBlockNumber startBlock);
                           GetBlock startBlock])
                      (set_provider (Some (newProvider chain u))
                         (new W chain)))).
  { unfold m. rewrite run_cons. cbn [step]. unfold start.
    cbn [sourcifyChain set_running new]. rewrite Hrpc.
    rewrite start_loop_failed by reflexivity.
    unfold probe_fulfilled. cbn [run fold_left]. monitor_simpl.
    cbn [new inflight]. monitor_simpl.
    fold (MONITOR_START W chain). fold startBlock.
    apply state_ext; unfold stop, chainIdString; state_simpl;
      cbn [new trace inflight timers sourcifyChain];
      rewrite <- ?app_assoc; reflexivity. }
  assert (Hr : running m = false) by (rewrite Hm; reflexivity).
  assert (Ht : timers m = []) by (rewrite Hm; reflexivity).
  split; [exact Hr |].
  split; [rewrite Hm; reflexivity |].
  split; [rewrite Hm; state_simpl; reflexivity |].
  split; [rewrite Hm; reflexivity |].
  split; [exact Ht |].
  destruct (step_stopped W (settle 0 (block_response r repo throws)) m Hr)
    as [_ Hsub]; [discriminate |].
  rewrite Ht in Hsub. apply sublist_nil_r in Hsub. exact Hsub.
Qed.

(** X12: [start] does not look at the flag. Called on a monitor in any
    state (running or not, with a loop of its own or not) whose chain lists
    an endpoint, and that endpoint answering, it adds one request for a
    block to those in flight: a monitor started twice runs two block
    loops. *)
Theorem start_again_adds_loop (m : t) (u : string) (rest : list string)
    (lastBlockNumber : Z) :
  rpc (sourcifyChain m) = u :: rest ->
  let startBlock :=
    match MONITOR_START W (sourcifyChain m) with
    | Some raw => Js.parseInt raw
    | None => Js.Int lastBlockNumber
    end in
  let m' :=
    run W [call_start;
           settle (length (inflight m))
             (blockNumber_response (Js.Fulfilled lastBlockNumber))] m in
  running m' = true
  /\ block_promises m' = block_promises m ++ [startBlock]
  /\ live_loops m' = S (live_loops m).
Proof.
  intros Hrpc startBlock m'.
  assert (Hin : inflight m' = inflight m ++ [await_getBlock startBlock]
                /\ timers m' = timers m /\ running m' = true).
  { unfold m'. cbn [run fold_left step]. unfold start.
    cbn [sourcifyChain set_running]. rewrite Hrpc.
    unfold start_loop. state_simpl.
    rewrite (list_lookup_middle (inflight m) [] _ (length (inflight m)))
      by reflexivity.
    cbn [resume]. unfold getBlockNumber_settled, processBlock, start_end.
    state_simpl. rewrite delete_middle, app_nil_r.
    fold (MONITOR_START W (sourcifyChain m)). fold startBlock.
    auto. }
  destruct Hin as (Hin & Htm & Hr).
  split; [exact Hr |].
  unfold live_loops, block_promises, block_timers, probes.
  rewrite Hin, Htm, !omap_app. cbn [omap list_omap block_promise
                                     probe_promise].
  split; [reflexivity |].
  rewrite app_nil_r, length_app. cbn [length]. lia.
Qed.

(** X13: the supervisor makes one chain monitor for each chain it is given,
    in the order given, and for each chain of [monitoredChainArray] when it
    is given none or an empty list; its [start] calls [start] on every one
    before any endpoint has answered, so that each is running at its first
    probe (or has given up, when its chain lists no endpoint) and nothing
    has been emitted; its [stop] then clears every flag, with no timer
    anywhere. *)
Theorem monitor_fan_out (chainsToMonitor : option (list SourcifyChain)) :
  let chains :=
    match chainsToMonitor with
    | Some (c :: cs) => c :: cs
    | _ => monitoredChainArray W
    end in
  let M := Monitor.start W (Monitor.new W chainsToMonitor) in
  map sourcifyChain (Monitor.chainMonitors M) = chains
  /\ Forall (probing W) (Monitor.chainMonitors M)
  /\ Monitor.emitted M = []
  /\ Forall (fun cm => running cm = false /\ timers cm = [])
       (Monitor.chainMonitors (Monitor.stop M)).
Proof.
  intros chains M.
  assert (HM : Monitor.chainMonitors M
               = map (fun c => start W (new W c)) chains).
  { unfold M, Monitor.start, Monitor.new. cbn [Monitor.chainMonitors].
    fold chains. rewrite map_map. reflexivity. }
  assert (Hone : forall c,
             sourcifyChain (start W (new W c)) = c
             /\ probing W (start W (new W c))
             /\ List.filter Monitor.is_Emit (trace (start W (new W c))) = []
             /\ timers (start W (new W c)) = []).
  { intros c. unfold probing, start. cbn [new sourcifyChain set_running].
    unfold start_loop, start_end. fold (MONITOR_START W c).
    destruct (rpc c) as [|u rest] eqn:Hrpc; unfold chainIdString;
      state_simpl;
      cbn [new sourcifyChain trace inflight timers provider running app];
      rewrite ?Hrpc; repeat split; reflexivity. }
  split; [| split; [| split]].
  - rewrite HM, map_map. rewrite <- (map_id chains) at 2.
    apply map_ext. intros c. apply Hone.
  - rewrite HM. apply Forall_map, Forall_forall. intros c _. apply Hone.
  - unfold Monitor.emitted. rewrite HM. clear HM M.
    induction chains as [|c cs IH]; [reflexivity |].
    cbn [map flat_map]. destruct (Hone c) as (_ & _ & -> & _). exact IH.
  - unfold Monitor.stop. cbn [Monitor.chainMonitors]. rewrite HM, map_map.
    apply Forall_map, Forall_forall. intros c _.
    split; [reflexivity |]. unfold stop. state_simpl. apply Hone.
Qed.

Lemma toString_inj (x y : Z) : Js.toString x = Js.toString y -> x = y.
Proof. intros H. apply (inj (pretty : Z -> string)). exact H. Qed.

(** X14: the override of the start block is per chain. Setting
    [MONITOR_START_<chainId>] for one chain changes nothing for a monitor of
    a chain with another id: [start] reads the same value (or none) and
    does the same. *)
Theorem override_is_per_chain (chain : SourcifyChain) (raw : string)
    (m : t) :
  chainId (sourcifyChain m) <> chainId chain ->
  MONITOR_START (override chain raw W) (sourcifyChain m)
  = MONITOR_START W (sourcifyChain m)
  /\ start (override chain raw W) m = start W m.
Proof.
  intros Hid.
  assert (H : MONITOR_START (override chain raw W) (sourcifyChain m)
              = MONITOR_START W (sourcifyChain m)).
  { unfold MONITOR_START, override. cbn [env].
    apply lookup_insert_ne. intros Heq. apply Hid. symmetry.
    apply toString_inj. cbn [String.append] in Heq.
    injection Heq as Heq. exact Heq. }
  split; [exact H |].
  unfold start. cbn [sourcifyChain set_running].
  unfold MONITOR_START in H. rewrite H. reflexivity.
Qed.

End StartUp.

(** The sample monitor, stopped before its first endpoint has answered. *)
Lemma stop_during_startup_witness :
  rpc Sample.chain
  = map fst ([] : list (string * Js.Error))
    ++ "https://rpc.one" :: ["wss://rpc.two"]
  /\ trace
       (run Sample.defaults [call_start; call_stop; probe_fulfilled 100]
          (new Sample.defaults Sample.chain))
     = [GetBlockNumber (newProvider Sample.chain "https://rpc.one");
        Trigger (Monitor_Stopped "1");
        Trigger (Monitor_Started "1" "https://rpc.one" 100 (Js.Int 100));
        GetBlock (Js.Int 100)].
Proof.
  assert (H : rpc Sample.chain
              = map fst ([] : list (string * Js.Error))
                ++ "https://rpc.one" :: ["wss://rpc.two"])
    by reflexivity.
  split; [exact H |].
  exact (proj1 (proj2 (proj2
           (stop_during_startup Sample.defaults Sample.chain []
              "https://rpc.one" ["wss://rpc.two"] 100 (Js.Fulfilled None)
              Sample.empty_repo all_return H)))).
Defined.

(** The sample monitor, started again while its request for block 100 is
    out. *)
Lemma start_again_adds_loop_witness :
  rpc (sourcifyChain Sample.requested)
  = "https://rpc.one" :: ["wss://rpc.two"]
  /\ block_promises
       (run Sample.defaults
          [call_start; settle 1 (blockNumber_response (Js.Fulfilled 103))]
          Sample.requested)
     = [Js.Int 100; Js.Int 103].
Proof.
  assert (H : rpc (sourcifyChain Sample.requested)
              = "https://rpc.one" :: ["wss://rpc.two"]) by reflexivity.
  split; [exact H |].
  exact (proj1 (proj2
           (start_again_adds_loop Sample.defaults Sample.requested
              "https://rpc.one" ["wss://rpc.two"] 103 H))).
Defined.

(** An override for chain 5 and the monitor of chain 1. *)
Lemma override_is_per_chain_witness :
  chainId (sourcifyChain (new Sample.defaults Sample.chain))
  <> chainId (mkChain 5 "Goerli" [])
  /\ MONITOR_START
       (override (mkChain 5 "Goerli" []) "7000000" Sample.defaults)
       Sample.chain
     = None.
Proof.
  assert (H : chainId (sourcifyChain (new Sample.defaults Sample.chain))
              <> chainId (mkChain 5 "Goerli" [])) by discriminate.
  split; [exact H |].
  exact (proj1 (override_is_per_chain Sample.defaults
                  (mkChain 5 "Goerli" []) "7000000"
                  (new Sample.defaults Sample.chain) H)).
Defined.

(** ** What is left alone *)

Section LeftAlone.
Context (W : World).

(** X15: transactions with a destination are passed over. The loop of
    [processBlock] over the transactions of a block does for the whole list
    exactly what it does for those among them whose [to] is [null] or
    empty, in their order; and a list in which every transaction has a
    destination leaves the monitor as it is, whatever the repository says
    and whatever would throw, with or without a provider. *)
Theorem transfers_ignored (repo : Repository) (throws : Throws)
    (txs : list TransactionResponse) (m : t) :
  processTransactions W repo throws txs m
  = processTransactions W repo throws (List.filter no_destination txs) m
  /\ (Forall (fun tx => exists c s, to tx = Some (String c s)) txs ->
      processTransactions W repo throws txs m = Normal m).
Proof.
  split.
  - revert m. induction txs as [|tx rest IH]; intros m; [reflexivity |].
    cbn [List.filter]. destruct (no_destination tx) eqn:Hc.
    + cbn [processTransactions]. unfold bind.
      destruct (processTransaction W repo throws tx m);
        [apply IH | reflexivity].
    + cbn [processTransactions]. unfold bind, processTransaction at 1.
      rewrite createsContract_no_destination, Hc. apply IH.
  - intros Hall. revert m.
    induction Hall as [|tx rest (c & s & Hto) _ IH]; intros m;
      [reflexivity |].
    cbn [processTransactions]. unfold bind, processTransaction at 1.
    unfold createsContract. rewrite Hto.
    destruct (decide (String c s = EmptyString)) as [H | _];
      [discriminate H | apply IH].
Qed.

Lemma step_idle (chain : SourcifyChain) (l : Label) (m : t) :
  l <> call_start ->
  sourcifyChain m = chain /\ provider m = None /\ timers m = []
  /\ inflight m = []
  /\ Forall (fun e => e = Trigger (Monitor_Stopped
                                     (Js.toString (chainId chain))))
       (trace m) ->
  sourcifyChain (step W l m) = chain /\ provider (step W l m) = None
  /\ timers (step W l m) = [] /\ inflight (step W l m) = []
  /\ Forall (fun e => e = Trigger (Monitor_Stopped
                                     (Js.toString (chainId chain))))
       (trace (step W l m)).
Proof.
  intros Hl (Hc & Hp & Ht & Hi & Htr).
  destruct l as [| | i | i r]; cbn [step]; [now destruct Hl | | |].
  - unfold stop, chainIdString. state_simpl. rewrite Hc.
    repeat (split; [first [reflexivity | assumption] |]).
    apply Forall_app_2; [exact Htr |]. now apply Forall_cons_2.
  - rewrite Ht, lookup_nil. auto.
  - rewrite Hi, lookup_nil. auto.
Qed.

(** X16: a chain monitor does nothing until [start] is called. Whatever
    else happens to a fresh monitor, it has no provider, no timer and no
    request, and all it has done is to trigger [Monitor.Stopped] for every
    call of [stop]. *)
Theorem never_started_does_nothing (chain : SourcifyChain)
    (ls : list Label) :
  Forall (fun l => l <> call_start) ls ->
  let m := run W ls (new W chain) in
  provider m = None /\ timers m = [] /\ inflight m = []
  /\ Forall (fun e => e = Trigger (Monitor_Stopped
                                     (Js.toString (chainId chain))))
       (trace m).
Proof.
  intros Hls m.
  assert (H : forall m0,
             sourcifyChain m0 = chain /\ provider m0 = None
             /\ timers m0 = [] /\ inflight m0 = []
             /\ Forall (fun e => e = Trigger (Monitor_Stopped
                                                (Js.toString (chainId chain))))
                  (trace m0) ->
             sourcifyChain (run W ls m0) = chain
             /\ provider (run W ls m0) = None
             /\ timers (run W ls m0) = [] /\ inflight (run W ls m0) = []
             /\ Forall (fun e => e = Trigger (Monitor_Stopped
                                                (Js.toString (chainId chain))))
                  (trace (run W ls m0))).
  { induction Hls as [|l ls' Hl Hls' IH]; intros m0 Hm0; [exact Hm0 |].
    cbn [run fold_left]. change (fold_left _ ls' ?s) with (run W ls' s).
    apply IH, step_idle; assumption. }
  apply (H (new W chain)). cbn [new sourcifyChain provider timers inflight
                                 trace].
  repeat (split; [reflexivity |]). apply Forall_nil_2.
Qed.

(** X17: the pause moves the right way. For a pause within the limits and
    not negative, with a factor above 1 and a rounding that is monotone and
    exact at the pause and at 1 (as rounding to a double is, at a double), a
    block never lengthens the pause and a null block never shortens it. *)
Theorem pause_moves_the_right_way (m : t) :
  (forall x y : Q, (x <= y)%Q -> (fround W x <= fround W y)%Q) ->
  (fround W (getBlockPause m) == getBlockPause m)%Q ->
  (fround W 1 == 1)%Q ->
  module_assert W ->
  (0 <= getBlockPause m)%Q ->
  within_limits W (getBlockPause m) ->
  (getBlockPause (adaptBlockPause W decrease m) <= getBlockPause m)%Q
  /\ (getBlockPause m <= getBlockPause (adaptBlockPause W increase m))%Q.
Proof.
  intros Hmono Hexact Hone Hf Hpos [Hlo Hhi].
  unfold module_assert in Hf.
  unfold adaptBlockPause; cbn [getBlockPause set_getBlockPause].
  set (p := getBlockPause m) in *.
  set (F := BLOCK_PAUSE_FACTOR W) in *.
  split.
  - apply Q.max_lub; [| exact Hlo].
    apply Qle_trans with (fround W (p * fround W (1 / F))%Q);
      [apply Q.le_min_l |].
    apply Qle_trans with (fround W p); [| rewrite Hexact; apply Qle_refl].
    apply Hmono.
    assert (Hinv : (fround W (1 / F) <= 1)%Q).
    { apply Qle_trans with (fround W 1); [| rewrite Hone; apply Qle_refl].
      apply Hmono. apply Qle_shift_div_r.
      - apply Qlt_trans with 1%Q; [reflexivity | exact Hf].
      - rewrite Qmult_1_l. apply Qlt_le_weak. exact Hf. }
    apply Qle_trans with (p * 1)%Q; [| rewrite Qmult_1_r; apply Qle_refl].
    rewrite (Qmult_comm p (fround W (1 / F))), (Qmult_comm p 1).
    apply Qmult_le_compat_r; assumption.
  - apply Qle_trans with (Qmin (fround W (p * F)) (BLOCK_PAUSE_UPPER_LIMIT W));
      [| apply Q.le_max_l].
    apply Q.min_glb; [| exact Hhi].
    apply Qle_trans with (fround W p); [rewrite Hexact; apply Qle_refl |].
    apply Hmono.
    apply Qle_trans with (p * 1)%Q; [rewrite Qmult_1_r; apply Qle_refl |].
    rewrite (Qmult_comm p F), (Qmult_comm p 1).
    apply Qmult_le_compat_r; [apply Qlt_le_weak; exact Hf | exact Hpos].
Qed.

End LeftAlone.

(** The sample monitor, stopped twice and never started. *)
Lemma never_started_does_nothing_witness :
  Forall (fun l => l <> call_start) [call_stop; fire 0; call_stop]
  /\ timers
       (run Sample.defaults [call_stop; fire 0; call_stop]
          (new Sample.defaults Sample.chain))
     = [].
Proof.
  assert (H : Forall (fun l => l <> call_start) [call_stop; fire 0; call_stop])
    by (repeat constructor; discriminate).
  split; [exact H |].
  exact (proj1 (proj2
           (never_started_does_nothing Sample.defaults Sample.chain _ H))).
Defined.

(** With exact arithmetic and the defaults: from 10 s a block leads to a
    pause no longer, a null block to one no shorter. *)
Lemma pause_moves_the_right_way_witness :
  (getBlockPause
     (adaptBlockPause Sample.defaults decrease
        (new Sample.defaults Sample.chain))
   <= getBlockPause (new Sample.defaults Sample.chain))%Q
  /\ (getBlockPause (new Sample.defaults Sample.chain)
      <= getBlockPause
           (adaptBlockPause Sample.defaults increase
              (new Sample.defaults Sample.chain)))%Q.
Proof.
  apply (pause_moves_the_right_way Sample.defaults
           (new Sample.defaults Sample.chain)).
  - intros x y Hxy. cbn [fround Sample.defaults Sample.world].
    rewrite !Qred_correct. exact Hxy.
  - apply Qred_correct.
  - apply Qred_correct.
  - vm_compute. reflexivity.
  - vm_compute. discriminate.
  - split; vm_compute; discriminate.
Defined.

(** The transfer of the sample block has a destination: the loop passes it
    over, even while every call would throw. *)
Lemma transfers_ignored_witness :
  Forall (fun tx => exists c s, to tx = Some (String c s)) [Sample.transfer]
  /\ processTransactions Sample.defaults Sample.empty_repo
       (fun _ => Some Sample.listener_failure) [Sample.transfer]
       Sample.requested
     = Normal Sample.requested.
Proof.
  assert (H : Forall (fun tx => exists c s, to tx = Some (String c s))
                [Sample.transfer]).
  { apply Forall_cons_2; [| apply Forall_nil_2].
    exists "0"%char, "xBB". reflexivity. }
  split; [exact H |].
  exact (proj2 (transfers_ignored Sample.defaults Sample.empty_repo
                  (fun _ => Some Sample.listener_failure) [Sample.transfer]
                  Sample.requested) H).
Defined.
